(** * WhatsApp Bookkeeper: extraction, categorisation, ledger and statistics

    A shallow embedding of the deterministic core of the
    [whatsapp_bookkeeper] package (extractor.py, categorizer.py, config.py,
    ledger.py, ocr.py, whatsapp_sim.py, summarizer.py, demo.py) together
    with the properties that its specification states about it, and
    further properties that the code shows.

    Modelling conventions.
    - A Python [str] is a [string]: the sequence of the bytes of its UTF-8
      encoding.  Substring search and lexicographic comparison on UTF-8
      bytes agree with the same operations on code points.  Case mapping,
      digits and white space are those of the ASCII range; bytes above 127
      are letters without case that belong to no class but [.].  Python
      knows more white space, digits and letter cases than these, so the
      statements that depend on them are made for texts of the ASCII range
      ([Spec.ascii_text]).
    - A Python [float] is idealised as a rational number ([Q]), kept in
      lowest terms; rounding, overflow and underflow of binary floating
      point are not modelled.  Where amounts are put in order (the
      statistics of the ledger), the code is also given with the
      operations on floats left open (module [Tally]): what is proved
      there holds whatever the sums and products round to, for amounts
      within the finite range of the floats.
    - A Python [int] is a [Z].
    - A [dict] whose iteration order matters is an association list in
      insertion order.
    - The clock, the identifier generator, the file system, the OCR engine
      and the language-model service are fields of an environment record. *)

From Stdlib Require Import Bool Arith ZArith QArith Qreduction Lia List.
From Stdlib Require Import Ascii String DecimalString.
From Stdlib Require Import Qround Qabs DecimalNat.
From Stdlib Require Import Permutation Sorted.
Import ListNotations.

Close Scope Q_scope.
Local Open Scope string_scope.
Local Open Scope list_scope.

(* ------------------------------------------------------------------ *)
(** * Strings *)

Module Str.

(** Code of a character, as a natural number. *)
Definition code (c : ascii) : nat := nat_of_ascii c.

Definition between (lo hi : nat) (c : ascii) : bool :=
  (lo <=? code c)%nat && (code c <=? hi)%nat.

(** [str.isspace] on the ASCII range: TAB, LF, VT, FF, CR, FS, GS, RS, US
    and the space. *)
Definition is_space (c : ascii) : bool :=
  between 9 13 c || between 28 32 c.

(** [\d] on the ASCII range. *)
Definition is_digit (c : ascii) : bool := between 48 57 c.

Definition is_upper (c : ascii) : bool := between 65 90 c.
Definition is_lower (c : ascii) : bool := between 97 122 c.

Definition lower_char (c : ascii) : ascii :=
  if is_upper c then ascii_of_nat (code c + 32) else c.

Definition upper_char (c : ascii) : ascii :=
  if is_lower c then ascii_of_nat (code c - 32) else c.

(** [s.lower()] *)
Fixpoint lower (s : string) : string :=
  match s with
  | EmptyString => EmptyString
  | String c t => String (lower_char c) (lower t)
  end.

(** [s.capitalize()] *)
Definition capitalize (s : string) : string :=
  match s with
  | EmptyString => EmptyString
  | String c t => String (upper_char c) (lower t)
  end.

(** [s.startswith(p)], written with the prefix first. *)
Fixpoint starts (p s : string) : bool :=
  match p, s with
  | EmptyString, _ => true
  | String a p', String b s' => Ascii.eqb a b && starts p' s'
  | String _ _, EmptyString => false
  end.

(** [needle in hay] *)
Fixpoint contains (needle hay : string) : bool :=
  starts needle hay ||
  match hay with
  | EmptyString => false
  | String _ t => contains needle t
  end.

Fixpoint drop (n : nat) (s : string) : string :=
  match n, s with
  | O, _ => s
  | S _, EmptyString => EmptyString
  | S n', String _ t => drop n' t
  end.

Fixpoint take (n : nat) (s : string) : string :=
  match n, s with
  | O, _ => EmptyString
  | S _, EmptyString => EmptyString
  | S n', String c t => String c (take n' t)
  end.

(** [s.replace(old, new)] for a non-empty pattern [old]: occurrences are
    replaced from left to right and do not overlap.  [skip] counts the
    characters of the occurrence being replaced that are still to pass. *)
Fixpoint replace_aux (old new : string) (skip : nat) (s : string) : string :=
  match s with
  | EmptyString => EmptyString
  | String c t =>
      match skip with
      | S k => replace_aux old new k t
      | O =>
          if starts old s
          then new ++ replace_aux old new (String.length old - 1) t
          else String c (replace_aux old new 0 t)
      end
  end.

Definition replace (old new s : string) : string := replace_aux old new 0 s.

(** [s.lstrip()], [s.rstrip()] and [s.strip()] *)
Fixpoint lstrip (s : string) : string :=
  match s with
  | EmptyString => EmptyString
  | String c t => if is_space c then lstrip t else s
  end.

Fixpoint rstrip (s : string) : string :=
  match s with
  | EmptyString => EmptyString
  | String c t =>
      match rstrip t with
      | EmptyString => if is_space c then EmptyString else String c EmptyString
      | r => String c r
      end
  end.

Definition strip (s : string) : string := rstrip (lstrip s).

(** [sep.join(l)] *)
Fixpoint join (sep : string) (l : list string) : string :=
  match l with
  | [] => EmptyString
  | [x] => x
  | x :: t => x ++ sep ++ join sep t
  end.

(** Line boundaries of [str.splitlines] in the ASCII range: LF, VT, FF,
    CR, FS, GS and RS; CR LF counts as one boundary. *)
Definition is_linebreak (c : ascii) : bool :=
  between 10 13 c || between 28 30 c.

(** [s.splitlines()]: [cur] is the line being read, [started] tells that
    a line is open and [after_cr] that the previous character was a CR. *)
Fixpoint splitlines_aux (cur : string) (started after_cr : bool) (s : string)
  : list string :=
  match s with
  | EmptyString => if started then [cur] else []
  | String c t =>
      if after_cr && Ascii.eqb c "010"%char then splitlines_aux cur started false t
      else if is_linebreak c
           then cur :: splitlines_aux EmptyString false (Ascii.eqb c "013"%char) t
           else splitlines_aux (cur ++ String c EmptyString) true false t
  end.

Definition splitlines (s : string) : list string :=
  splitlines_aux EmptyString false false s.

(** Lexicographic comparison of strings, character code by character
    code: the order of [<=] and [>=] on [str]. *)
Fixpoint compare (s t : string) : comparison :=
  match s, t with
  | EmptyString, EmptyString => Eq
  | EmptyString, String _ _ => Lt
  | String _ _, EmptyString => Gt
  | String a s', String b t' =>
      match Nat.compare (code a) (code b) with
      | Eq => compare s' t'
      | o => o
      end
  end.

Definition leb (s t : string) : bool :=
  match compare s t with Gt => false | _ => true end.

Definition geb (s t : string) : bool := leb t s.

(** Decimal text of a natural number, as [str(n)] prints it. *)
Definition of_nat (n : nat) : string := NilEmpty.string_of_uint (Nat.to_uint n).

End Str.

(* ------------------------------------------------------------------ *)
(** * Numbers read from text *)

Module Num.

Definition digit_val (c : ascii) : Z := Z.of_nat (Str.code c - 48).

Fixpoint all_digits (s : string) : bool :=
  match s with
  | EmptyString => true
  | String c t => Str.is_digit c && all_digits t
  end.

(** Value of a string of decimal digits, most significant first. *)
Fixpoint digits_acc (acc : Z) (s : string) : Z :=
  match s with
  | EmptyString => acc
  | String c t => digits_acc (10 * acc + digit_val c) t
  end.

Definition digits_value (s : string) : Z := digits_acc 0 s.

(** Splits a string at its first dot. *)
Fixpoint split_dot (s : string) : string * option string :=
  match s with
  | EmptyString => (EmptyString, None)
  | String c t =>
      if Ascii.eqb c "."%char then (EmptyString, Some t)
      else let (a, b) := split_dot t in (String c a, b)
  end.

Fixpoint pow10 (k : nat) : positive :=
  match k with
  | O => 1%positive
  | S k' => (10 * pow10 k')%positive
  end.

(** The rational [n / 10^k], in lowest terms. *)
Definition decimal (n : Z) (k : nat) : Q := Qred (Qmake n (pow10 k)).

(** [float(s)] on the texts the package passes to it, which are made of
    digits and dots only: digits with at most one dot and at least one
    digit.  Anything else is the [ValueError] of Python, here [None]. *)
Definition float_of_string (s : string) : option Q :=
  match split_dot s with
  | (ip, None) =>
      if all_digits ip && negb (String.length ip =? 0)%nat
      then Some (decimal (digits_value ip) 0) else None
  | (ip, Some fp) =>
      if all_digits ip && all_digits fp
         && negb (String.length ip + String.length fp =? 0)%nat
      then Some (decimal (digits_value (ip ++ fp)) (String.length fp))
      else None
  end.

(** Truth value of a [float]: every number but zero. *)
Definition truthy (q : Q) : bool := negb (Qnum q =? 0)%Z.

(** Sum and product of floats, kept in lowest terms. *)
Definition add (a b : Q) : Q := Qred (a + b).
Definition mul (a b : Q) : Q := Qred (a * b).
Definition of_int (n : Z) : Q := inject_Z n.

End Num.

(* ------------------------------------------------------------------ *)
(** * Regular expressions

    The fragment of Python's [re] that the package uses, with the
    semantics of its backtracking matcher: alternatives are tried in
    order, a greedy repetition tries the longest run first and a lazy one
    the shortest, and the first way of matching the whole pattern wins.
    Repetition is over single characters, which is all the patterns of the
    package need. *)

Module Re.

(** A position in the subject: the character before it, if any, and the
    text from it on. *)
Record cursor := Cursor { prev : option ascii; rest : string }.

(** The groups captured so far, most recent first. *)
Definition caps := list (nat * string).

Inductive regex : Type :=
| Eps
| Chr (p : ascii -> bool)
| Seq (r1 r2 : regex)
| Alt (r1 r2 : regex)
| Rep (greedy : bool) (lo : nat) (hi : option nat) (p : ascii -> bool)
| Grp (n : nat) (r : regex)
| Bol
| Eol (multiline : bool).

Definition newline : ascii := "010"%char.

(** [^] under [re.MULTILINE]: the start of the text or just after a
    newline. *)
Definition at_bol (c : cursor) : bool :=
  match prev c with
  | None => true
  | Some a => Ascii.eqb a newline
  end.

(** [$]: the end of the text or just before its final newline; under
    [re.MULTILINE], before any newline. *)
Definition at_eol (multiline : bool) (c : cursor) : bool :=
  match rest c with
  | EmptyString => true
  | String a t =>
      Ascii.eqb a newline
      && (multiline || match t with EmptyString => true | _ => false end)
  end.

Definition can_more (hi : option nat) : bool :=
  match hi with
  | Some O => false
  | _ => true
  end.

(** Text between two cursors of the same subject. *)
Definition consumed (c c' : cursor) : string :=
  Str.take (String.length (rest c) - String.length (rest c')) (rest c).

Section Matcher.

Context {R : Type}.

(** [p{lo,hi}] followed by the continuation [k]. *)
Fixpoint rep (g : bool) (p : ascii -> bool) (k : cursor -> option R)
    (lo : nat) (hi : option nat) (pv : option ascii) (s : string)
    {struct s} : option R :=
  let stop := fun _ : unit =>
    match lo with O => k (Cursor pv s) | S _ => None end in
  match s with
  | EmptyString => stop tt
  | String a t =>
      if p a && can_more hi then
        if g then
          match rep g p k (pred lo) (option_map pred hi) (Some a) t with
          | Some x => Some x
          | None => stop tt
          end
        else
          match stop tt with
          | Some x => Some x
          | None => rep g p k (pred lo) (option_map pred hi) (Some a) t
          end
      else stop tt
  end.

(** The matcher, in continuation-passing style: [rmatch r k c cs] matches
    [r] at [c] and hands the position reached to [k]; when [k] fails the
    next way of matching [r] is tried. *)
Fixpoint rmatch (r : regex) (k : cursor -> caps -> option R)
    (c : cursor) (cs : caps) {struct r} : option R :=
  match r with
  | Eps => k c cs
  | Chr p =>
      match rest c with
      | String a t => if p a then k (Cursor (Some a) t) cs else None
      | EmptyString => None
      end
  | Seq r1 r2 => rmatch r1 (rmatch r2 k) c cs
  | Alt r1 r2 =>
      match rmatch r1 k c cs with
      | Some x => Some x
      | None => rmatch r2 k c cs
      end
  | Rep g lo hi p => rep g p (fun c' => k c' cs) lo hi (prev c) (rest c)
  | Grp n r' => rmatch r' (fun c' cs' => k c' ((n, consumed c c') :: cs')) c cs
  | Bol => if at_bol c then k c cs else None
  | Eol ml => if at_eol ml c then k c cs else None
  end.

End Matcher.

(** A match object: where it starts, where it ends, and its groups. *)
Record mobj := MObj { m_begin : cursor; m_end : cursor; m_caps : caps }.

Fixpoint lookup (n : nat) (cs : caps) : option string :=
  match cs with
  | [] => None
  | (i, s) :: t => if (i =? n)%nat then Some s else lookup n t
  end.

(** [m.group(n)] for a group that took part in the match. *)
Definition group (n : nat) (m : mobj) : string :=
  match lookup n (m_caps m) with
  | Some s => s
  | None => EmptyString
  end.

Definition match_at (r : regex) (c : cursor) : option mobj :=
  rmatch r (fun c' cs => Some (MObj c c' cs)) c [].

(** [re.match(r, text)] *)
Definition re_match (r : regex) (text : string) : option mobj :=
  match_at r (Cursor None text).

(** [re.search(r, text)]: the match at the leftmost position that has
    one. *)
Fixpoint search_from (r : regex) (pv : option ascii) (s : string)
  : option mobj :=
  match match_at r (Cursor pv s) with
  | Some m => Some m
  | None =>
      match s with
      | EmptyString => None
      | String a t => search_from r (Some a) t
      end
  end.

Definition search (r : regex) (text : string) : option mobj :=
  search_from r None text.

(** [r.finditer(text)]: the successive matches from left to right, without
    overlap.  [skip] counts the characters of the last match that are still
    to pass.  (After an empty match the scan moves on by one character;
    the patterns iterated in the package never match the empty string.) *)
Fixpoint finditer_from (r : regex) (skip : nat) (pv : option ascii)
    (s : string) : list mobj :=
  match skip with
  | S k =>
      match s with
      | EmptyString => []
      | String a t => finditer_from r k (Some a) t
      end
  | O =>
      match match_at r (Cursor pv s) with
      | Some m =>
          m :: match s with
               | EmptyString => []
               | String a t =>
                   finditer_from r
                     (pred (String.length s - String.length (rest (m_end m))))
                     (Some a) t
               end
      | None =>
          match s with
          | EmptyString => []
          | String a t => finditer_from r 0 (Some a) t
          end
      end
  end.

Definition finditer (r : regex) (text : string) : list mobj :=
  finditer_from r 0 None text.

(** ** Pattern syntax *)

Fixpoint seqs (l : list regex) : regex :=
  match l with
  | [] => Eps
  | [r] => r
  | r :: t => Seq r (seqs t)
  end.

Fixpoint alts (l : list regex) : regex :=
  match l with
  | [] => Chr (fun _ => false)
  | [r] => r
  | r :: t => Alt r (alts t)
  end.

Definition chr (a : ascii) : ascii -> bool := fun c => Ascii.eqb c a.

(** A letter under [re.IGNORECASE]. *)
Definition is_nocase (a : ascii) : ascii -> bool :=
  fun c => Ascii.eqb (Str.lower_char c) (Str.lower_char a).

Definition one_of (s : string) : ascii -> bool :=
  fun c => Str.contains (String c EmptyString) s.

(** A literal text, and the same under [re.IGNORECASE]. *)
Fixpoint lit (s : string) : regex :=
  match s with
  | EmptyString => Eps
  | String a EmptyString => Chr (chr a)
  | String a t => Seq (Chr (chr a)) (lit t)
  end.

Fixpoint ilit (s : string) : regex :=
  match s with
  | EmptyString => Eps
  | String a EmptyString => Chr (is_nocase a)
  | String a t => Seq (Chr (is_nocase a)) (ilit t)
  end.

(** [.]: any character but a newline. *)
Definition any : ascii -> bool := fun c => negb (Ascii.eqb c newline).
(** [[\d.,]] *)
Definition money : ascii -> bool :=
  fun c => Str.is_digit c || chr "."%char c || chr ","%char c.

Definition star (p : ascii -> bool) : regex := Rep true 0 None p.
Definition plus (p : ascii -> bool) : regex := Rep true 1 None p.
Definition opt (p : ascii -> bool) : regex := Rep true 0 (Some 1) p.
Definition lazy_plus (p : ascii -> bool) : regex := Rep false 1 None p.

(** ** What a pattern denotes

    [steps r c cs c' cs'] says that the pattern [r] can read the subject
    from the position [c] to the position [c'], turning the captures [cs]
    into [cs'].  The matcher above is sound and complete for it, and finds
    the first way of reading in the order of backtracking. *)

Fixpoint all (p : ascii -> bool) (w : string) : bool :=
  match w with
  | EmptyString => true
  | String a t => p a && all p t
  end.

(** The character before the position reached after reading [w]. *)
Fixpoint last_char (pv : option ascii) (w : string) : option ascii :=
  match w with
  | EmptyString => pv
  | String a t => last_char (Some a) t
  end.

Definition within (hi : option nat) (n : nat) : Prop :=
  match hi with
  | Some h => n <= h
  | None => True
  end.

Inductive steps : regex -> cursor -> caps -> cursor -> caps -> Prop :=
| st_eps c cs : steps Eps c cs c cs
| st_chr p pv a t cs :
    p a = true ->
    steps (Chr p) (Cursor pv (String a t)) cs (Cursor (Some a) t) cs
| st_seq r1 r2 c cs c1 cs1 c2 cs2 :
    steps r1 c cs c1 cs1 -> steps r2 c1 cs1 c2 cs2 ->
    steps (Seq r1 r2) c cs c2 cs2
| st_alt_l r1 r2 c cs c' cs' :
    steps r1 c cs c' cs' -> steps (Alt r1 r2) c cs c' cs'
| st_alt_r r1 r2 c cs c' cs' :
    steps r2 c cs c' cs' -> steps (Alt r1 r2) c cs c' cs'
| st_rep g lo hi p pv w s cs :
    all p w = true -> lo <= String.length w -> within hi (String.length w) ->
    steps (Rep g lo hi p) (Cursor pv (w ++ s)) cs (Cursor (last_char pv w) s) cs
| st_grp n r c cs c' cs' :
    steps r c cs c' cs' ->
    steps (Grp n r) c cs c' ((n, consumed c c') :: cs')
| st_bol c cs : at_bol c = true -> steps Bol c cs c cs
| st_eol ml c cs : at_eol ml c = true -> steps (Eol ml) c cs c cs.

(** The text at [s] does not go on with a character of [p]. *)
Definition stops (p : ascii -> bool) (s : string) : Prop :=
  match s with
  | EmptyString => True
  | String a _ => p a = false
  end.


End Re.

(* ------------------------------------------------------------------ *)
(** * Calendar dates

    The part of [datetime.date] that the package relies on: construction
    with its range check, ordinals, the weekday, shifting by a number of
    days, and the ISO text of a date. *)

Module Date.

Local Open Scope Z_scope.

Record date := Make { year : Z; month : Z; day : Z }.

Definition is_leap (y : Z) : bool :=
  (y mod 4 =? 0) && (negb (y mod 100 =? 0) || (y mod 400 =? 0)).

Definition days_in_month (y m : Z) : Z :=
  match m with
  | 1 | 3 | 5 | 7 | 8 | 10 | 12 => 31
  | 4 | 6 | 9 | 11 => 30
  | 2 => if is_leap y then 29 else 28
  | _ => 0
  end.

Definition MINYEAR : Z := 1.
Definition MAXYEAR : Z := 9999.

(** The check that [date(y, m, d)] performs before building a date. *)
Definition valid (d : date) : bool :=
  (MINYEAR <=? year d) && (year d <=? MAXYEAR)
  && (1 <=? month d) && (month d <=? 12)
  && (1 <=? day d) && (day d <=? days_in_month (year d) (month d)).

(** [date(y, m, d)]; [None] stands for its [ValueError]. *)
Definition new (y m d : Z) : option date :=
  if valid (Make y m d) then Some (Make y m d) else None.

Definition days_before_year (y : Z) : Z :=
  let p := y - 1 in p * 365 + p / 4 - p / 100 + p / 400.

Definition days_before_month (y m : Z) : Z :=
  match m with
  | 1 => 0 | 2 => 31 | 3 => 59 | 4 => 90 | 5 => 120 | 6 => 151
  | 7 => 181 | 8 => 212 | 9 => 243 | 10 => 273 | 11 => 304 | 12 => 334
  | _ => 0
  end + (if (2 <? m) && is_leap y then 1 else 0).

(** [d.toordinal()]: day 1 is 0001-01-01. *)
Definition toordinal (d : date) : Z :=
  days_before_year (year d) + days_before_month (year d) (month d) + day d.

(** [d.weekday()]: Monday is 0 and Sunday is 6. *)
Definition weekday (d : date) : Z := (toordinal d + 6) mod 7.

(** The day after and the day before; [None] stands for the
    [OverflowError] raised outside 0001-01-01 .. 9999-12-31. *)
Definition next_day (d : date) : option date :=
  if day d <? days_in_month (year d) (month d)
  then Some (Make (year d) (month d) (day d + 1))
  else if month d <? 12 then Some (Make (year d) (month d + 1) 1)
  else if year d <? MAXYEAR then Some (Make (year d + 1) 1 1)
  else None.

Definition prev_day (d : date) : option date :=
  if 1 <? day d then Some (Make (year d) (month d) (day d - 1))
  else if 1 <? month d
       then Some (Make (year d) (month d - 1)
                    (days_in_month (year d) (month d - 1)))
  else if MINYEAR <? year d then Some (Make (year d - 1) 12 31)
  else None.

Fixpoint iter_days (step : date -> option date) (n : nat) (d : date)
  : option date :=
  match n with
  | O => Some d
  | S n' =>
      match step d with
      | Some d' => iter_days step n' d'
      | None => None
      end
  end.

(** [d + timedelta(days=n)] and [d - timedelta(days=n)] for [n >= 0]. *)
Definition add_days (d : date) (n : Z) : option date :=
  iter_days next_day (Z.to_nat n) d.
Definition sub_days (d : date) (n : Z) : option date :=
  iter_days prev_day (Z.to_nat n) d.

Definition digit_char (n : Z) : ascii := ascii_of_nat (48 + Z.to_nat n).

Definition pad2 (n : Z) : string :=
  String (digit_char (n / 10 mod 10)) (String (digit_char (n mod 10)) "").

Definition pad4 (n : Z) : string :=
  String (digit_char (n / 1000 mod 10))
    (String (digit_char (n / 100 mod 10)) (pad2 n)).

(** [d.isoformat()], also what [strftime("%Y-%m-%d")] prints. *)
Definition isoformat (d : date) : string :=
  pad4 (year d) ++ "-" ++ pad2 (month d) ++ "-" ++ pad2 (day d).

(** [date.fromisoformat(s)] on the form [YYYY-MM-DD]; [None] stands for
    its [ValueError]. *)
Definition fromisoformat (s : string) : option date :=
  let y := Str.take 4 s in
  let m := Str.take 2 (Str.drop 5 s) in
  let d := Str.take 2 (Str.drop 8 s) in
  if (String.length s =? 10)%nat
     && Str.starts "-" (Str.drop 4 s) && Str.starts "-" (Str.drop 7 s)
     && Num.all_digits y && Num.all_digits m && Num.all_digits d
  then new (Num.digits_value y) (Num.digits_value m) (Num.digits_value d)
  else None.

(** The order of dates: year, then month, then day. *)
Definition compare_ymd (d1 d2 : date) : comparison :=
  match year d1 ?= year d2 with
  | Eq => match month d1 ?= month d2 with
          | Eq => day d1 ?= day d2
          | o => o
          end
  | o => o
  end.

(** The number of days of a year. *)
Definition year_len (y : Z) : Z := if is_leap y then 366 else 365.

(** [date.max.toordinal()] *)
Definition max_ordinal : Z := toordinal (Make MAXYEAR 12 31).

End Date.

(* ------------------------------------------------------------------ *)
(** * Data model *)

Inductive tx_type := Sale | Expense.

Definition tx_type_eqb (a b : tx_type) : bool :=
  match a, b with
  | Sale, Sale | Expense, Expense => true
  | _, _ => false
  end.

(** A line item: [{"name", "qty", "unit_price"}]. *)
Record Item := MkItem { name : string; qty : Z; unit_price : Q }.

(** The dictionary produced by the extractor and by the quick-entry
    parser. *)
Record Transaction := MkTx {
  tx_date : string;
  tx_total : Q;
  tx_items : list Item;
  tx_type_of : tx_type;
  tx_description : string;
  tx_raw_text : string
}.

(** A ledger entry. *)
Record Entry := MkEntry {
  e_id : string;
  e_timestamp : string;
  e_date : string;
  e_total : Q;
  e_type : tx_type;
  e_category : string;
  e_description : string;
  e_items : list Item
}.

(** Membership in a list of strings: [x in l]. *)
Definition mem (x : string) (l : list string) : bool :=
  existsb (String.eqb x) l.

(* ------------------------------------------------------------------ *)
(** * Environment

    What the package reads from outside: the clock, the identifier
    generator, the file system, the OCR engine and the optional
    language-model service.  A service call that raises is a [None]. *)

Record Llm := MkLlm {
  (** the dictionary decoded from the reply to the extraction prompt *)
  llm_extract : string -> option Transaction;
  (** the text of the reply to the categorisation prompt *)
  llm_category : string -> option string
}.

Record Env := MkEnv {
  today : Date.date;                 (** [date.today()], [datetime.now()] *)
  now_iso : string;                  (** [datetime.now().isoformat()] *)
  uuid8 : string;                    (** [str(uuid.uuid4())[:8]] *)
  isfile : string -> bool;           (** [os.path.isfile] *)
  tesseract : option (string -> option string);
                                     (** [pytesseract], when installed *)
  llm : option Llm                   (** set when an API key is configured
                                         and [openai] is installed *)
}.

(** [datetime.now().strftime("%Y-%m-%d")] *)
Definition today_str (env : Env) : string := Date.isoformat (today env).

(* ------------------------------------------------------------------ *)
(** * extractor.py *)

Module Extractor.

Import Re.

(** [_parse_brazilian_number]: [R$1.234,56] becomes [1234.56]; [None]
    when [float] rejects the text. *)
Definition _parse_brazilian_number (s : string) : option Q :=
  let s := Str.strip (Str.replace " " "" (Str.replace "R$" "" s)) in
  let s := Str.replace "." "" s in
  let s := Str.replace "," "." s in
  Num.float_of_string s.

(** [(\d{1,2})[/\-](\d{1,2})[/\-](\d{4})] *)
Definition date_re : regex :=
  seqs [ Grp 1 (Rep true 1 (Some 2) Str.is_digit);
         Chr (one_of "/-");
         Grp 2 (Rep true 1 (Some 2) Str.is_digit);
         Chr (one_of "/-");
         Grp 3 (Rep true 4 (Some 4) Str.is_digit) ].

(** The date that a match of [date_re] denotes: [date(int(year),
    int(month), int(day))]. *)
Definition date_of_match (m : mobj) : option Date.date :=
  Date.new (Num.digits_value (group 3 m))
           (Num.digits_value (group 2 m))
           (Num.digits_value (group 1 m)).

(** [_parse_date]: the first match of the pattern, when it is a date of
    the calendar; the date of the clock otherwise. *)
Definition _parse_date (env : Env) (text : string) : string :=
  match search date_re text with
  | Some m =>
      match date_of_match m with
      | Some d => Date.isoformat d
      | None => today_str env
      end
  | None => today_str env
  end.

Definition sale_keywords : list string :=
  [ "venda"; "vendas"; "recibo de venda"; "sold"; "sale";
    "pagamento recebido"; "pix recebido" ].

(** [_detect_type] *)
Definition _detect_type (text : string) : tx_type :=
  let text_lower := Str.lower text in
  if existsb (fun kw => Str.contains kw text_lower) sale_keywords
  then Sale else Expense.

(** [Produto:\s*(.+?)\s+Qtd:\s*(\d+)\s+Valor:\s*R?\$?\s*([\d.,]+)] with
    [re.IGNORECASE] *)
Definition pattern_produto : regex :=
  seqs [ ilit "Produto:"; star Str.is_space;
         Grp 1 (lazy_plus any); plus Str.is_space;
         ilit "Qtd:"; star Str.is_space;
         Grp 2 (plus Str.is_digit); plus Str.is_space;
         ilit "Valor:"; star Str.is_space;
         opt (is_nocase "R"); opt (chr "$"); star Str.is_space;
         Grp 3 (plus money) ].

(** [^(.+?)\s+(\d+)\s*[xX]\s+R?\$?\s*([\d.,]+)\s*$] with [re.MULTILINE] *)
Definition pattern_qty_x : regex :=
  seqs [ Bol; Grp 1 (lazy_plus any); plus Str.is_space;
         Grp 2 (plus Str.is_digit); star Str.is_space;
         Chr (one_of "xX"); plus Str.is_space;
         opt (chr "R"); opt (chr "$"); star Str.is_space;
         Grp 3 (plus money); star Str.is_space; Eol true ].

(** [^(.+?)\s{2,}R?\$?\s*([\d.,]+)\s*$] with [re.MULTILINE] *)
Definition pattern_price_only : regex :=
  seqs [ Bol; Grp 1 (lazy_plus any); Rep true 2 None Str.is_space;
         opt (chr "R"); opt (chr "$"); star Str.is_space;
         Grp 2 (plus money); star Str.is_space; Eol true ].

(** [\d+\s*[xX]\s*$] *)
Definition qty_suffix : regex :=
  seqs [ plus Str.is_digit; star Str.is_space; Chr (one_of "xX");
         star Str.is_space; Eol false ].

Definition skip_words : list string :=
  [ "total"; "subtotal"; "troco"; "forma"; "pgto"; "pagamento"; "data";
    "nf " ].

(** The state of the three loops of [_extract_items]: the items found so
    far and the set [seen_lines] of their names. *)
Definition items_state : Type := list Item * list string.

Definition price_ok (price : option Q) : bool :=
  match price with
  | Some p => Num.truthy p
  | None => false
  end.

Definition price_val (price : option Q) : Q :=
  match price with
  | Some p => p
  | None => 0%Q
  end.

Definition append_item (st : items_state) (it : Item) : items_state :=
  (fst st ++ [it], name it :: snd st).

(** Body of the loops over [pattern_produto] and [pattern_qty_x].  The
    quantity is [int] of a capture of [\d+], which cannot fail. *)
Definition step_qty (st : items_state) (m : mobj) : items_state :=
  let nm := Str.strip (group 1 m) in
  let q := Num.digits_value (group 2 m) in
  let price := _parse_brazilian_number (group 3 m) in
  if price_ok price && negb (mem nm (snd st))
  then append_item st (MkItem nm q (price_val price))
  else st.

(** Body of the loop over [pattern_price_only]. *)
Definition step_price_only (st : items_state) (m : mobj) : items_state :=
  let nm := Str.strip (group 1 m) in
  let price := _parse_brazilian_number (group 2 m) in
  if negb (price_ok price) then st
  else if match search qty_suffix nm with Some _ => true | None => false end
       then st
  else if mem nm (snd st)
          || existsb (fun w => Str.contains w (Str.lower nm)) skip_words
       then st
  else append_item st (MkItem nm 1 (price_val price)).

Definition family1 (text : string) (st : items_state) : items_state :=
  fold_left step_qty (finditer pattern_produto text) st.
Definition family2 (text : string) (st : items_state) : items_state :=
  fold_left step_qty (finditer pattern_qty_x text) st.
Definition family3 (text : string) (st : items_state) : items_state :=
  fold_left step_price_only (finditer pattern_price_only text) st.

(** [_extract_items] *)
Definition _extract_items (text : string) : list Item :=
  fst (family3 text (family2 text (family1 text ([], [])))).

(** [TOTAL\s*:?\s*R?\$?\s*([\d.,]+)] with [re.IGNORECASE] *)
Definition total_re : regex :=
  seqs [ ilit "TOTAL"; star Str.is_space; opt (chr ":"); star Str.is_space;
         opt (is_nocase "R"); opt (chr "$"); star Str.is_space;
         Grp 1 (plus money) ].

(** [^Valor\s*:\s*R?\$?\s*([\d.,]+)] with [re.IGNORECASE | re.MULTILINE] *)
Definition valor_re : regex :=
  seqs [ Bol; ilit "Valor"; star Str.is_space; Chr (chr ":");
         star Str.is_space;
         opt (is_nocase "R"); opt (chr "$"); star Str.is_space;
         Grp 1 (plus money) ].


(** [_extract_total] *)
Definition _extract_total (text : string) : option Q :=
  match search total_re text with
  | Some m => _parse_brazilian_number (group 1 m)
  | None =>
      match search valor_re text with
      | Some m => _parse_brazilian_number (group 1 m)
      | None => None
      end
  end.

(** [sum(i["qty"] * i["unit_price"] for i in items)] *)
Definition items_sum (items : list Item) : Q :=
  fold_left (fun acc i => Num.add acc (Num.mul (Num.of_int (qty i)) (unit_price i)))
            items 0%Q.

Definition is_nil {A} (l : list A) : bool :=
  match l with [] => true | _ => false end.

(** [_extract_with_regex] *)
Definition _extract_with_regex (env : Env) (raw_text user_message : string)
  : Transaction :=
  let combined := (raw_text ++ String newline user_message)%string in
  let d := _parse_date env combined in
  let ty := _detect_type combined in
  let total := _extract_total raw_text in
  let items := _extract_items raw_text in
  let total :=
    match total with
    | None => if is_nil items then None else Some (items_sum items)
    | Some t => Some t
    end in
  let desc :=
    match ty with
    | Sale =>
        if is_nil items then "Venda"
        else ("Venda de " ++ Str.of_nat (List.length items) ++ " item(s)")%string
    | Expense =>
        let lines :=
          map Str.strip
            (filter (fun l => negb (Str.strip l =? "")%string)
                    (Str.splitlines raw_text)) in
        let vendor := match lines with v :: _ => v | [] => "Despesa" end in
        ("Compra em " ++ vendor)%string
    end in
  MkTx d
       (match total with
        | Some t => if Num.truthy t then t else 0%Q
        | None => 0%Q
        end)
       items ty desc raw_text.

(** [extract_fields]: the language model when it is configured, the
    patterns otherwise.  The model is given the two texts joined and
    stripped, which it also records as [raw_text]. *)
Definition extract_fields (env : Env) (raw_text user_message : string)
  : option Transaction :=
  let combined := Str.strip (raw_text ++ String newline user_message) in
  match llm env with
  | Some svc =>
      match llm_extract svc combined with
      | Some data =>
          Some (MkTx (tx_date data) (tx_total data) (tx_items data)
                     (tx_type_of data) (tx_description data) combined)
      | None => None
      end
  | None => Some (_extract_with_regex env raw_text user_message)
  end.

End Extractor.

(* ------------------------------------------------------------------ *)
(** * config.py *)

Module Config.

(** [CATEGORY_RULES]: keyword to category, in the order of the source,
    which is the order in which a [dict] is iterated. *)
Definition CATEGORY_RULES : list (string * string) :=
  [ ("venda", "sales"); ("vendas", "sales"); ("sold", "sales");
    ("sale", "sales"); ("receita", "sales"); ("revenue", "sales");
    ("pagamento recebido", "sales"); ("payment received", "sales");
    ("pix recebido", "sales");
    ("fornecedor", "supplies"); ("supplier", "supplies");
    ("material", "supplies"); ("matéria", "supplies");
    ("insumo", "supplies"); ("ingrediente", "supplies");
    ("estoque", "supplies"); ("stock", "supplies");
    ("aluguel", "rent"); ("rent", "rent");
    ("luz", "utilities"); ("energia", "utilities"); ("água", "utilities");
    ("water", "utilities"); ("electricity", "utilities");
    ("internet", "internet");
    ("telefone", "phone"); ("phone", "phone");
    ("transporte", "transport"); ("uber", "transport");
    ("gasolina", "transport"); ("gas", "transport"); ("fuel", "transport");
    ("combustível", "transport");
    ("almoço", "food"); ("lanche", "food"); ("comida", "food");
    ("restaurante", "food"); ("lunch", "food"); ("food", "food");
    ("manutenção", "maintenance"); ("conserto", "maintenance");
    ("repair", "maintenance");
    ("salário", "wages"); ("funcionário", "wages"); ("employee", "wages");
    ("salary", "wages"); ("wages", "wages") ].

Definition REVENUE_CATEGORIES : list string := [ "sales" ].

End Config.

(* ------------------------------------------------------------------ *)
(** * categorizer.py *)

Module Categorizer.

(** The text that the rules are searched in. *)
Definition searchable (tx : Transaction) : string :=
  Str.lower
    (Str.join " " [ tx_description tx; tx_raw_text tx;
                    Str.join " " (map name (tx_items tx)) ]).

(** The loop of [_match_rules] over a rule table. *)
Fixpoint match_rules_in (rules : list (string * string)) (text : string)
  : option string :=
  match rules with
  | [] => None
  | (keyword, category) :: rest =>
      if Str.contains keyword text then Some category
      else match_rules_in rest text
  end.

(** [_match_rules] *)
Definition _match_rules (text : string) : option string :=
  match_rules_in Config.CATEGORY_RULES text.

Definition valid_categories : list string :=
  [ "sales"; "supplies"; "rent"; "utilities"; "internet"; "phone";
    "transport"; "food"; "maintenance"; "wages"; "taxes"; "marketing";
    "equipment"; "other" ].

(** [_categorize_with_llm]: the service sees the first 500 characters;
    its reply is accepted when it is a category of the closed list.
    [None] when the call raises. *)
Definition _categorize_with_llm (svc : Llm) (text : string) : option string :=
  match llm_category svc (Str.take 500 text) with
  | Some content =>
      let category := Str.lower (Str.strip content) in
      Some (if mem category valid_categories then category else "other")
  | None => None
  end.

(** Truth value of [Optional[str]]: a string that is not empty. *)
Definition nonempty (o : option string) : bool :=
  match o with
  | Some s => negb (s =? "")%string
  | None => false
  end.

(** [categorize]; [None] when the language-model call raises. *)
Definition categorize (env : Env) (tx : Transaction) : option string :=
  match tx_type_of tx with
  | Sale => Some "sales"
  | Expense =>
      let text := searchable tx in
      let category := _match_rules text in
      if nonempty category then category
      else match llm env with
           | Some svc => _categorize_with_llm svc text
           | None => Some "other"
           end
  end.

End Categorizer.

(* ------------------------------------------------------------------ *)
(** * ledger.py *)

Module Ledger.

(** The ledger file: its decoded content, or [None] when there is no
    file. *)
Definition store : Type := option (list Entry).

(** [_load] and [_save] *)
Definition _load (f : store) : list Entry :=
  match f with
  | Some entries => entries
  | None => []
  end.

Definition _save (entries : list Entry) : store := Some entries.

(** [add_entry]: the new entry and the file after the call. *)
Definition add_entry (env : Env) (tx : Transaction) (category : string)
    (f : store) : Entry * store :=
  let entries := _load f in
  let entry :=
    MkEntry (uuid8 env) (now_iso env) (tx_date tx) (tx_total tx)
            (tx_type_of tx) category (tx_description tx) (tx_items tx) in
  (entry, _save (entries ++ [entry])).

(** Truth value of an optional bound: given and not empty. *)
Definition bound (o : option string) : option string :=
  match o with
  | Some s => if (s =? "")%string then None else Some s
  | None => None
  end.

(** [get_entries] *)
Definition get_entries (start_date end_date : option string) (f : store)
  : list Entry :=
  let entries := _load f in
  let entries :=
    match bound start_date with
    | Some s => filter (fun e => Str.geb (e_date e) s) entries
    | None => entries
    end in
  match bound end_date with
  | Some s => filter (fun e => Str.leb (e_date e) s) entries
  | None => entries
  end.

(** [get_week_entries]; [None] stands for the [ValueError] of a
    reference that is no ISO date and for the [OverflowError] of a date
    beyond the calendar. *)
Definition get_week_entries (env : Env) (reference_date : option string)
    (f : store) : option (list Entry) :=
  let ref :=
    match bound reference_date with
    | Some s => Date.fromisoformat s
    | None => Some (today env)
    end in
  match ref with
  | None => None
  | Some ref =>
      match Date.sub_days ref (Date.weekday ref) with
      | None => None
      | Some monday =>
          match Date.add_days monday 6 with
          | None => None
          | Some sunday =>
              Some (get_entries (Some (Date.isoformat monday))
                                (Some (Date.isoformat sunday)) f)
          end
      end
  end.

(** [clear_ledger] *)
Definition clear_ledger (f : store) : store := _save [].

(** [d[k] = d.get(k, 0.0) + v] on a [dict] kept in insertion order: a
    key that is present keeps its place. *)
Fixpoint dict_add (k : string) (v : Q) (d : list (string * Q))
  : list (string * Q) :=
  match d with
  | [] => [(k, Num.add 0%Q v)]
  | (k', v') :: t =>
      if (k' =? k)%string then (k', Num.add v' v) :: t
      else (k', v') :: dict_add k v t
  end.

(** [item["qty"] * item["unit_price"]] *)
Definition item_total (i : Item) : Q :=
  Num.mul (Num.of_int (qty i)) (unit_price i).

(** The inner loop of [summary_stats] over the items of one entry, and
    the [item_totals] of a list of entries. *)
Definition add_items (d : list (string * Q)) (items : list Item)
  : list (string * Q) :=
  fold_left (fun d i => dict_add (name i) (item_total i) d) items d.

Definition item_totals (entries : list Entry) : list (string * Q) :=
  fold_left (fun d e => add_items d (e_items e)) entries [].

(** [sorted(d.items(), key=lambda x: x[1], reverse=True)].  The sort of
    Python is stable, also with [reverse=True]: pairs of equal value keep
    the order they come in.  There is one such arrangement, computed here
    by insertion. *)
Fixpoint insert_desc (x : string * Q) (l : list (string * Q))
  : list (string * Q) :=
  match l with
  | [] => [x]
  | y :: t =>
      if Qle_bool (snd y) (snd x) then x :: l
      else y :: insert_desc x t
  end.

Definition sorted_desc (l : list (string * Q)) : list (string * Q) :=
  fold_right insert_desc [] l.

Record Stats := MkStats {
  total_sales : Q;
  total_expenses : Q;
  profit : Q;
  num_sales : nat;
  num_expenses : nat;
  by_category : list (string * Q);
  top_items : list (string * Q)
}.

Definition sum_of (ty : tx_type) (entries : list Entry) : Q :=
  fold_left (fun acc e =>
               if tx_type_eqb (e_type e) ty then Num.add acc (e_total e)
               else acc)
            entries 0%Q.

Definition count_of (ty : tx_type) (entries : list Entry) : nat :=
  List.length (filter (fun e => tx_type_eqb (e_type e) ty) entries).

(** [summary_stats] *)
Definition summary_stats (entries : list Entry) : Stats :=
  let sales := sum_of Sale entries in
  let expenses := sum_of Expense entries in
  MkStats sales expenses (Qred (sales - expenses))
          (count_of Sale entries) (count_of Expense entries)
          (fold_left (fun d e => dict_add (e_category e) (e_total e) d)
                     entries [])
          (firstn 5 (sorted_desc (item_totals entries))).

End Ledger.

(* ------------------------------------------------------------------ *)
(** * ledger.py: the loop of [summary_stats] in machine arithmetic

    [Ledger.summary_stats] adds and multiplies exactly.  The floats of
    Python round: their sums depend on the order of the terms, and two
    totals that are equal on paper may differ in the last place.  Below,
    the loop of [summary_stats] is written statement by statement with
    the three operations it uses left open: [add] is [+] on floats, [sub]
    is [-], and [times n x] is the product of the [int] [n] and the float
    [x].  The amounts are finite floats, each of them a rational number,
    and they are compared as such, which is how floats compare.  What
    holds for every choice of the operations holds for the floats as long
    as no sum or product leaves the finite range. *)

Module Tally.

Section Floats.

Variable add : Q -> Q -> Q.
Variable sub : Q -> Q -> Q.
Variable times : Z -> Q -> Q.

(** [d[k] = d.get(k, 0.0) + v] *)
Fixpoint dict_add (k : string) (v : Q) (d : list (string * Q))
  : list (string * Q) :=
  match d with
  | [] => [(k, add 0%Q v)]
  | (k', v') :: t =>
      if (k' =? k)%string then (k', add v' v) :: t
      else (k', v') :: dict_add k v t
  end.

(** The variables of the loop. *)
Record tally := MkTally {
  total_sales : Q;
  total_expenses : Q;
  num_sales : nat;
  num_expenses : nat;
  by_category : list (string * Q);
  item_totals : list (string * Q)
}.

(** Their values before the loop. *)
Definition start : tally := MkTally 0%Q 0%Q 0 0 [] [].

(** The body of the inner loop, for one item. *)
Definition visit_item (d : list (string * Q)) (item : Item)
  : list (string * Q) :=
  let item_total := times (qty item) (unit_price item) in
  dict_add (name item) item_total d.

(** The body of the outer loop, for one entry. *)
Definition visit (t : tally) (entry : Entry) : tally :=
  let amount := e_total entry in
  let by_category := dict_add (e_category entry) amount (by_category t) in
  let item_totals := fold_left visit_item (e_items entry) (item_totals t) in
  match e_type entry with
  | Sale =>
      MkTally (add (total_sales t) amount) (total_expenses t)
              (S (num_sales t)) (num_expenses t) by_category item_totals
  | Expense =>
      MkTally (total_sales t) (add (total_expenses t) amount)
              (num_sales t) (S (num_expenses t)) by_category item_totals
  end.

(** [summary_stats] *)
Definition summary_stats (entries : list Entry) : Ledger.Stats :=
  let t := fold_left visit entries start in
  let sorted_items := Ledger.sorted_desc (item_totals t) in
  Ledger.MkStats (total_sales t) (total_expenses t)
                 (sub (total_sales t) (total_expenses t))
                 (num_sales t) (num_expenses t)
                 (by_category t) (firstn 5 sorted_items).

End Floats.

(** The exact operations of [Ledger.summary_stats]. *)
Definition exact_sub (a b : Q) : Q := Qred (a - b).
Definition exact_times (n : Z) (x : Q) : Q := Num.mul (Num.of_int n) x.

End Tally.

(* ------------------------------------------------------------------ *)
(** * ocr.py *)

Module Ocr.

Definition nl : string := String Re.newline "".

(** [os.path.basename] *)
Fixpoint basename_aux (cur : string) (s : string) : string :=
  match s with
  | EmptyString => cur
  | String c t =>
      if Ascii.eqb c "/"%char then basename_aux EmptyString t
      else basename_aux (cur ++ String c EmptyString) t
  end.

Definition basename (path : string) : string := basename_aux EmptyString path.

Definition samples : list (string * string) :=
  [ ("receipt_sale_01.png",
     "RECIBO DE VENDA" ++ nl ++
     "Data: 20/01/2026" ++ nl ++
     "Cliente: Maria Silva" ++ nl ++
     "Produto: Bolo de chocolate  Qtd: 2  Valor: R$35,00" ++ nl ++
     "Produto: Brigadeiro (cento)  Qtd: 1  Valor: R$80,00" ++ nl ++
     "TOTAL: R$150,00" ++ nl ++
     "Pagamento: PIX");
    ("receipt_expense_01.png",
     "NOTA FISCAL" ++ nl ++
     "SUPERMERCADO BOA COMPRA" ++ nl ++
     "Data: 18/01/2026" ++ nl ++
     "Farinha de trigo 5kg    R$22,50" ++ nl ++
     "Chocolate em pó 1kg     R$18,90" ++ nl ++
     "Leite condensado 6un    R$35,40" ++ nl ++
     "Manteiga 500g           R$12,00" ++ nl ++
     "Ovos 30un               R$21,00" ++ nl ++
     "TOTAL: R$109,80" ++ nl ++
     "Forma Pgto: Débito");
    ("receipt_sale_02.png",
     "VENDA #0047" ++ nl ++
     "Data: 22/01/2026" ++ nl ++
     "Bolo de cenoura     1x  R$40,00" ++ nl ++
     "Torta de limão      1x  R$45,00" ++ nl ++
     "Salgados (cento)    2x  R$60,00" ++ nl ++
     "TOTAL: R$205,00" ++ nl ++
     "Pago em dinheiro");
    ("receipt_expense_02.png",
     "GÁS EXPRESS LTDA" ++ nl ++
     "NF 9921  Data: 19/01/2026" ++ nl ++
     "Botijão gás 13kg  2x  R$110,00" ++ nl ++
     "Entrega                R$10,00" ++ nl ++
     "TOTAL: R$120,00");
    ("receipt_expense_03.png",
     "RECIBO" ++ nl ++
     "Aluguel cozinha compartilhada" ++ nl ++
     "Mês: Janeiro/2026" ++ nl ++
     "Valor: R$800,00" ++ nl ++
     "Data: 05/01/2026") ]%string.

Fixpoint dict_get (k : string) (d : list (string * string)) : option string :=
  match d with
  | [] => None
  | (k', v) :: t => if (k' =? k)%string then Some v else dict_get k t
  end.

(** [_simulated_ocr] *)
Definition _simulated_ocr (image_path : string) : string :=
  let filename := Str.lower (basename image_path) in
  match dict_get filename samples with
  | Some text => text
  | None => ("[Simulated OCR — no sample for " ++ filename ++ "]")%string
  end.

(** [extract_text_from_image]; [None] stands for [FileNotFoundError] and
    for an error of the OCR engine. *)
Definition extract_text_from_image (env : Env) (image_path : string)
  : option string :=
  if negb (isfile env image_path) then None
  else match tesseract env with
       | Some engine => option_map Str.strip (engine image_path)
       | None => Some (_simulated_ocr image_path)
       end.

End Ocr.

(* ------------------------------------------------------------------ *)
(** * whatsapp_sim.py *)

Module WhatsappSim.

Import Re.

(** What a message handler answers.  The reply is a text rendered from
    the data shown here; its wording is not modelled. *)
Inductive reply :=
| Recorded (e : Entry)           (** [_confirmation_reply(entry)] *)
| Summary (entries : list Entry) (** [generate_weekly_summary(entries)] *)
| Cleared
| Help
| NotUnderstood.

(** [process_receipt]: the reply and the ledger file after the call;
    [None] when a step raises, with the ledger file as it then is. *)
Definition process_receipt (env : Env) (image_path user_message : string)
    (f : Ledger.store) : option reply * Ledger.store :=
  match Ocr.extract_text_from_image env image_path with
  | None => (None, f)
  | Some raw_text =>
      match Extractor.extract_fields env raw_text user_message with
      | None => (None, f)
      | Some transaction =>
          match Categorizer.categorize env transaction with
          | None => (None, f)
          | Some category =>
              let (entry, f') := Ledger.add_entry env transaction category f in
              (Some (Recorded entry), f')
          end
      end
  end.

Definition sale_verbs : list string := [ "venda"; "vendas"; "sale"; "receita" ].
Definition expense_verbs : list string :=
  [ "despesa"; "gasto"; "expense"; "compra" ].

(** [(venda|vendas|sale|receita|despesa|gasto|expense|compra)\s+]
    [R?\$?\s*([\d.,]+)\s*] and a third group, any run of [.], with
    [re.IGNORECASE] *)
Definition quick_re : regex :=
  seqs [ Grp 1 (alts (map ilit (sale_verbs ++ expense_verbs)));
         plus Str.is_space;
         opt (is_nocase "R"); opt (chr "$"); star Str.is_space;
         Grp 2 (plus money); star Str.is_space;
         Grp 3 (star any) ].

(** The part of [quick_re] that follows the verb. *)
Definition quick_tail : regex :=
  seqs [ plus Str.is_space;
         opt (is_nocase "R"); opt (chr "$"); star Str.is_space;
         Grp 2 (plus money); star Str.is_space;
         Grp 3 (star any) ].

(** The amount of a quick entry: [float] of the token with its dots
    removed and its commas turned into dots. *)
Definition quick_amount (token : string) : option Q :=
  Num.float_of_string (Str.replace "," "." (Str.replace "." "" token)).

(** [_parse_quick_entry] *)
Definition _parse_quick_entry (env : Env) (text : string)
  : option Transaction :=
  match re_match quick_re (Str.strip text) with
  | None => None
  | Some m =>
      let type_word := Str.lower (group 1 m) in
      let description :=
        match Str.strip (group 3 m) with
        | EmptyString => Str.capitalize type_word
        | d => d
        end in
      match quick_amount (group 2 m) with
      | None => None
      | Some amount =>
          let ty := if mem type_word sale_verbs then Sale else Expense in
          Some (MkTx (today_str env) amount [] ty description text)
      end
  end.

(** [process_text_message] *)
Definition process_text_message (env : Env) (user_message : string)
    (f : Ledger.store) : option reply * Ledger.store :=
  let msg_lower := Str.lower (Str.strip user_message) in
  if mem msg_lower [ "resumo"; "resumo semanal"; "summary"; "weekly" ]
  then (option_map Summary (Ledger.get_week_entries env None f), f)
  else if mem msg_lower [ "limpar"; "reset"; "clear" ]
  then (Some Cleared, Ledger.clear_ledger f)
  else if mem msg_lower [ "ajuda"; "help"; "?" ]
  then (Some Help, f)
  else
    match _parse_quick_entry env user_message with
    | Some quick =>
        match Categorizer.categorize env quick with
        | None => (None, f)
        | Some category =>
            let (entry, f') := Ledger.add_entry env quick category f in
            (Some (Recorded entry), f')
        end
    | None => (Some NotUnderstood, f)
    end.

End WhatsappSim.

(* ------------------------------------------------------------------ *)
(** * Notions used in the statements *)

Module Spec.






(** The invariant of the three loops: the names of the items are
    distinct, and [seen_lines] is the set of these names. *)
Definition inv (st : Extractor.items_state) : Prop :=
  NoDup (map name (fst st))
  /\ forall x, In x (snd st) <-> In x (map name (fst st)).

(** [st'] comes from [st] by appending items under names that [st] does
    not have; each of them satisfies [P]. *)
Definition grows (P : Item -> Prop) (st st' : Extractor.items_state)
  : Prop :=
  exists added,
    fst st' = fst st ++ added
    /\ Forall P added
    /\ forall i, In i added -> ~ In (name i) (map name (fst st)).

(** Each item of the first two families is read from a match: its name
    is the first group stripped, its quantity the second group, its
    price the third. *)
Definition from_qty_match (r : Re.regex) (text : string) (it : Item)
  : Prop :=
  exists m, In m (Re.finditer r text)
            /\ name it = Str.strip (Re.group 1 m)
            /\ qty it = Num.digits_value (Re.group 2 m)
            /\ Extractor._parse_brazilian_number (Re.group 3 m)
               = Some (unit_price it).

Definition from_price_match (text : string) (it : Item) : Prop :=
  exists m, In m (Re.finditer Extractor.pattern_price_only text)
            /\ name it = Str.strip (Re.group 1 m)
            /\ qty it = 1%Z
            /\ Extractor._parse_brazilian_number (Re.group 2 m)
               = Some (unit_price it).


(** The items of all the entries, in the order in which
    [summary_stats] visits them. *)
Definition all_items (entries : list Entry) : list Item :=
  flat_map e_items entries.

(** What the items named [n] come to: the quantity of each of them
    times its unit price, added up in the order of the items, starting
    from [0.0]; [add] and [times] are the sum of floats and the product
    of an [int] and a float. *)
Definition name_total (add : Q -> Q -> Q) (times : Z -> Q -> Q)
    (n : string) (items : list Item) : Q :=
  fold_left (fun acc i =>
               if (name i =? n)%string
               then add acc (times (qty i) (unit_price i)) else acc)
            items 0%Q.



(** The distinct elements of a list, in the order of their first
    appearance: the keys of a [dict] filled from the list. *)
Definition firsts (l : list string) : list string :=
  fold_left (fun acc n => if mem n acc then acc else acc ++ [n]) l [].

(** [a] comes before an occurrence of [b] in [l]. *)
Fixpoint before {A} (l : list A) (a b : A) : Prop :=
  match l with
  | [] => False
  | x :: t => (x = a /\ In b t) \/ before t a b
  end.

(** The row of the name [n] in the dictionary of item totals. *)
Definition row (add : Q -> Q -> Q) (times : Z -> Q -> Q)
    (items : list Item) (n : string) : string * Q :=
  (n, name_total add times n items).

(** The order that the sort of [summary_stats] puts a list of rows [l]
    in: a greater total first, and among equal totals the row that comes
    first in [l]. *)
Definition sorts_before (l : list (string * Q)) (x y : string * Q) : Prop :=
  (snd y < snd x)%Q \/ ((snd x == snd y)%Q /\ before l x y).

(** The entry carries the ISO text of a date of the calendar. *)
Definition iso_dated (e : Entry) : Prop :=
  exists d, Date.valid d = true /\ e_date e = Date.isoformat d.

(** The date of the entry lies between [lo] and [hi], both included. *)
Definition in_range (lo hi : Date.date) (e : Entry) : bool :=
  match Date.fromisoformat (e_date e) with
  | Some d =>
      (Date.toordinal lo <=? Date.toordinal d)%Z
      && (Date.toordinal d <=? Date.toordinal hi)%Z
  | None => false
  end.


(** A text of the ASCII range: every byte is below 128.  On such a
    text the white space, the digits and the letter cases of Python are
    those of [Str]. *)
Definition ascii_text (s : string) : Prop :=
  Re.all (fun c => (Str.code c <? 128)%nat) s = true.

(** White space, possibly none. *)
Definition blank (s : string) : Prop := Re.all Str.is_space s = true.

(** An optional [R] (of either case) and an optional [$]. *)
Definition currency_sign (s : string) : Prop :=
  exists r d, s = (r ++ d)%string
              /\ (r = "" \/ r = "R" \/ r = "r") /\ (d = "" \/ d = "$").

(** A monetary token: one or more digits, dots and commas. *)
Definition amount_token (s : string) : Prop :=
  s <> "" /\ Re.all Re.money s = true.





(** The keywords of the rule table that lead to the category
    ["sales"]. *)
Definition revenue_keywords : list string :=
  map fst (filter (fun rule => (snd rule =? "sales")%string)
                  Config.CATEGORY_RULES).

End Spec.

(* ------------------------------------------------------------------ *)
(** * Sample inputs *)

Module Sample.

(** An environment: Wednesday 4 November 2026, no image on disk, neither
    OCR engine nor language model. *)
Definition env : Env :=
  MkEnv (Date.Make 2026 11 4) "2026-11-04T09:30:00" "1a2b3c4d"
        (fun _ => false) None None.

(** The same with every path standing for a file on disk. *)
Definition disk_env : Env :=
  MkEnv (Date.Make 2026 11 4) "2026-11-04T09:30:00" "1a2b3c4d"
        (fun _ => true) None None.

(** A sales receipt without a total line. *)
Definition sale_without_total : string :=
  "RECIBO DE VENDA" ++ Ocr.nl ++
  "Produto: Bolo de chocolate  Qtd: 2  Valor: R$35,00" ++ Ocr.nl ++
  "Produto: Brigadeiro (cento)  Qtd: 1  Valor: R$80,00".


(** The receipt [receipt_expense_02.png] of the simulated OCR: its
    total line says 120, its two item lines come to 2 x 110 + 10. *)
Definition gas_receipt : string :=
  "GÁS EXPRESS LTDA" ++ Ocr.nl ++
  "NF 9921  Data: 19/01/2026" ++ Ocr.nl ++
  "Botijão gás 13kg  2x  R$110,00" ++ Ocr.nl ++
  "Entrega                R$10,00" ++ Ocr.nl ++
  "TOTAL: R$120,00".


(** A receipt of a pharmacy: "receita" is a prescription here. *)
Definition pharmacy_receipt : string :=
  "FARMACIA CENTRAL" ++ Ocr.nl ++ "Receita medica" ++ Ocr.nl
  ++ "TOTAL: R$30,00".

(** Three entries of one week: "bolo" is sold twice, on two days. *)
Definition week : list Entry :=
  [ MkEntry "00000001" "2026-11-02T08:00:00" "2026-11-02" 10 Sale "sales"
            "Venda de 2 item(s)"
            [ MkItem "bolo" 1 4; MkItem "pao" 4 5 ];
    MkEntry "00000002" "2026-11-03T08:00:00" "2026-11-03" 10 Sale "sales"
            "Venda de 1 item(s)"
            [ MkItem "cafe" 2 5 ];
    MkEntry "00000003" "2026-11-04T08:00:00" "2026-11-04" 6 Sale "sales"
            "Venda de 1 item(s)"
            [ MkItem "bolo" 2 3 ] ].

(** The floats nearest to 0.1, 0.2 and 0.3, and the float that
    [0.1 + 0.2] gives, one place above the last. *)
Definition tenth : Q := 3602879701896397 # 36028797018963968.
Definition two_tenths : Q := 3602879701896397 # 18014398509481984.
Definition three_tenths : Q := 5404319552844595 # 18014398509481984.
Definition tenth_plus_two : Q := 1351079888211149 # 4503599627370496.

(** A sum that is exact but for [0.1 + 0.2], which it rounds as the
    machine does. *)
Definition add_tenths (a b : Q) : Q :=
  if Qeq_bool a tenth && Qeq_bool b two_tenths then tenth_plus_two
  else Num.add a b.

(** "pao" at 0.3, then "bolo" at 0.1 and at 0.2. *)
Definition tenths : list Entry :=
  [ MkEntry "00000004" "2026-11-02T08:00:00" "2026-11-02" three_tenths
            Sale "sales" "Venda de 2 item(s)"
            [ MkItem "pao" 1 three_tenths; MkItem "bolo" 1 tenth ];
    MkEntry "00000005" "2026-11-03T08:00:00" "2026-11-03" two_tenths
            Sale "sales" "Venda de 1 item(s)"
            [ MkItem "bolo" 1 two_tenths ] ].

(** An entry dated on the last day of the calendar. *)
Definition last_day_entry : Entry :=
  MkEntry "0000000f" "9999-12-31T08:00:00" "9999-12-31" 10 Sale "sales"
          "Venda" [].

End Sample.

(* ------------------------------------------------------------------ *)
(** * summarizer.py *)

Module Summarizer.

(** The integer nearest to [q] and, halfway between two integers, the
    even one: the rounding that the formatting of a [float] applies to
    the exact value it holds. *)
Definition round_half_even (q : Q) : Z :=
  let f := Qfloor q in
  match (q - inject_Z f ?= 1 # 2)%Q with
  | Lt => f
  | Gt => (f + 1)%Z
  | Eq => if Z.even f then f else (f + 1)%Z
  end.

(** The hundredths of [abs(value)], rounded. *)
Definition cents (value : Q) : Z := round_half_even (Qabs value * 100)%Q.

(** The digits of a number with the separator [sep] before every group
    of three digits counted from the right. *)
Fixpoint group3 (sep : string) (digits : string) : string :=
  match digits with
  | EmptyString => EmptyString
  | String c t =>
      String c
        (if negb (String.length t =? 0)%nat
            && (String.length t mod 3 =? 0)%nat
         then sep ++ group3 sep t
         else group3 sep t)
  end.

(** The sign that the formatting prints. *)
Definition sign_of (value : Q) : string :=
  match (value ?= 0)%Q with
  | Lt => "-"
  | _ => ""
  end.

(** The format [,.2f]: sign, integer part in groups of three digits
    separated by commas, a dot, two decimals. *)
Definition format_grouped (value : Q) : string :=
  let c := cents value in
  sign_of value ++ group3 "," (Str.of_nat (Z.to_nat (c / 100)))
  ++ "." ++ Date.pad2 (c mod 100).

(** [_format_brl]: the commas and the dots change places by way of the
    letter X. *)
Definition _format_brl (value : Q) : string :=
  Str.replace "X" "."
    (Str.replace "." ","
       (Str.replace "," "X" ("R$" ++ format_grouped value))).

(** The first pair of greatest value, as [max(d, key=d.get)] finds it:
    a later pair takes the place of the best so far only when its value
    is greater. *)
Fixpoint max_from (best : string * Q) (l : list (string * Q))
  : string * Q :=
  match l with
  | [] => best
  | x :: t =>
      if Qle_bool (snd x) (snd best) then max_from best t
      else max_from x t
  end.

(** [expense_cats]: the categories that are no revenue. *)
Definition expense_cats (by_category : list (string * Q))
  : list (string * Q) :=
  filter (fun kv => negb (mem (fst kv) Config.REVENUE_CATEGORIES))
         by_category.

(** The category named by the advice on the greatest expense, with its
    amount. *)
Definition top_expense (by_category : list (string * Q))
  : option (string * Q) :=
  match expense_cats by_category with
  | [] => None
  | x :: t => Some (max_from x t)
  end.

Definition Qlt_bool (a b : Q) : bool := negb (Qle_bool b a).

Definition advice_cut : string :=
  "Suas despesas são muito maiores que suas vendas. "
  ++ "Revise os gastos com fornecedores e procure alternativas mais baratas.".

Definition advice_prices : string :=
  "Despesas próximas do valor de vendas. "
  ++ "Considere aumentar os preços em 10-15% ou reduzir custos de insumos.".

Definition advice_expense (category : string) (amount : Q) : string :=
  "Seu maior gasto é '" ++ category ++ "' (" ++ _format_brl amount ++ "). "
  ++ "Negocie com fornecedores ou busque alternativas para reduzir esse custo.".

Definition advice_item (item : string) (total : Q) : string :=
  "'" ++ item ++ "' é seu item mais movimentado "
  ++ "(" ++ _format_brl total ++ "). "
  ++ "Considere aumentar o preço em R$1-2 — pequenos ajustes somam no fim do mês.".

Definition advice_generic : string :=
  "Continue registrando todas as transações para insights mais precisos!".

(** What follows the first test of [_generate_action]. *)
Definition action_otherwise (stats : Ledger.Stats) : string :=
  match (if Qlt_bool 0 (Ledger.profit stats)
         then top_expense (Ledger.by_category stats) else None) with
  | Some (category, amount) => advice_expense category amount
  | None =>
      match Ledger.top_items stats with
      | (item, total) :: _ => advice_item item total
      | [] => advice_generic
      end
  end.

(** [_generate_action] *)
Definition _generate_action (stats : Ledger.Stats) : string :=
  if Qlt_bool (Ledger.total_sales stats) (Ledger.total_expenses stats)
     && Qlt_bool 0 (Ledger.total_sales stats)
  then
    let ratio := (Ledger.total_expenses stats / Ledger.total_sales stats)%Q in
    if Qlt_bool (3 # 2) ratio then advice_cut else advice_prices
  else action_otherwise stats.

(** The line that says whether the period closed with a profit. *)
Definition status (stats : Ledger.Stats) : string :=
  if Qlt_bool 0 (Ledger.profit stats) then "✅ Lucro"
  else if Qlt_bool (Ledger.profit stats) 0 then "⚠️ Prejuízo"
  else "➖ Empate".

(** The lines of the breakdown by category, greatest amount first. *)
Definition category_lines (stats : Ledger.Stats) : list string :=
  match Ledger.by_category stats with
  | [] => []
  | _ =>
      [ "📂 *Por categoria:*" ]
      ++ map (fun kv =>
                ("  • " ++ fst kv ++ ": " ++ _format_brl (snd kv))%string)
             (Ledger.sorted_desc (Ledger.by_category stats))
      ++ [ "" ]
  end.

(** [_summarize_with_template] *)
Definition _summarize_with_template (stats : Ledger.Stats) (label : string)
  : string :=
  let sales := _format_brl (Ledger.total_sales stats) in
  let expenses := _format_brl (Ledger.total_expenses stats) in
  let profit := _format_brl (Ledger.profit stats) in
  Str.join Ocr.nl
    ([ ("📊 *Resumo " ++ label ++ "*" ++ Ocr.nl)%string;
       ("💰 Vendas: " ++ sales ++ " (" ++ Str.of_nat (Ledger.num_sales stats)
        ++ " transação(ões))")%string;
       ("💸 Despesas: " ++ expenses ++ " ("
        ++ Str.of_nat (Ledger.num_expenses stats)
        ++ " transação(ões))")%string;
       (status stats ++ ": " ++ profit ++ Ocr.nl)%string ]
     ++ category_lines stats
     ++ [ ("💡 *Ação:* " ++ _generate_action stats)%string ]).

Definition no_entries_message (label : string) : string :=
  "📊 *Resumo " ++ label ++ "*" ++ Ocr.nl ++ Ocr.nl
  ++ "Nenhuma transação registrada neste período." ++ Ocr.nl
  ++ "Envie fotos de recibos ou mensagens para começar!".

(** [generate_weekly_summary].  [writer] is the language model asked for
    the summary, when one is configured; its call may raise, which is a
    [None]. *)
Definition generate_weekly_summary
    (writer : option (list Entry -> Ledger.Stats -> string -> option string))
    (entries : list Entry) (label : string) : option string :=
  match entries with
  | [] => Some (no_entries_message label)
  | _ =>
      let stats := Ledger.summary_stats entries in
      match writer with
      | Some write => write entries stats label
      | None => Some (_summarize_with_template stats label)
      end
  end.

End Summarizer.

(* ------------------------------------------------------------------ *)
(** * whatsapp_sim.py: the texts of the replies *)

Module Replies.

Import WhatsappSim.

(** The double quote. *)
Definition dq : string := String (ascii_of_nat 34) EmptyString.

(** [_confirmation_reply] *)
Definition _confirmation_reply (entry : Entry) : string :=
  let emoji := match e_type entry with Sale => "💰" | Expense => "💸" end in
  let type_label :=
    match e_type entry with Sale => "Venda" | Expense => "Despesa" end in
  Str.join Ocr.nl
    ([ (emoji ++ " *" ++ type_label ++ " registrada!*")%string;
       ("📅 Data: " ++ e_date entry)%string;
       ("💵 Valor: " ++ Summarizer._format_brl (e_total entry))%string;
       ("📂 Categoria: " ++ e_category entry)%string ]
     ++ match e_items entry with
        | [] => []
        | _ =>
            [ ("📝 Itens: "
               ++ Str.of_nat (List.length (e_items entry)))%string ]
        end
     ++ [ (Ocr.nl ++ "_ID: " ++ e_id entry ++ "_")%string ]).

(** [_help_message] *)
Definition _help_message : string :=
  "📖 *WhatsApp Bookkeeper — Ajuda*" ++ Ocr.nl ++ Ocr.nl
  ++ "📷 *Foto de recibo* → Registro automático" ++ Ocr.nl
  ++ "💬 *Texto rápido:*" ++ Ocr.nl
  ++ "  • " ++ dq ++ "venda 150" ++ dq ++ " → registra venda de R$150" ++ Ocr.nl
  ++ "  • " ++ dq ++ "despesa 80 fornecedor" ++ dq ++ " → registra despesa"
  ++ Ocr.nl
  ++ "  • " ++ dq ++ "gasto 50 transporte" ++ dq ++ " → registra despesa"
  ++ Ocr.nl ++ Ocr.nl
  ++ "📊 *Comandos:*" ++ Ocr.nl
  ++ "  • " ++ dq ++ "resumo" ++ dq ++ " → resumo semanal" ++ Ocr.nl
  ++ "  • " ++ dq ++ "limpar" ++ dq ++ " → apaga todas as transações" ++ Ocr.nl
  ++ "  • " ++ dq ++ "ajuda" ++ dq ++ " → esta mensagem".

Definition cleared_message : string :=
  "🗑️ Livro-caixa limpo. Todas as transações foram removidas.".

Definition not_understood_message : string :=
  "🤔 Não entendi. Envie:" ++ Ocr.nl
  ++ "• 📷 Foto de recibo" ++ Ocr.nl
  ++ "• " ++ dq ++ "venda 150" ++ dq ++ " ou " ++ dq ++ "despesa 50" ++ dq
  ++ Ocr.nl
  ++ "• " ++ dq ++ "resumo" ++ dq ++ " para ver o resumo semanal" ++ Ocr.nl
  ++ "• " ++ dq ++ "ajuda" ++ dq ++ " para mais opções".

(** The text that [process_receipt] and [process_text_message] return
    for each kind of reply. *)
Definition render
    (writer : option (list Entry -> Ledger.Stats -> string -> option string))
    (r : reply) : option string :=
  match r with
  | Recorded e => Some (_confirmation_reply e)
  | Summary entries =>
      Summarizer.generate_weekly_summary writer entries "Semanal"
  | Cleared => Some cleared_message
  | Help => Some _help_message
  | NotUnderstood => Some not_understood_message
  end.

End Replies.

(* ------------------------------------------------------------------ *)
(** * demo.py *)

Module Demo.

Import WhatsappSim.

(** Whether a path ends with a slash. *)
Fixpoint ends_slash (s : string) : bool :=
  match s with
  | EmptyString => false
  | String c EmptyString => Ascii.eqb c "/"
  | String _ t => ends_slash t
  end.

(** [os.path.join(a, b)] for a relative [b]. *)
Definition path_join (a b : string) : string :=
  if (a =? "")%string then b
  else if ends_slash a then a ++ b
  else a ++ "/" ++ b.

(** [SAMPLE_DIR], where [here] is the directory of the module. *)
Definition SAMPLE_DIR (here : string) : string :=
  path_join here "sample_receipts".

(** One step of the script: a handler that raises ends the run. *)
Definition and_then (r : option reply * Ledger.store)
    (k : reply -> Ledger.store -> option (list reply) * Ledger.store)
  : option (list reply) * Ledger.store :=
  match r with
  | (Some x, f) => k x f
  | (None, f) => (None, f)
  end.

(** [run_demo]: the replies that the script prints, when no call
    raises, and the ledger file that it leaves.  [envs n] is the
    environment at the time of the [n]-th call of a handler. *)
Definition run_demo (envs : nat -> Env) (here : string) (f : Ledger.store)
  : option (list reply) * Ledger.store :=
  let dir := SAMPLE_DIR here in
  let f0 := Ledger.clear_ledger f in
  and_then (process_receipt (envs 1) (path_join dir "receipt_expense_03.png")
              "paguei o aluguel da cozinha" f0) (fun a1 f1 =>
  and_then (process_receipt (envs 2) (path_join dir "receipt_expense_01.png")
              "comprei ingredientes no supermercado" f1) (fun a2 f2 =>
  and_then (process_receipt (envs 3) (path_join dir "receipt_expense_02.png")
              "" f2) (fun a3 f3 =>
  and_then (process_receipt (envs 4) (path_join dir "receipt_sale_01.png")
              "venda da Maria" f3) (fun a4 f4 =>
  and_then (process_receipt (envs 5) (path_join dir "receipt_sale_02.png")
              "" f4) (fun a5 f5 =>
  and_then (process_text_message (envs 6)
              "venda 85 encomenda de brigadeiro" f5) (fun a6 f6 =>
  and_then (process_text_message (envs 7) "gasto 35 uber entrega" f6)
    (fun a7 f7 =>
  and_then (process_text_message (envs 8) "resumo" f7) (fun a8 f8 =>
  and_then (process_text_message (envs 9) "ajuda" f8) (fun a9 f9 =>
  (Some [a1; a2; a3; a4; a5; a6; a7; a8; a9], f9)))))))))).

End Demo.

(* ------------------------------------------------------------------ *)
(** * Further notions used in the statements *)

Module Notions.

(** The characters of [s] that satisfy [p], in their order. *)
Fixpoint keep (p : ascii -> bool) (s : string) : string :=
  match s with
  | EmptyString => EmptyString
  | String c t => if p c then String c (keep p t) else keep p t
  end.

(** How many times the character [a] occurs in [s]. *)
Fixpoint count (a : ascii) (s : string) : nat :=
  match s with
  | EmptyString => 0
  | String c t => (if Ascii.eqb c a then 1 else 0) + count a t
  end.

(** What follows the first occurrence of [a] in [s]; nothing when [a]
    does not occur. *)
Fixpoint after (a : ascii) (s : string) : string :=
  match s with
  | EmptyString => EmptyString
  | String c t => if Ascii.eqb c a then t else after a t
  end.

(** The digits of a monetary token. *)
Definition digits_of (token : string) : string := keep Str.is_digit token.

(** The number that a monetary token written the Brazilian way stands
    for: dots only group the digits, the comma is the decimal mark.  A
    token with two commas or without a digit stands for no number. *)
Definition brazilian_value (token : string) : option Q :=
  if (count "," token <=? 1)%nat && negb (digits_of token =? "")%string
  then Some (Num.decimal (Num.digits_value (digits_of token))
                         (String.length (digits_of (after "," token))))
  else None.

(** The text that [_parse_brazilian_number] and [_parse_quick_entry]
    hand to [float]: dots removed, commas turned into dots. *)
Definition dotted (t : string) : string :=
  Str.replace "," "." (Str.replace "." "" t).


(** Commas and dots changing places by way of the letter X, as
    [_format_brl] does it. *)
Definition swapped (s : string) : string :=
  Str.replace "X" "." (Str.replace "." "," (Str.replace "," "X" s)).

(** The text of an amount in Brazilian Real: the sign, the integer part
    in groups of three digits separated by dots, a comma, and the two
    digits of the hundredths. *)
Definition brl_text (value : Q) : string :=
  let c := Summarizer.cents value in
  "R$" ++ Summarizer.sign_of value
  ++ Summarizer.group3 "." (Str.of_nat (Z.to_nat (c / 100)))
  ++ "," ++ Date.pad2 (c mod 100).

(** The entries of one type, in the order of the ledger, and the totals
    of a list of entries added up in its order, from [0.0], by the sum
    [add] of floats. *)
Definition of_type (ty : tx_type) (entries : list Entry) : list Entry :=
  filter (fun e => tx_type_eqb (e_type e) ty) entries.

Definition total_of (add : Q -> Q -> Q) (entries : list Entry) : Q :=
  fold_left (fun acc e => add acc (e_total e)) entries 0%Q.

(** A transaction whose description, receipt text and item names are
    of the ASCII range. *)
Definition ascii_tx (tx : Transaction) : Prop :=
  Spec.ascii_text (tx_description tx)
  /\ Spec.ascii_text (tx_raw_text tx)
  /\ Forall (fun i => Spec.ascii_text (name i)) (tx_items tx).

(** What the entries of the category [c] come to: their totals added up
    in the order of the entries, starting from [0.0]. *)
Definition category_total (c : string) (entries : list Entry) : Q :=
  fold_left (fun acc e =>
               if (e_category e =? c)%string
               then Num.add acc (e_total e) else acc)
            entries 0%Q.

(** The first line of a text: what comes before its first newline. *)
Fixpoint first_line (s : string) : string :=
  match s with
  | EmptyString => EmptyString
  | String c t =>
      if Ascii.eqb c Re.newline then EmptyString
      else String c (first_line t)
  end.

(** A text without white space. *)
Definition solid (w : string) : Prop :=
  Re.all (fun c => negb (Str.is_space c)) w = true.

(** The verbs of a quick entry. *)
Definition quick_verbs : list string :=
  WhatsappSim.sale_verbs ++ WhatsappSim.expense_verbs.

(** The description of a quick entry: what follows the amount on its
    line, stripped, or else the verb with a capital. *)
Definition quick_description (verb tail : string) : string :=
  match Str.strip (first_line (Str.lstrip tail)) with
  | EmptyString => Str.capitalize verb
  | d => d
  end.

(** The environments of a run of the demonstration: the sample images
    are on disk, no OCR engine is installed and no language model is
    configured. *)
Definition demo_ready (envs : nat -> Env) (here : string) : Prop :=
  forall n,
    tesseract (envs n) = None /\ llm (envs n) = None
    /\ forall file, In file (map fst Ocr.samples) ->
         isfile (envs n) (Demo.path_join (Demo.SAMPLE_DIR here) file) = true.

(** The category of a transaction when no language model is
    configured. *)
Definition rule_category (tx : Transaction) : string :=
  match tx_type_of tx with
  | Sale => "sales"
  | Expense =>
      match Categorizer._match_rules (Categorizer.searchable tx) with
      | Some c => if (c =? "")%string then "other" else c
      | None => "other"
      end
  end.

(** The entry that [add_entry] makes of a transaction in that case. *)
Definition entry_of (env : Env) (tx : Transaction) : Entry :=
  MkEntry (uuid8 env) (now_iso env) (tx_date tx) (tx_total tx)
          (tx_type_of tx) (rule_category tx) (tx_description tx)
          (tx_items tx).

(** What the demonstration is about in an entry: type, category,
    total. *)
Definition gist (e : Entry) : tx_type * string * Q :=
  (e_type e, e_category e, e_total e).

(** The ordinal of the Monday of the week of [d]. *)
Definition monday_ordinal (d : Date.date) : Z :=
  (Date.toordinal d - Date.weekday d)%Z.

(** The week of [d] ends within the calendar. *)
Definition week_in_calendar (d : Date.date) : Prop :=
  (monday_ordinal d + 6 <= Date.max_ordinal)%Z.

(** The sale keywords of [_detect_type] that are not made redundant by
    a shorter one. *)
Definition core_sale_keywords : list string :=
  [ "venda"; "sold"; "sale"; "pagamento recebido"; "pix recebido" ].

(** The keywords of the rule table. *)
Definition rule_keywords : list string := map fst Config.CATEGORY_RULES.

(** Two transactions that differ in the case of their letters at most:
    same type, and the same description, receipt text and item names
    once put in lower case. *)
Definition same_modulo_case (a b : Transaction) : Prop :=
  tx_type_of a = tx_type_of b
  /\ Str.lower (tx_description a) = Str.lower (tx_description b)
  /\ Str.lower (tx_raw_text a) = Str.lower (tx_raw_text b)
  /\ map (fun i => Str.lower (name i)) (tx_items a)
     = map (fun i => Str.lower (name i)) (tx_items b).

End Notions.

(* ================================================================== *)
(** * Properties *)

(* ------------------------------------------------------------------ *)
(** ** Strings *)

Module StrFacts.

Lemma append_nil_r (s : string) : (s ++ "")%string = s.
Proof. induction s; simpl; congruence. Qed.

Lemma append_assoc (a b c : string) :
  ((a ++ b) ++ c)%string = (a ++ (b ++ c))%string.
Proof. induction a; simpl; congruence. Qed.

Lemma length_append (a b : string) :
  String.length (a ++ b) = String.length a + String.length b.
Proof. induction a; simpl; congruence. Qed.

Lemma take_append (w s : string) :
  Str.take (String.length (w ++ s) - String.length s) (w ++ s) = w.
Proof.
  rewrite length_append.
  replace (String.length w + String.length s - String.length s)
    with (String.length w) by lia.
  induction w; simpl.
  - destruct s; reflexivity.
  - now rewrite IHw.
Qed.




End StrFacts.

(* ------------------------------------------------------------------ *)
(** ** The matcher against the reading of patterns *)

Module ReFacts.

Import Re StrFacts.

Section Rep.

Context {R : Type}.
Implicit Types (k : cursor -> option R).




End Rep.

Section Matcher.

Context {R : Type}.
Implicit Types (k : cursor -> caps -> option R).




End Matcher.











Lemma consumed_reads c c' w :
  rest c = (w ++ rest c')%string -> consumed c c' = w.
Proof. unfold consumed. intros ->. apply take_append. Qed.



Lemma steps_eol_inv ml c cs c' cs' :
  steps (Eol ml) c cs c' cs' -> at_eol ml c = true /\ c' = c /\ cs' = cs.
Proof. inversion 1; subst; auto. Qed.

(** ** Evaluation of the matcher on texts that are partly known *)

Lemma rep_stop {R} g p (k : cursor -> option R) hi pv s :
  stops p s -> rep g p k 0 hi pv s = k (Cursor pv s).
Proof.
  destruct s as [|a t]; simpl; [reflexivity|]. intros ->. reflexivity.
Qed.

(** A greedy repetition whose longest run is accepted by what follows
    takes that run. *)
Lemma rep_greedy_all {R} p (k : cursor -> option R) : forall w s lo pv x,
  all p w = true -> stops p s -> lo <= String.length w ->
  k (Cursor (last_char pv w) s) = Some x ->
  rep true p k lo None pv (w ++ s) = Some x.
Proof.
  induction w as [|a w IH]; intros s lo pv x Hall Hs Hlo Hk; simpl in *.
  - assert (lo = 0) by lia. subst. rewrite rep_stop; assumption.
  - apply andb_prop in Hall as [Ha Hall]. rewrite Ha. simpl.
    rewrite (IH s (pred lo) (Some a) x); auto. lia.
Qed.

Lemma rmatch_ilit {R} (k : cursor -> caps -> option R) : forall v w s pv cs,
  String.length w = String.length v -> Str.lower w = Str.lower v ->
  rmatch (ilit v) k (Cursor pv (w ++ s)) cs
  = k (Cursor (last_char pv w) s) cs.
Proof.
  induction v as [|a v IH]; intros [|b w] s pv cs Hlen Hlow;
    try discriminate; [reflexivity|].
  simpl in Hlen, Hlow. injection Hlen as Hlen. injection Hlow as Hb Hlow.
  assert (Hab : is_nocase a b = true).
  { unfold is_nocase. rewrite Hb. apply Ascii.eqb_refl. }
  destruct v as [|a' v].
  - destruct w; [|discriminate]. simpl. now rewrite Hab.
  - change (ilit (String a (String a' v)))
      with (Seq (Chr (is_nocase a)) (ilit (String a' v))).
    simpl rmatch at 1. simpl rest. rewrite Hab.
    apply (IH w s (Some b) cs Hlen Hlow).
Qed.








End ReFacts.

(* ------------------------------------------------------------------ *)
(** ** extractor.py: the date *)

Module DateFacts.

Import Re ReFacts StrFacts Spec Extractor.















End DateFacts.

(* ------------------------------------------------------------------ *)
(** ** categorizer.py *)

Module CategorizerFacts.

Import Categorizer Spec.

Lemma match_rules_in_app a b text :
  match_rules_in (a ++ b) text =
  match match_rules_in a text with
  | Some c => Some c
  | None => match_rules_in b text
  end.
Proof.
  induction a as [|[kw c] a IH]; simpl; [reflexivity|].
  destruct (Str.contains kw text); auto.
Qed.

(** A table whose rules all lead to one category answers that category
    exactly when one of its keywords occurs. *)
Lemma match_rules_in_uniform cat rules text :
  Forall (fun rule => snd rule = cat) rules ->
  (match_rules_in rules text = Some cat
   <-> exists kw, In kw (map fst rules) /\ Str.contains kw text = true)
  /\ (match_rules_in rules text = Some cat
      \/ match_rules_in rules text = None).
Proof.
  induction 1 as [|[kw c] rules Hc _ [IH1 IH2]]; simpl.
  - split; [|auto]. split; [discriminate | intros (? & [] & _)].
  - simpl in Hc. subst c. destruct (Str.contains kw text) eqn:E.
    + split; [|auto]. split; [eauto|reflexivity].
    + split; [|assumption]. rewrite IH1. split.
      * intros (k & Hin & Hk). eauto.
      * intros (k & [<-|Hin] & Hk); [congruence | eauto].
Qed.

(** A table none of whose rules leads to a category never answers it. *)
Lemma match_rules_in_never cat rules text :
  Forall (fun rule => snd rule <> cat) rules ->
  match_rules_in rules text <> Some cat.
Proof.
  induction 1 as [|[kw c] rules Hc _ IH]; simpl; [discriminate|].
  destruct (Str.contains kw text); [simpl in Hc; congruence | assumption].
Qed.

Lemma rules_split :
  Config.CATEGORY_RULES
  = firstn 9 Config.CATEGORY_RULES ++ skipn 9 Config.CATEGORY_RULES.
Proof. reflexivity. Qed.

Lemma revenue_rules_first :
  Forall (fun rule => snd rule = "sales") (firstn 9 Config.CATEGORY_RULES)
  /\ Forall (fun rule => snd rule <> "sales") (skipn 9 Config.CATEGORY_RULES)
  /\ map fst (firstn 9 Config.CATEGORY_RULES) = revenue_keywords.
Proof.
  split; [|split].
  - simpl. repeat constructor.
  - simpl. repeat (constructor; [simpl; discriminate|]). constructor.
  - reflexivity.
Qed.

(** The rules answer ["sales"] exactly for the texts in which a revenue
    keyword occurs. *)
Lemma match_rules_sales_iff (text : string) :
  _match_rules text = Some "sales"
  <-> exists kw, In kw revenue_keywords /\ Str.contains kw text = true.
Proof.
  destruct revenue_rules_first as (Hrev & Hother & Hkw).
  unfold _match_rules. rewrite rules_split, match_rules_in_app.
  destruct (match_rules_in_uniform "sales" _ text Hrev) as [Hiff Hcases].
  rewrite Hkw in Hiff. rewrite <- Hiff.
  destruct Hcases as [E|E]; rewrite E.
  - tauto.
  - split; [|discriminate].
    intros H. exfalso. eapply match_rules_in_never; eassumption.
Qed.

(** Every category of the rule table is a non-empty string. *)
Lemma match_rules_nonempty (text : string) (c : string) :
  _match_rules text = Some c -> nonempty (Some c) = true.
Proof.
  unfold _match_rules.
  assert (H : Forall (fun rule => nonempty (Some (snd rule)) = true)
                     Config.CATEGORY_RULES)
    by (simpl; repeat constructor).
  induction H as [|[kw c'] rules Hc _ IH]; simpl; [discriminate|].
  destruct (Str.contains kw text); [|assumption].
  intros [= <-]. exact Hc.
Qed.

(** C1 (as amended): for a transaction of type Expense, and without a
    language model, the category is ["sales"] exactly when one of the
    nine revenue keywords of the rule table occurs in the searchable
    text; an expense whose text has none of them is never put under
    ["sales"]. *)
Theorem categorize_expense_sales_iff (env : Env) (tx : Transaction) :
  tx_type_of tx = Expense -> llm env = None ->
  (categorize env tx = Some "sales"
   <-> exists kw, In kw revenue_keywords
                  /\ Str.contains kw (searchable tx) = true).
Proof.
  intros Hty Hllm. unfold categorize. rewrite Hty, Hllm.
  rewrite <- match_rules_sales_iff.
  destruct (_match_rules (searchable tx)) as [c|] eqn:E.
  - rewrite (match_rules_nonempty _ _ E). tauto.
  - simpl. split; discriminate.
Qed.

(** C1 (as stated) fails: the quick entry and the receipt below are
    expenses, and the rules put both under ["sales"]. *)
Lemma expense_categorized_as_sales :
  (exists tx,
     WhatsappSim._parse_quick_entry Sample.env "despesa 50 taxa de venda"
       = Some tx
     /\ tx_type_of tx = Expense
     /\ _match_rules (searchable tx) = Some "sales"
     /\ categorize Sample.env tx = Some "sales")
  /\
  (let tx := Extractor._extract_with_regex Sample.env
               Sample.pharmacy_receipt "" in
   tx_type_of tx = Expense
   /\ _match_rules (searchable tx) = Some "sales"
   /\ categorize Sample.env tx = Some "sales").
Proof.
  split.
  - eexists. split; [reflexivity|]. repeat split; reflexivity.
  - repeat split; reflexivity.
Qed.

Lemma categorize_expense_sales_iff_witness :
  let tx := MkTx "2026-11-04" 50 [] Expense "taxa de venda"
                 "despesa 50 taxa de venda" in
  categorize Sample.env tx = Some "sales"
  <-> exists kw, In kw revenue_keywords
                 /\ Str.contains kw (searchable tx) = true.
Proof.
  intros tx.
  apply (categorize_expense_sales_iff Sample.env tx); reflexivity.
Defined.

(** C9: the quick entry ["gasto 50"] is an expense described as
    ["Gasto"], no rule before [("gas", "transport")] finds its keyword in
    the text searched, and the keyword ["gas"] occurs in the verb itself:
    the category is ["transport"], whatever the environment. *)
Theorem gasto_is_transport (env : Env) :
  exists tx,
    WhatsappSim._parse_quick_entry env "gasto 50" = Some tx
    /\ tx_type_of tx = Expense
    /\ tx_description tx = "Gasto"
    /\ searchable tx = "gasto gasto 50 "
    /\ Config.CATEGORY_RULES
       = firstn 30 Config.CATEGORY_RULES
         ++ ("gas", "transport") :: skipn 31 Config.CATEGORY_RULES
    /\ match_rules_in (firstn 30 Config.CATEGORY_RULES) (searchable tx) = None
    /\ Str.contains "gas" "gasto" = true
    /\ _match_rules (searchable tx) = Some "transport"
    /\ categorize env tx = Some "transport".
Proof.
  eexists. split; [reflexivity|]. repeat split; reflexivity.
Qed.

End CategorizerFacts.

(* ------------------------------------------------------------------ *)
(** ** Numbers *)

Module NumFacts.

Import StrFacts.

Lemma digit_not (o c : ascii) :
  Str.is_digit o = false -> Str.is_digit c = true -> Ascii.eqb o c = false.
Proof.
  intros Ho Hc. destruct (Ascii.eqb o c) eqn:E; [|reflexivity].
  apply Ascii.eqb_eq in E. congruence.
Qed.

(** Replacing a character that is no digit leaves a run of digits as it
    is. *)
Lemma replace_digits (o : ascii) (new : string) : forall a s,
  Str.is_digit o = false -> Num.all_digits a = true ->
  Str.replace (String o "") new (a ++ s)
  = (a ++ Str.replace (String o "") new s)%string.
Proof.
  intros a s Ho. unfold Str.replace.
  induction a as [|c a IH]; simpl; intros Ha; [reflexivity|].
  apply andb_prop in Ha as [Hc Ha].
  rewrite (digit_not _ _ Ho Hc). simpl. now rewrite IH.
Qed.

Lemma replace_digits_only (o : ascii) (new a : string) :
  Str.is_digit o = false -> Num.all_digits a = true ->
  Str.replace (String o "") new a = a.
Proof.
  intros Ho Ha. rewrite <- (append_nil_r a) at 1.
  rewrite replace_digits by assumption. apply append_nil_r.
Qed.

Lemma all_digits_app (a b : string) :
  Num.all_digits (a ++ b) = Num.all_digits a && Num.all_digits b.
Proof.
  induction a; simpl; [reflexivity|]. now rewrite IHa, andb_assoc.
Qed.

Lemma split_dot_digits : forall a,
  Num.all_digits a = true -> Num.split_dot a = (a, None).
Proof.
  induction a as [|c a IH]; simpl; intros Ha; [reflexivity|].
  apply andb_prop in Ha as [Hc Ha].
  destruct (Ascii.eqb c ".") eqn:E.
  - apply Ascii.eqb_eq in E. subst c. discriminate.
  - now rewrite IH.
Qed.

Lemma split_dot_at : forall a b,
  Num.all_digits a = true -> Num.split_dot (a ++ "." ++ b) = (a, Some b).
Proof.
  induction a as [|c a IH]; simpl; intros b Ha; [reflexivity|].
  apply andb_prop in Ha as [Hc Ha].
  destruct (Ascii.eqb c ".") eqn:E.
  - apply Ascii.eqb_eq in E. subst c. discriminate.
  - simpl in IH. now rewrite IH.
Qed.

Lemma length_zero (s : string) :
  (String.length s =? 0)%nat = true <-> s = "".
Proof. destruct s; simpl; split; intros; congruence. Qed.

(** [float] of digits, and of digits with one dot. *)
Lemma float_digits (a : string) :
  Num.all_digits a = true -> a <> "" ->
  Num.float_of_string a = Some (Num.decimal (Num.digits_value a) 0).
Proof.
  intros Ha Hne. unfold Num.float_of_string.
  rewrite (split_dot_digits _ Ha), Ha.
  destruct (String.length a =? 0)%nat eqn:E; [|reflexivity].
  apply length_zero in E. contradiction.
Qed.

Lemma float_dotted (a b : string) :
  Num.all_digits a = true -> Num.all_digits b = true ->
  (a ++ b)%string <> "" ->
  Num.float_of_string (a ++ "." ++ b)
  = Some (Num.decimal (Num.digits_value (a ++ b)) (String.length b)).
Proof.
  intros Ha Hb Hne. unfold Num.float_of_string.
  rewrite (split_dot_at _ b Ha), Ha, Hb. simpl.
  rewrite <- length_append.
  destruct (String.length (a ++ b) =? 0)%nat eqn:E; [|reflexivity].
  apply length_zero in E. contradiction.
Qed.

(** [n / 10^k] times [10^k] is [n]. *)
Lemma decimal_scaled (n : Z) (k : nat) :
  (Num.decimal n 0 == Num.decimal n k * inject_Z (Zpos (Num.pow10 k)))%Q.
Proof.
  unfold Num.decimal. rewrite !Qred_correct.
  unfold Qeq, Qmult, inject_Z; simpl. lia.
Qed.

End NumFacts.

(* ------------------------------------------------------------------ *)
(** ** whatsapp_sim.py: quick entries *)

Module QuickEntryFacts.

Import Re ReFacts StrFacts NumFacts Spec WhatsappSim.

Lemma quick_re_split :
  quick_re
  = Seq (Grp 1 (alts (map ilit (sale_verbs ++ expense_verbs)))) quick_tail.
Proof. reflexivity. Qed.








Lemma rstrip_keep : forall s t,
  t <> "" -> all (fun c => negb (Str.is_space c)) t = true ->
  Str.rstrip (s ++ t) = (s ++ t)%string.
Proof.
  assert (Hbase : forall t, t <> "" ->
            all (fun c => negb (Str.is_space c)) t = true ->
            Str.rstrip t = t).
  { induction t as [|c t IH]; intros Hne Hall; [contradiction|].
    simpl in *. apply andb_prop in Hall as [Hc Hall].
    destruct t as [|c' t'].
    - simpl. apply negb_true_iff in Hc. now rewrite Hc.
    - rewrite IH; [reflexivity | discriminate | assumption]. }
  induction s as [|x s IH]; intros t Hne Hall; simpl.
  - apply Hbase; assumption.
  - rewrite IH by assumption.
    destruct (s ++ t)%string eqn:E; [|reflexivity].
    destruct s; simpl in E; [contradiction | discriminate].
Qed.

Lemma quick_tail_eval {R} (k : cursor -> caps -> option R) pv tok t0 tok' cs x :
  tok = String t0 tok' ->
  Str.is_space t0 = false -> is_nocase "R" t0 = false -> chr "$" t0 = false ->
  all money tok = true ->
  k (Cursor (last_char (Some " "%char) tok) "") ((3, "") :: (2, tok) :: cs)
    = Some x ->
  rmatch quick_tail k (Cursor pv (String " " tok)) cs = Some x.
Proof.
  intros E Hsp HR Hd Hm Hk.
  unfold quick_tail. cbn [seqs rmatch plus opt star prev rest].
  apply (rep_greedy_all Str.is_space _ (String " " "") tok 1 pv x);
    [reflexivity | subst tok; exact Hsp | simpl; lia |].
  cbn [last_char prev rest].
  rewrite rep_stop by (subst tok; exact HR).
  cbn [prev rest].
  rewrite rep_stop by (subst tok; exact Hd).
  cbn [prev rest].
  rewrite rep_stop by (subst tok; exact Hsp).
  cbn [prev rest].
  rewrite <- (append_nil_r tok) at 1.
  apply rep_greedy_all; [assumption | exact I | subst tok; simpl; lia |].
  rewrite rep_stop by exact I.
  cbn [prev rest].
  rewrite rep_stop by exact I.
  rewrite (consumed_reads (Cursor (Some " "%char) tok) _ tok)
    by (simpl; now rewrite append_nil_r).
  rewrite (consumed_reads _ _ "") by reflexivity.
  exact Hk.
Qed.

Lemma money_digits (w : string) :
  Num.all_digits w = true -> all money w = true.
Proof.
  induction w as [|c w IH]; simpl; [reflexivity|].
  intros H. apply andb_prop in H as [Hc Hw].
  unfold money at 1. rewrite Hc, IH by assumption. reflexivity.
Qed.

Lemma all_app p (a b : string) : all p (a ++ b) = all p a && all p b.
Proof. induction a; simpl; [reflexivity|]. now rewrite IHa, andb_assoc. Qed.

Lemma digit_classes (c : ascii) :
  Str.is_digit c = true ->
  Str.is_space c = false /\ is_nocase "R" c = false /\ chr "$" c = false.
Proof.
  destruct c as [[] [] [] [] [] [] [] []]; vm_compute; intros H;
    try discriminate; auto.
Qed.

Lemma nospace_digits (w : string) :
  Num.all_digits w = true ->
  all (fun c => negb (Str.is_space c)) w = true.
Proof.
  induction w as [|c w IH]; simpl; [reflexivity|].
  intros H. apply andb_prop in H as [Hc Hw].
  destruct (digit_classes _ Hc) as (-> & _). simpl. auto.
Qed.

(** The match of [quick_re] on ["venda "] followed by a token of
    digits with one dot: the token is the second group whole. *)
Lemma quick_re_dotted (a b : string) :
  Num.all_digits a = true -> Num.all_digits b = true ->
  exists m,
    re_match quick_re ("venda " ++ a ++ "." ++ b) = Some m
    /\ group 1 m = "venda" /\ group 2 m = (a ++ "." ++ b)%string
    /\ group 3 m = "".
Proof.
  intros Ha Hb. set (tok := (a ++ "." ++ b)%string).
  assert (Hm : all money tok = true).
  { unfold tok. rewrite all_app, (money_digits _ Ha). simpl.
    now rewrite (money_digits _ Hb). }
  assert (exists t0 tok', tok = String t0 tok' /\ Str.is_space t0 = false
            /\ is_nocase "R" t0 = false /\ chr "$" t0 = false)
    as (t0 & tok' & E & Hsp & HR & Hd).
  { unfold tok. destruct a as [|c a]; simpl.
    - eexists _, _. split; [reflexivity|]. repeat split; reflexivity.
    - simpl in Ha. apply andb_prop in Ha as [Hc _].
      eexists _, _. split; [reflexivity|]. apply digit_classes, Hc. }
  eexists. split.
  - unfold re_match, match_at. rewrite quick_re_split.
    unfold sale_verbs, expense_verbs. cbn [app map alts rmatch].
    change ("venda " ++ tok)%string with ("venda" ++ String " " tok)%string.
    rewrite rmatch_ilit by reflexivity.
    erewrite quick_tail_eval; try eassumption; reflexivity.
  - unfold group; simpl. repeat split.
    apply (consumed_reads _ _ "venda"). reflexivity.
Qed.

(** C10: a dot in the amount of a quick entry is dropped, not read as
    the decimal point.  ["venda 1.5"] records 15; and for every amount
    written as digits, a dot and digits, the total recorded is the number
    that the digits spell without the dot, which is the amount written
    multiplied by ten to the number of digits after the dot. *)
Theorem quick_entry_dot_dropped :
  (forall env,
     _parse_quick_entry env "venda 1.5"
     = Some (MkTx (today_str env) 15 [] Sale "Venda" "venda 1.5"))
  /\
  (forall env a b,
     Num.all_digits a = true -> Num.all_digits b = true ->
     (a ++ b)%string <> "" ->
     let written := Num.decimal (Num.digits_value (a ++ b)) (String.length b) in
     let recorded := Num.decimal (Num.digits_value (a ++ b)) 0 in
     Num.float_of_string (a ++ "." ++ b) = Some written
     /\ _parse_quick_entry env ("venda " ++ a ++ "." ++ b)
        = Some (MkTx (today_str env) recorded [] Sale "Venda"
                     ("venda " ++ a ++ "." ++ b))
     /\ (recorded == written * inject_Z (Zpos (Num.pow10 (String.length b))))%Q).
Proof.
  split; [intros env; reflexivity|].
  intros env a b Ha Hb Hne written recorded.
  split; [apply float_dotted; assumption|].
  split; [|apply decimal_scaled].
  destruct (quick_re_dotted a b Ha Hb) as (m & Hm & G1 & G2 & G3).
  unfold _parse_quick_entry.
  assert (Hstrip : Str.strip ("venda " ++ a ++ "." ++ b)
                   = ("venda " ++ a ++ "." ++ b)%string).
  { unfold Str.strip.
    change (Str.lstrip ("venda " ++ a ++ "." ++ b))
      with (("venda " ++ a) ++ String "." b)%string.
    change ("venda " ++ a ++ "." ++ b)%string
      with (("venda " ++ a) ++ String "." b)%string.
    apply rstrip_keep; [discriminate|].
    simpl. apply (nospace_digits _ Hb). }
  rewrite Hstrip, Hm, G1, G2, G3.
  assert (Hq : quick_amount (a ++ "." ++ b) = Some recorded).
  { unfold quick_amount.
    rewrite (replace_digits "." "" a) by (auto; reflexivity).
    change (Str.replace "." "" ("." ++ b)) with (Str.replace "." "" b).
    rewrite (replace_digits_only "." "" b) by (auto; reflexivity).
    rewrite (replace_digits_only "," "." (a ++ b))
      by (auto; rewrite all_digits_app, Ha, Hb; reflexivity).
    apply float_digits; [|assumption].
    now rewrite all_digits_app, Ha, Hb. }
  rewrite Hq. reflexivity.
Qed.

Lemma quick_entry_dot_dropped_witness :
  Num.float_of_string ("1" ++ "." ++ "5") = Some (3 # 2)%Q
  /\ _parse_quick_entry Sample.env ("venda " ++ "1" ++ "." ++ "5")
     = Some (MkTx (today_str Sample.env) 15 [] Sale "Venda" "venda 1.5")
  /\ (15 == (3 # 2) * inject_Z 10)%Q.
Proof.
  exact (proj2 quick_entry_dot_dropped Sample.env "1" "5" eq_refl eq_refl
           (fun H => match H with eq_refl => I end)).
Defined.

End QuickEntryFacts.

(* ------------------------------------------------------------------ *)
(** ** extractor.py: line items *)

Module ItemsFacts.

Import Re Extractor Spec.

Lemma mem_In (x : string) (l : list string) : mem x l = true <-> In x l.
Proof.
  unfold mem. rewrite existsb_exists. split.
  - intros (y & Hin & Heq). apply String.eqb_eq in Heq. now subst.
  - intros Hin. exists x. split; [assumption | apply String.eqb_refl].
Qed.

Lemma mem_not_In (x : string) (l : list string) :
  mem x l = false <-> ~ In x l.
Proof.
  rewrite <- mem_In. destruct (mem x l); split; intros; congruence.
Qed.

Lemma grows_refl P st : grows P st st.
Proof.
  exists []. rewrite app_nil_r. repeat split; auto.
Qed.

Lemma grows_trans P st1 st2 st3 :
  grows P st1 st2 -> grows P st2 st3 -> grows P st1 st3.
Proof.
  intros (a & E1 & F1 & H1) (b & E2 & F2 & H2).
  exists (a ++ b). rewrite E2, E1, app_assoc. repeat split.
  - apply Forall_app; auto.
  - intros i Hin Hn. apply in_app_or in Hin as [Hin|Hin].
    + exact (H1 i Hin Hn).
    + apply (H2 i Hin). rewrite E1, map_app. apply in_or_app. auto.
Qed.

Lemma append_item_ok P st it :
  inv st -> mem (name it) (snd st) = false -> P it ->
  inv (append_item st it) /\ grows P st (append_item st it).
Proof.
  intros [Hnd Hseen] Hmem HP. apply mem_not_In in Hmem.
  rewrite Hseen in Hmem. split.
  - split; simpl.
    + rewrite map_app; simpl.
      apply NoDup_app; auto.
      * constructor; [intros [] | constructor].
      * intros x Hx [<-|[]]. contradiction.
    + intros x. rewrite map_app, in_app_iff, Hseen. simpl. tauto.
  - exists [it]. repeat split; auto. intros i [<-|[]]. assumption.
Qed.

Lemma step_qty_ok P st m :
  inv st ->
  (forall it, name it = Str.strip (group 1 m) ->
              qty it = Num.digits_value (group 2 m) ->
              _parse_brazilian_number (group 3 m) = Some (unit_price it) ->
              P it) ->
  inv (step_qty st m) /\ grows P st (step_qty st m).
Proof.
  intros Hinv HP. unfold step_qty.
  destruct (_parse_brazilian_number (group 3 m)) as [p|] eqn:Ep;
    cbn [price_ok andb price_val];
    [|split; [assumption | apply grows_refl]].
  destruct (Num.truthy p); cbn [andb];
    [|split; [assumption | apply grows_refl]].
  destruct (mem (Str.strip (group 1 m)) (snd st)) eqn:Em; cbn [negb];
    [split; [assumption | apply grows_refl]|].
  apply append_item_ok; auto.
Qed.

Lemma step_price_only_ok P st m :
  inv st ->
  (forall it, name it = Str.strip (group 1 m) -> qty it = 1%Z ->
              _parse_brazilian_number (group 2 m) = Some (unit_price it) ->
              P it) ->
  inv (step_price_only st m) /\ grows P st (step_price_only st m).
Proof.
  intros Hinv HP. unfold step_price_only.
  destruct (_parse_brazilian_number (group 2 m)) as [p|] eqn:Ep;
    cbn [price_ok negb price_val];
    [|split; [assumption | apply grows_refl]].
  destruct (Num.truthy p); cbn [negb];
    [|split; [assumption | apply grows_refl]].
  destruct (search qty_suffix (Str.strip (group 1 m)));
    [split; [assumption | apply grows_refl]|].
  destruct (mem (Str.strip (group 1 m)) (snd st)) eqn:Em; cbn [orb];
    [split; [assumption | apply grows_refl]|].
  destruct (existsb (fun w => Str.contains w
                                (Str.lower (Str.strip (group 1 m))))
                     skip_words);
    [split; [assumption | apply grows_refl]|].
  apply append_item_ok; auto.
Qed.

Lemma fold_ok (step : items_state -> mobj -> items_state) P ms :
  (forall st m, In m ms -> inv st ->
                inv (step st m) /\ grows P st (step st m)) ->
  forall st, inv st ->
  inv (fold_left step ms st) /\ grows P st (fold_left step ms st).
Proof.
  induction ms as [|m ms IH]; intros Hstep st Hinv; simpl.
  - split; [assumption | apply grows_refl].
  - destruct (Hstep st m (or_introl eq_refl) Hinv) as [Hinv1 Hg1].
    destruct (IH (fun st' m' Hin => Hstep st' m' (or_intror Hin)) _ Hinv1)
      as [Hinv2 Hg2].
    split; [assumption | eapply grows_trans; eassumption].
Qed.

Lemma family1_ok text st :
  inv st ->
  inv (family1 text st)
  /\ grows (from_qty_match pattern_produto text) st (family1 text st).
Proof.
  intros Hinv. apply fold_ok; [|assumption].
  intros st' m Hin Hinv'. apply step_qty_ok; [assumption|].
  intros it H1 H2 H3. exists m. auto.
Qed.

Lemma family2_ok text st :
  inv st ->
  inv (family2 text st)
  /\ grows (from_qty_match pattern_qty_x text) st (family2 text st).
Proof.
  intros Hinv. apply fold_ok; [|assumption].
  intros st' m Hin Hinv'. apply step_qty_ok; [assumption|].
  intros it H1 H2 H3. exists m. auto.
Qed.

Lemma family3_ok text st :
  inv st ->
  inv (family3 text st)
  /\ grows (from_price_match text) st (family3 text st).
Proof.
  intros Hinv. apply fold_ok; [|assumption].
  intros st' m Hin Hinv'. apply step_price_only_ok; [assumption|].
  intros it H1 H2 H3. exists m. auto.
Qed.

(** C4: the names of the extracted items are pairwise distinct.  The
    list is made of the items of the labelled lines, then those of the
    quantity lines, then those of the bare name and price lines; each
    item carries the stripped name of a match of its family, and a later
    family adds no item under a name that an earlier one has already
    given: the first writer wins. *)
Theorem extract_items_first_writer_wins (text : string) :
  NoDup (map name (_extract_items text))
  /\ exists labelled counted bare,
       _extract_items text = labelled ++ counted ++ bare
       /\ fst (family1 text ([], [])) = labelled
       /\ Forall (from_qty_match pattern_produto text) labelled
       /\ Forall (from_qty_match pattern_qty_x text) counted
       /\ Forall (from_price_match text) bare
       /\ (forall i, In i counted -> ~ In (name i) (map name labelled))
       /\ (forall i, In i bare ->
                     ~ In (name i) (map name (labelled ++ counted))).
Proof.
  assert (H0 : inv ([], [])).
  { split; simpl; [constructor | tauto]. }
  destruct (family1_ok text _ H0) as [I1 (l1 & E1 & F1 & N1)].
  destruct (family2_ok text _ I1) as [I2 (l2 & E2 & F2 & N2)].
  destruct (family3_ok text _ I2) as [I3 (l3 & E3 & F3 & N3)].
  simpl in E1. unfold _extract_items. split; [apply I3|].
  exists l1, l2, l3. rewrite E3, E2, E1, <- app_assoc.
  repeat split; auto.
  - intros i Hin. rewrite <- E1. auto.
  - intros i Hin. rewrite <- E1, <- E2. auto.
Qed.

End ItemsFacts.

(* ------------------------------------------------------------------ *)
(** ** extractor.py: the total *)

Module TotalFacts.

Import Re ReFacts StrFacts Extractor Spec.








(** *** What the two patterns read *)



















(** On the receipt of the gas supplier the total line says 120 while
    the items come to 230: the total line wins. *)
Example total_wins_over_items :
  tx_total (_extract_with_regex Sample.env Sample.gas_receipt "") = 120%Q
  /\ items_sum (_extract_items Sample.gas_receipt) = 230%Q.
Proof. split; reflexivity. Qed.


End TotalFacts.

(* ------------------------------------------------------------------ *)
(** ** whatsapp_sim.py: the receipt pipeline *)

Module PipelineFacts.

Import WhatsappSim.



End PipelineFacts.

(* ------------------------------------------------------------------ *)
(** ** ledger.py: statistics *)

Module StatsFacts.

Import Ledger Spec ItemsFacts.

(** *** Keys in the order of first appearance *)

Lemma firsts_snoc (l : list string) (k : string) :
  firsts (l ++ [k])
  = if mem k (firsts l) then firsts l else firsts l ++ [k].
Proof. unfold firsts. rewrite fold_left_app. reflexivity. Qed.

Lemma firsts_In (l : list string) (n : string) :
  In n (firsts l) <-> In n l.
Proof.
  revert n. induction l as [|k l IH] using rev_ind; intros n;
    [reflexivity|].
  rewrite firsts_snoc, in_app_iff. simpl.
  destruct (mem k (firsts l)) eqn:E.
  - apply mem_In in E. rewrite IH in *. split; [tauto|].
    intros [H|[<-|[]]]; assumption.
  - rewrite in_app_iff, IH. simpl. tauto.
Qed.

Lemma firsts_NoDup (l : list string) : NoDup (firsts l).
Proof.
  induction l as [|k l IH] using rev_ind; [constructor|].
  rewrite firsts_snoc. destruct (mem k (firsts l)) eqn:E; [assumption|].
  apply mem_not_In in E. apply NoDup_app; auto.
  - constructor; [intros [] | constructor].
  - intros x Hx [<-|[]]. contradiction.
Qed.





(** *** The dictionary of item totals *)

Section Floats.

Variable add : Q -> Q -> Q.
Variable times : Z -> Q -> Q.

Lemma name_total_snoc n items i :
  name_total add times n (items ++ [i])
  = if (name i =? n)%string
    then add (name_total add times n items) (times (qty i) (unit_price i))
    else name_total add times n items.
Proof. unfold name_total. rewrite fold_left_app. reflexivity. Qed.

Lemma name_total_absent n items :
  ~ In n (map name items) -> name_total add times n items = 0%Q.
Proof.
  induction items as [|i items IH] using rev_ind; [reflexivity|].
  rewrite map_app, in_app_iff, name_total_snoc. simpl. intros H.
  destruct (name i =? n)%string eqn:E.
  - apply String.eqb_eq in E. tauto.
  - apply IH. tauto.
Qed.

Lemma dict_add_present items i : forall keys,
  In (name i) keys -> NoDup keys ->
  Tally.visit_item add times (map (row add times items) keys) i
  = map (row add times (items ++ [i])) keys.
Proof.
  unfold Tally.visit_item, row.
  induction keys as [|k keys IH]; intros Hin Hnd; [destruct Hin|].
  inversion Hnd as [|? ? Hk Hnd']; subst. simpl.
  rewrite name_total_snoc.
  destruct (k =? name i)%string eqn:E.
  - apply String.eqb_eq in E. subst k.
    rewrite String.eqb_refl. f_equal.
    apply map_ext_in. intros n Hn. rewrite name_total_snoc.
    destruct (name i =? n)%string eqn:E'; [|reflexivity].
    apply String.eqb_eq in E'. subst n. contradiction.
  - rewrite String.eqb_sym, E. f_equal.
    apply IH; [|assumption].
    destruct Hin as [->|Hin]; [|assumption].
    rewrite String.eqb_refl in E. discriminate.
Qed.

Lemma dict_add_absent items i : forall keys,
  ~ In (name i) keys ->
  Tally.visit_item add times (map (row add times items) keys) i
  = map (row add times (items ++ [i])) keys
    ++ [(name i, add 0 (times (qty i) (unit_price i)))].
Proof.
  unfold Tally.visit_item, row.
  induction keys as [|k keys IH]; intros Hn; [reflexivity|].
  simpl in *. destruct (k =? name i)%string eqn:E.
  - apply String.eqb_eq in E. tauto.
  - rewrite name_total_snoc, String.eqb_sym, E.
    f_equal. apply IH. tauto.
Qed.

Lemma fold_items_rows : forall items,
  fold_left (Tally.visit_item add times) items []
  = map (row add times items) (firsts (map name items)).
Proof.
  induction items as [|i items IH] using rev_ind; [reflexivity|].
  rewrite fold_left_app, IH, map_app. simpl. rewrite firsts_snoc.
  destruct (mem (name i) (firsts (map name items))) eqn:E.
  - apply mem_In in E. apply dict_add_present; [assumption|].
    apply firsts_NoDup.
  - apply mem_not_In in E. rewrite dict_add_absent by assumption.
    rewrite map_app. simpl. f_equal. unfold row.
    rewrite name_total_snoc, String.eqb_refl.
    rewrite name_total_absent; [reflexivity|].
    now rewrite <- firsts_In.
Qed.

(** The inner loops of all the entries amount to one loop over all the
    items. *)
Lemma item_totals_fold (entries : list Entry) : forall t,
  Tally.item_totals (fold_left (Tally.visit add times) entries t)
  = fold_left (Tally.visit_item add times) (all_items entries)
              (Tally.item_totals t).
Proof.
  unfold all_items.
  induction entries as [|e entries IH]; intros t; simpl; [reflexivity|].
  rewrite fold_left_app, IH. unfold Tally.visit.
  destruct (e_type e); reflexivity.
Qed.

(** [item_totals]: one row per name, in the order of first appearance,
    with what the items of that name come to. *)
Lemma item_totals_rows (entries : list Entry) :
  Tally.item_totals (fold_left (Tally.visit add times) entries Tally.start)
  = map (row add times (all_items entries))
        (firsts (map name (all_items entries))).
Proof. rewrite item_totals_fold. apply fold_items_rows. Qed.

(** The four counters and the breakdown, each as a loop of its own. *)
Lemma total_sales_fold (entries : list Entry) : forall t,
  Tally.total_sales (fold_left (Tally.visit add times) entries t)
  = fold_left (fun acc e =>
                 if tx_type_eqb (e_type e) Sale then add acc (e_total e)
                 else acc)
              entries (Tally.total_sales t).
Proof.
  induction entries as [|e entries IH]; intros t; simpl; [reflexivity|].
  rewrite IH. unfold Tally.visit. destruct (e_type e); reflexivity.
Qed.

Lemma total_expenses_fold (entries : list Entry) : forall t,
  Tally.total_expenses (fold_left (Tally.visit add times) entries t)
  = fold_left (fun acc e =>
                 if tx_type_eqb (e_type e) Expense then add acc (e_total e)
                 else acc)
              entries (Tally.total_expenses t).
Proof.
  induction entries as [|e entries IH]; intros t; simpl; [reflexivity|].
  rewrite IH. unfold Tally.visit. destruct (e_type e); reflexivity.
Qed.

Lemma num_sales_fold (entries : list Entry) : forall t,
  Tally.num_sales (fold_left (Tally.visit add times) entries t)
  = Tally.num_sales t + count_of Sale entries.
Proof.
  unfold count_of.
  induction entries as [|e entries IH]; intros t; simpl; [lia|].
  rewrite IH. unfold Tally.visit. destruct (e_type e); simpl; lia.
Qed.

Lemma num_expenses_fold (entries : list Entry) : forall t,
  Tally.num_expenses (fold_left (Tally.visit add times) entries t)
  = Tally.num_expenses t + count_of Expense entries.
Proof.
  unfold count_of.
  induction entries as [|e entries IH]; intros t; simpl; [lia|].
  rewrite IH. unfold Tally.visit. destruct (e_type e); simpl; lia.
Qed.

Lemma by_category_fold (entries : list Entry) : forall t,
  Tally.by_category (fold_left (Tally.visit add times) entries t)
  = fold_left (fun d e => Tally.dict_add add (e_category e) (e_total e) d)
              entries (Tally.by_category t).
Proof.
  induction entries as [|e entries IH]; intros t; simpl; [reflexivity|].
  rewrite IH. unfold Tally.visit. destruct (e_type e); reflexivity.
Qed.

End Floats.

(** With exact sums and products the loop computes
    [Ledger.summary_stats]. *)
Lemma item_totals_exact (entries : list Entry) :
  fold_left (Tally.visit_item Num.add Tally.exact_times)
            (all_items entries) []
  = item_totals entries.
Proof.
  unfold item_totals, add_items, all_items.
  generalize (@nil (string * Q)).
  induction entries as [|e entries IH]; intros d; simpl; [reflexivity|].
  rewrite fold_left_app, IH. reflexivity.
Qed.

Lemma summary_stats_exact (entries : list Entry) :
  Tally.summary_stats Num.add Tally.exact_sub Tally.exact_times entries
  = summary_stats entries.
Proof.
  unfold Tally.summary_stats, summary_stats.
  rewrite total_sales_fold, total_expenses_fold, num_sales_fold,
    num_expenses_fold, by_category_fold, item_totals_fold.
  cbn [Tally.start Tally.total_sales Tally.total_expenses Tally.num_sales
       Tally.num_expenses Tally.by_category Tally.item_totals Nat.add].
  rewrite item_totals_exact. reflexivity.
Qed.

(** *** The stable sort *)

Lemma insert_desc_In x l z : In z (insert_desc x l) <-> z = x \/ In z l.
Proof.
  induction l as [|y t IH]; simpl; [intuition congruence|].
  destruct (Qle_bool (snd y) (snd x)); simpl; [intuition congruence|].
  rewrite IH. intuition congruence.
Qed.

Lemma sorted_desc_In l z : In z (sorted_desc l) <-> In z l.
Proof.
  induction l as [|x l IH]; simpl; [reflexivity|].
  rewrite insert_desc_In, IH. intuition congruence.
Qed.

Lemma insert_desc_length x l : List.length (insert_desc x l) = S (List.length l).
Proof.
  induction l as [|y t IH]; simpl; [reflexivity|].
  destruct (Qle_bool (snd y) (snd x)); simpl; congruence.
Qed.

Lemma sorted_desc_length l : List.length (sorted_desc l) = List.length l.
Proof.
  induction l as [|x l IH]; simpl; [reflexivity|].
  now rewrite insert_desc_length, IH.
Qed.



Lemma sorts_before_le l x y : sorts_before l x y -> (snd y <= snd x)%Q.
Proof.
  intros [H|[H _]]; [apply Qlt_le_weak; assumption|].
  rewrite H. apply Qle_refl.
Qed.

Lemma insert_desc_sorted (R : string * Q -> string * Q -> Prop) x :
  (forall a b, R a b -> (snd b <= snd a)%Q) ->
  forall s,
  StronglySorted R s ->
  (forall z, In z s -> (snd z <= snd x)%Q -> R x z) ->
  (forall y, In y s -> (snd x < snd y)%Q -> R y x) ->
  StronglySorted R (insert_desc x s).
Proof.
  intros Hle. induction 1 as [|y t Hs IH Hy]; intros H1 H2; simpl.
  - repeat constructor.
  - destruct (Qle_bool (snd y) (snd x)) eqn:E.
    + apply Qle_bool_iff in E. constructor; [constructor; assumption|].
      constructor.
      * apply H1; [left; reflexivity | assumption].
      * rewrite Forall_forall in *. intros z Hz.
        apply H1; [right; assumption|].
        eapply Qle_trans; [apply Hle, Hy, Hz | assumption].
    + assert (Hlt : (snd x < snd y)%Q).
      { apply Qnot_le_lt. intros H. apply Qle_bool_iff in H. congruence. }
      constructor.
      * apply IH; intros; [apply H1 | apply H2]; simpl; auto.
      * rewrite Forall_forall in *. intros z Hz.
        rewrite insert_desc_In in Hz. destruct Hz as [->|Hz]; [|auto].
        apply H2; [left; reflexivity | assumption].
Qed.

Lemma StronglySorted_impl {A} (R R' : A -> A -> Prop) l :
  (forall x y, In x l -> In y l -> R x y -> R' x y) ->
  StronglySorted R l -> StronglySorted R' l.
Proof.
  intros H Hs. induction Hs as [|a l Hs IH Ha]; [constructor|].
  constructor.
  - apply IH. intros x y Hx Hy. apply H; right; assumption.
  - rewrite Forall_forall in *. intros z Hz.
    apply H; [left; reflexivity | right; assumption | auto].
Qed.

(** The sort is stable: its result is ordered by total, and by the
    position in the list sorted among equal totals. *)
Lemma sorted_desc_sorted l :
  StronglySorted (sorts_before l) (sorted_desc l).
Proof.
  induction l as [|x l IH]; simpl; [constructor|].
  apply insert_desc_sorted.
  - apply sorts_before_le.
  - apply StronglySorted_impl with (R := sorts_before l); [|exact IH].
    intros a b _ _ [H|[H Hb]]; [left; assumption|].
    right. split; [assumption|]. simpl. auto.
  - intros z Hz Hle. rewrite sorted_desc_In in Hz.
    apply Qle_lteq in Hle as [Hlt|Heq]; [left; assumption|].
    right. split; [symmetry; assumption|]. simpl. auto.
  - intros y _ Hlt. left. assumption.
Qed.




(** *** The top items *)





(** Two names with equal totals stay in the order of their first
    appearance, after the name with the greater total. *)
Example top_items_sample :
  top_items (summary_stats Sample.week)
  = [ ("pao", 20%Q); ("bolo", 10%Q); ("cafe", 10%Q) ].
Proof. reflexivity. Qed.

(** The float [0.1 + 0.2] lies above the float [0.3]: "bolo", sold at
    0.1 and at 0.2, comes before "pao", sold at 0.3 before it. *)
Example top_items_rounded :
  top_items (Tally.summary_stats Sample.add_tenths Tally.exact_sub
               Tally.exact_times Sample.tenths)
  = [ ("bolo", Sample.tenth_plus_two); ("pao", Sample.three_tenths) ].
Proof. reflexivity. Qed.

End StatsFacts.

(* ------------------------------------------------------------------ *)
(** ** Calendar dates and their ISO text *)

Module CalendarFacts.

Import Date.
Local Open Scope Z_scope.

(** Case analysis on a number known to be a decimal digit. *)
Ltac digit_cases n :=
  let H := fresh "Hdigit" in
  assert (H : 0 <= n < 10) by lia;
  destruct n as [|n|n]; [ | | exfalso; lia ];
  [ | do 4 (try destruct n as [n|n|]); try (exfalso; lia) ];
  clear H.

Lemma digit_char_digit (n : Z) :
  0 <= n <= 9 ->
  Str.is_digit (digit_char n) = true /\ Num.digit_val (digit_char n) = n.
Proof. intros H. digit_cases n; split; reflexivity. Qed.

(** Two digits compare as their characters do. *)
Lemma compare_digit (a b : Z) (s t : string) :
  0 <= a <= 9 -> 0 <= b <= 9 ->
  Str.compare (String (digit_char a) s) (String (digit_char b) t)
  = match a ?= b with
    | Eq => Str.compare s t
    | o => o
    end.
Proof. intros Ha Hb. digit_cases a; digit_cases b; reflexivity. Qed.

Lemma compare_same_char (c : ascii) (s t : string) :
  Str.compare (String c s) (String c t) = Str.compare s t.
Proof. simpl. now rewrite Nat.compare_refl. Qed.

Lemma digit_range (n k : Z) : 0 <= n / k mod 10 <= 9.
Proof. pose proof (Z.mod_pos_bound (n / k) 10). lia. Qed.

Lemma digit_range0 (n : Z) : 0 <= n mod 10 <= 9.
Proof. pose proof (Z.mod_pos_bound n 10). lia. Qed.

(** Numbers below 100, and below 10000, compare as their digits do,
    most significant digit first. *)
Lemma compare_two_digits (n1 n2 : Z) (k : comparison) :
  0 <= n1 < 100 -> 0 <= n2 < 100 ->
  match n1 / 10 mod 10 ?= n2 / 10 mod 10 with
  | Eq => match n1 mod 10 ?= n2 mod 10 with Eq => k | o => o end
  | o => o
  end
  = match n1 ?= n2 with Eq => k | o => o end.
Proof.
  intros H1 H2.
  destruct (Z.compare_spec (n1 / 10 mod 10) (n2 / 10 mod 10)) as [E1|E1|E1];
  destruct (Z.compare_spec (n1 mod 10) (n2 mod 10)) as [E2|E2|E2];
  destruct (Z.compare_spec n1 n2) as [E|E|E];
    try reflexivity; exfalso; Z.div_mod_to_equations; lia.
Qed.

Lemma compare_four_digits (n1 n2 : Z) (k : comparison) :
  0 <= n1 < 10000 -> 0 <= n2 < 10000 ->
  match n1 / 1000 mod 10 ?= n2 / 1000 mod 10 with
  | Eq =>
      match n1 / 100 mod 10 ?= n2 / 100 mod 10 with
      | Eq =>
          match n1 / 10 mod 10 ?= n2 / 10 mod 10 with
          | Eq => match n1 mod 10 ?= n2 mod 10 with Eq => k | o => o end
          | o => o
          end
      | o => o
      end
  | o => o
  end
  = match n1 ?= n2 with Eq => k | o => o end.
Proof.
  intros H1 H2.
  destruct (Z.compare_spec (n1 / 1000 mod 10) (n2 / 1000 mod 10))
    as [E1|E1|E1];
  destruct (Z.compare_spec (n1 / 100 mod 10) (n2 / 100 mod 10))
    as [E2|E2|E2];
  destruct (Z.compare_spec (n1 / 10 mod 10) (n2 / 10 mod 10))
    as [E3|E3|E3];
  destruct (Z.compare_spec (n1 mod 10) (n2 mod 10)) as [E4|E4|E4];
  destruct (Z.compare_spec n1 n2) as [E|E|E];
    try reflexivity; exfalso; Z.div_mod_to_equations; lia.
Qed.

Lemma days_in_month_le (y m : Z) : days_in_month y m <= 31.
Proof.
  unfold days_in_month. destruct (is_leap y);
    destruct m as [|p|p]; try lia;
    do 4 (try destruct p as [p|p|]); lia.
Qed.

Lemma valid_bounds (d : date) :
  valid d = true ->
  1 <= year d <= 9999 /\ 1 <= month d <= 12
  /\ 1 <= day d <= days_in_month (year d) (month d)
  /\ day d <= 31.
Proof.
  unfold valid, MINYEAR, MAXYEAR. intros H.
  repeat (apply andb_prop in H as [H ?]).
  repeat match goal with
         | H : (_ <=? _) = true |- _ => apply Z.leb_le in H
         end.
  repeat split; try assumption.
  pose proof (days_in_month_le (year d) (month d)). lia.
Qed.

(** ISO 8601 dates are ordered as texts the way they are ordered as
    dates. *)
Lemma isoformat_compare (d1 d2 : date) :
  valid d1 = true -> valid d2 = true ->
  Str.compare (isoformat d1) (isoformat d2) = compare_ymd d1 d2.
Proof.
  intros V1 V2.
  apply valid_bounds in V1 as (Y1 & M1 & D1 & D1').
  apply valid_bounds in V2 as (Y2 & M2 & D2 & D2').
  unfold isoformat, pad4, pad2, compare_ymd. cbn [append].
  rewrite !compare_digit
    by first [apply digit_range | apply digit_range0].
  rewrite compare_same_char.
  rewrite !compare_digit
    by first [apply digit_range | apply digit_range0].
  rewrite compare_same_char.
  rewrite !compare_digit
    by first [apply digit_range | apply digit_range0].
  cbn [Str.compare].
  rewrite (compare_two_digits (day d1) (day d2) Eq) by lia.
  rewrite (compare_two_digits (month d1) (month d2)) by lia.
  rewrite (compare_four_digits (year d1) (year d2)) by lia.
  destruct (year d1 ?= year d2); try reflexivity.
  destruct (month d1 ?= month d2); try reflexivity.
  destruct (day d1 ?= day d2); reflexivity.
Qed.

(** *** Ordinals *)

Lemma is_leap_spec (y : Z) :
  is_leap y = true
  <-> y mod 4 = 0 /\ (y mod 100 <> 0 \/ y mod 400 = 0).
Proof.
  unfold is_leap.
  rewrite andb_true_iff, orb_true_iff, negb_true_iff, !Z.eqb_eq, Z.eqb_neq.
  reflexivity.
Qed.

Lemma days_before_year_succ (y : Z) :
  days_before_year (y + 1) = days_before_year y + year_len y.
Proof.
  unfold days_before_year, year_len.
  destruct (is_leap y) eqn:E.
  - apply is_leap_spec in E. Z.div_mod_to_equations. lia.
  - assert (H : ~ (y mod 4 = 0 /\ (y mod 100 <> 0 \/ y mod 400 = 0))).
    { rewrite <- is_leap_spec. congruence. }
    Z.div_mod_to_equations. lia.
Qed.

Lemma year_len_bounds (y : Z) : 365 <= year_len y <= 366.
Proof. unfold year_len. destruct (is_leap y); lia. Qed.

Lemma days_before_year_mono (y1 y2 : Z) :
  y1 <= y2 ->
  days_before_year y1 + 365 * (y2 - y1) <= days_before_year y2.
Proof.
  intros H. replace y2 with (y1 + (y2 - y1)) at 2 by lia.
  assert (Hn : 0 <= y2 - y1) by lia. revert Hn.
  generalize (y2 - y1). clear. intros n Hn.
  pattern n. apply natlike_ind; [| |assumption].
  - replace (y1 + 0) with y1 by lia. lia.
  - intros k Hk IH. replace (y1 + Z.succ k) with (y1 + k + 1) by lia.
    rewrite days_before_year_succ.
    pose proof (year_len_bounds (y1 + k)). lia.
Qed.

Ltac month_cases m :=
  let H := fresh in
  assert (H : m = 1 \/ m = 2 \/ m = 3 \/ m = 4 \/ m = 5 \/ m = 6 \/ m = 7
              \/ m = 8 \/ m = 9 \/ m = 10 \/ m = 11 \/ m = 12) by lia;
  repeat (destruct H as [H|H]; [rewrite H in *|]); [..|rewrite H in *].

Ltac month_eval :=
  cbv beta iota delta [days_before_month days_in_month Z.ltb Z.compare
                       Pos.compare Pos.compare_cont andb] in *.

(** The day of the year of a date lies within its year. *)
Lemma day_of_year_bounds (d : date) :
  valid d = true ->
  1 <= days_before_month (year d) (month d) + day d <= year_len (year d).
Proof.
  intros V. apply valid_bounds in V as (_ & M & D & _).
  unfold year_len.
  month_cases (month d); month_eval;
    destruct (is_leap (year d)); lia.
Qed.

Lemma days_before_month_mono (y m1 m2 : Z) (d1 : Z) :
  1 <= m1 -> m1 < m2 -> m2 <= 12 -> d1 <= days_in_month y m1 ->
  days_before_month y m1 + d1 <= days_before_month y m2.
Proof.
  intros H1 H2 H3 Hd.
  month_cases m1; month_cases m2; month_eval; try lia;
    destruct (is_leap y); lia.
Qed.

(** Dates are ordered as their ordinals are. *)
Lemma toordinal_compare (d1 d2 : date) :
  valid d1 = true -> valid d2 = true ->
  compare_ymd d1 d2 = (toordinal d1 ?= toordinal d2).
Proof.
  intros V1 V2.
  pose proof (day_of_year_bounds _ V1) as B1.
  pose proof (day_of_year_bounds _ V2) as B2.
  apply valid_bounds in V1 as (Y1 & M1 & D1 & _).
  apply valid_bounds in V2 as (Y2 & M2 & D2 & _).
  unfold compare_ymd, toordinal.
  destruct (Z.compare_spec (year d1) (year d2)) as [Ey|Ey|Ey].
  - rewrite Ey in *.
    destruct (Z.compare_spec (month d1) (month d2)) as [Em|Em|Em].
    + rewrite Em. destruct (Z.compare_spec (day d1) (day d2));
        symmetry; [apply Z.compare_eq_iff | apply Z.compare_lt_iff
                   | apply Z.compare_gt_iff]; lia.
    + symmetry. apply Z.compare_lt_iff.
      pose proof (days_before_month_mono (year d2) _ _ (day d1)
                    (proj1 M1) Em (proj2 M2) (proj2 D1)). lia.
    + symmetry. apply Z.compare_gt_iff.
      pose proof (days_before_month_mono (year d2) _ _ (day d2)
                    (proj1 M2) Em (proj2 M1) (proj2 D2)). lia.
  - symmetry. apply Z.compare_lt_iff.
    pose proof (days_before_year_mono (year d1 + 1) (year d2)).
    rewrite days_before_year_succ in *. lia.
  - symmetry. apply Z.compare_gt_iff.
    pose proof (days_before_year_mono (year d2 + 1) (year d1)).
    rewrite days_before_year_succ in *. lia.
Qed.

Lemma toordinal_inj (d1 d2 : date) :
  valid d1 = true -> valid d2 = true ->
  toordinal d1 = toordinal d2 -> d1 = d2.
Proof.
  intros V1 V2 E. apply Z.compare_eq_iff in E.
  rewrite <- toordinal_compare in E by assumption.
  unfold compare_ymd in E.
  destruct (Z.compare_spec (year d1) (year d2)); try discriminate.
  destruct (Z.compare_spec (month d1) (month d2)); try discriminate.
  apply Z.compare_eq_iff in E.
  destruct d1, d2; simpl in *; congruence.
Qed.

(** *** The day before and the day after *)

Lemma days_before_month_succ (y m : Z) :
  1 <= m < 12 ->
  days_before_month y (m + 1) = days_before_month y m + days_in_month y m
  /\ 28 <= days_in_month y m.
Proof.
  intros H. month_cases m; month_eval; destruct (is_leap y); simpl; lia.
Qed.

Lemma days_in_month_ge (y m : Z) :
  1 <= m <= 12 -> 28 <= days_in_month y m.
Proof.
  intros H. month_cases m; month_eval; destruct (is_leap y); lia.
Qed.

Lemma days_before_december (y : Z) :
  days_before_month y 12 + 31 = year_len y /\ days_in_month y 12 = 31.
Proof. unfold year_len. month_eval. destruct (is_leap y); simpl; lia. Qed.

Lemma valid_intro (y m d : Z) :
  1 <= y <= 9999 -> 1 <= m <= 12 -> 1 <= d <= days_in_month y m ->
  valid (Make y m d) = true.
Proof.
  intros Hy Hm Hd. unfold valid, MINYEAR, MAXYEAR; simpl.
  repeat (apply andb_true_intro; split); apply Z.leb_le; lia.
Qed.

Lemma prev_day_spec (d : date) :
  valid d = true ->
  match prev_day d with
  | Some d' => valid d' = true /\ toordinal d' = toordinal d - 1
  | None => toordinal d = 1
  end.
Proof.
  intros V. apply valid_bounds in V as (Y & M & D & _).
  unfold prev_day, MINYEAR.
  destruct (Z.ltb_spec 1 (day d)) as [Hd|Hd].
  { split; [apply valid_intro; lia | unfold toordinal; simpl; lia]. }
  destruct (Z.ltb_spec 1 (month d)) as [Hm|Hm].
  { destruct (days_before_month_succ (year d) (month d - 1)) as [E B];
      [lia|].
    replace (month d - 1 + 1) with (month d) in E by lia.
    split; [apply valid_intro; lia | unfold toordinal; simpl; lia]. }
  destruct (Z.ltb_spec 1 (year d)) as [Hy|Hy].
  { destruct (days_before_december (year d - 1)) as [E B].
    split; [apply valid_intro; rewrite ?B; lia|].
    unfold toordinal; simpl.
    pose proof (days_before_year_succ (year d - 1)) as S.
    replace (year d - 1 + 1) with (year d) in S by lia.
    replace (month d) with 1 by lia.
    change (days_before_month (year d) 1) with 0. lia. }
  unfold toordinal.
  replace (year d) with 1 by lia. replace (month d) with 1 by lia.
  replace (day d) with 1 by lia. reflexivity.
Qed.

Lemma next_day_spec (d : date) :
  valid d = true ->
  match next_day d with
  | Some d' => valid d' = true /\ toordinal d' = toordinal d + 1
  | None => toordinal d = max_ordinal
  end.
Proof.
  intros V. apply valid_bounds in V as (Y & M & D & _).
  unfold next_day, MAXYEAR.
  destruct (Z.ltb_spec (day d) (days_in_month (year d) (month d)))
    as [Hd|Hd].
  { split; [apply valid_intro; lia | unfold toordinal; simpl; lia]. }
  destruct (Z.ltb_spec (month d) 12) as [Hm|Hm].
  { destruct (days_before_month_succ (year d) (month d)) as [E B]; [lia|].
    pose proof (days_in_month_ge (year d) (month d + 1)) as B'.
    split; [apply valid_intro; lia | unfold toordinal; simpl; lia]. }
  destruct (days_before_december (year d)) as [E B].
  assert (Em : month d = 12) by lia. rewrite Em in *.
  destruct (Z.ltb_spec (year d) 9999) as [Hy|Hy].
  { split; [apply valid_intro; try lia; month_eval; lia|].
    unfold toordinal; simpl. rewrite days_before_year_succ, Em.
    change (days_before_month (year d + 1) 1) with 0. lia. }
  unfold max_ordinal, toordinal. rewrite Em.
  replace (year d) with 9999 by lia. replace (day d) with 31 by lia.
  reflexivity.
Qed.

Lemma toordinal_range (d : date) :
  valid d = true -> 1 <= toordinal d <= max_ordinal.
Proof.
  intros V. pose proof (day_of_year_bounds _ V) as B.
  apply valid_bounds in V as (Y & _).
  unfold toordinal. split.
  - pose proof (days_before_year_mono 1 (year d)).
    change (days_before_year 1) with 0 in *. lia.
  - pose proof (days_before_year_mono (year d + 1) 10000).
    rewrite days_before_year_succ in *.
    change (days_before_year 10000) with 3652059 in *.
    change max_ordinal with 3652059. lia.
Qed.

(** Going back [n] days, and forth [n] days, moves the ordinal by [n],
    as long as the calendar lasts. *)
Lemma sub_days_spec (n : nat) : forall d,
  valid d = true -> Z.of_nat n < toordinal d ->
  exists d', iter_days prev_day n d = Some d'
             /\ valid d' = true /\ toordinal d' = toordinal d - Z.of_nat n.
Proof.
  induction n as [|n IH]; intros d V H.
  - exists d. simpl. repeat split; auto. lia.
  - simpl iter_days. pose proof (prev_day_spec d V) as P.
    destruct (prev_day d) as [d1|]; [|lia].
    destruct P as [V1 E1].
    destruct (IH d1 V1) as (d' & E & V' & O); [lia|].
    exists d'. repeat split; auto. lia.
Qed.

Lemma add_days_spec (n : nat) : forall d,
  valid d = true -> toordinal d + Z.of_nat n <= max_ordinal ->
  exists d', iter_days next_day n d = Some d'
             /\ valid d' = true /\ toordinal d' = toordinal d + Z.of_nat n.
Proof.
  induction n as [|n IH]; intros d V H.
  - exists d. simpl. repeat split; auto. lia.
  - simpl iter_days. pose proof (next_day_spec d V) as P.
    destruct (next_day d) as [d1|]; [|lia].
    destruct P as [V1 E1].
    destruct (IH d1 V1) as (d' & E & V' & O); [lia|].
    exists d'. repeat split; auto. lia.
Qed.

Lemma add_days_overflow (n : nat) : forall d,
  valid d = true -> max_ordinal < toordinal d + Z.of_nat n ->
  iter_days next_day n d = None.
Proof.
  induction n as [|n IH]; intros d V H.
  - pose proof (toordinal_range d V). lia.
  - simpl iter_days. pose proof (next_day_spec d V) as P.
    destruct (next_day d) as [d1|]; [|reflexivity].
    destruct P as [V1 E1]. apply IH; [assumption | lia].
Qed.

Lemma weekday_range (d : date) : 0 <= weekday d <= 6.
Proof. unfold weekday. pose proof (Z.mod_pos_bound (toordinal d + 6) 7). lia. Qed.

(** *** Reading back the ISO text *)

Lemma fromisoformat_digits (a b c e f g h i : Z) :
  0 <= a <= 9 -> 0 <= b <= 9 -> 0 <= c <= 9 -> 0 <= e <= 9 ->
  0 <= f <= 9 -> 0 <= g <= 9 -> 0 <= h <= 9 -> 0 <= i <= 9 ->
  fromisoformat
    (String (digit_char a) (String (digit_char b) (String (digit_char c)
      (String (digit_char e) (String "-" (String (digit_char f)
        (String (digit_char g) (String "-" (String (digit_char h)
          (String (digit_char i) ""))))))))))
  = new (1000 * a + 100 * b + 10 * c + e) (10 * f + g) (10 * h + i).
Proof.
  intros Ha Hb Hc He Hf Hg Hh Hi.
  unfold fromisoformat.
  cbn [String.length Str.take Str.drop Str.starts Nat.eqb Num.all_digits
       Num.digits_value Num.digits_acc].
  rewrite !(proj1 (digit_char_digit _ Ha)), !(proj1 (digit_char_digit _ Hb)),
          !(proj1 (digit_char_digit _ Hc)), !(proj1 (digit_char_digit _ He)),
          !(proj1 (digit_char_digit _ Hf)), !(proj1 (digit_char_digit _ Hg)),
          !(proj1 (digit_char_digit _ Hh)), !(proj1 (digit_char_digit _ Hi)).
  rewrite !(proj2 (digit_char_digit _ Ha)), !(proj2 (digit_char_digit _ Hb)),
          !(proj2 (digit_char_digit _ Hc)), !(proj2 (digit_char_digit _ He)),
          !(proj2 (digit_char_digit _ Hf)), !(proj2 (digit_char_digit _ Hg)),
          !(proj2 (digit_char_digit _ Hh)), !(proj2 (digit_char_digit _ Hi)).
  change (Ascii.eqb "-" "-") with true. cbn [andb].
  f_equal; lia.
Qed.

Lemma fromisoformat_isoformat (d : date) :
  valid d = true -> fromisoformat (isoformat d) = Some d.
Proof.
  intros V. pose proof (valid_bounds _ V) as (Y & M & D & D').
  unfold isoformat, pad4, pad2. cbn [append].
  rewrite fromisoformat_digits
    by first [apply digit_range | apply digit_range0].
  replace (1000 * (year d / 1000 mod 10) + 100 * (year d / 100 mod 10)
           + 10 * (year d / 10 mod 10) + year d mod 10) with (year d)
    by (Z.div_mod_to_equations; lia).
  replace (10 * (month d / 10 mod 10) + month d mod 10) with (month d)
    by (Z.div_mod_to_equations; lia).
  replace (10 * (day d / 10 mod 10) + day d mod 10) with (day d)
    by (Z.div_mod_to_equations; lia).
  unfold new. destruct d as [y m dd]; simpl in *. now rewrite V.
Qed.

(** *** The week query *)

Import Ledger Spec.

Lemma leb_compare (x y : Z) :
  (x <=? y) = match x ?= y with Gt => false | _ => true end.
Proof. reflexivity. Qed.

Lemma geb_isoformat (a b : date) :
  valid a = true -> valid b = true ->
  Str.geb (isoformat a) (isoformat b) = (toordinal b <=? toordinal a).
Proof.
  intros Va Vb. unfold Str.geb, Str.leb.
  rewrite isoformat_compare, toordinal_compare, leb_compare by assumption.
  reflexivity.
Qed.

Lemma leb_isoformat (a b : date) :
  valid a = true -> valid b = true ->
  Str.leb (isoformat a) (isoformat b) = (toordinal a <=? toordinal b).
Proof.
  intros Va Vb. unfold Str.leb.
  rewrite isoformat_compare, toordinal_compare, leb_compare by assumption.
  reflexivity.
Qed.

Lemma bound_isoformat (d : date) :
  bound (Some (isoformat d)) = Some (isoformat d).
Proof. reflexivity. Qed.

Lemma filter_filter {A} (p q : A -> bool) (l : list A) :
  filter q (filter p l) = filter (fun x => p x && q x) l.
Proof.
  induction l as [|x l IH]; simpl; [reflexivity|].
  destruct (p x); simpl; [destruct (q x)|]; congruence.
Qed.

(** On a ledger of ISO-dated entries, the comparison of texts that
    [get_entries] makes selects the entries whose date lies between the
    two bounds. *)
Lemma get_entries_range (lo hi : date) (f : store) :
  valid lo = true -> valid hi = true ->
  Forall iso_dated (_load f) ->
  get_entries (Some (isoformat lo)) (Some (isoformat hi)) f
  = filter (in_range lo hi) (_load f).
Proof.
  intros Vlo Vhi Hiso. unfold get_entries.
  rewrite !bound_isoformat, filter_filter.
  apply filter_ext_in. intros e He.
  rewrite Forall_forall in Hiso. destruct (Hiso e He) as (d & Vd & Ed).
  unfold in_range. rewrite Ed, fromisoformat_isoformat by assumption.
  rewrite geb_isoformat, leb_isoformat by assumption. reflexivity.
Qed.

(** C5 (as amended): for a reference date whose week ends within the
    calendar, and a ledger whose entries carry ISO dates, the week query
    answers the entries whose date lies between the Monday and the Sunday
    of the week of the reference date, both included, in the order of
    the ledger; the Monday is the reference date minus its weekday. *)
Theorem week_query_spec (env : Env) (reference_date : option string)
    (ref : date) (f : store) :
  reference_date = Some (isoformat ref)
  \/ (reference_date = None /\ today env = ref) ->
  valid ref = true ->
  toordinal ref - weekday ref + 6 <= max_ordinal ->
  Forall iso_dated (_load f) ->
  exists monday sunday,
    valid monday = true /\ valid sunday = true
    /\ toordinal monday = toordinal ref - weekday ref
    /\ weekday monday = 0
    /\ toordinal sunday = toordinal monday + 6
    /\ toordinal monday <= toordinal ref <= toordinal sunday
    /\ get_week_entries env reference_date f
       = Some (filter (in_range monday sunday) (_load f)).
Proof.
  intros Href V Hmax Hiso.
  pose proof (weekday_range ref) as Wr.
  pose proof (toordinal_range ref V) as Or.
  assert (Hwd : weekday ref < toordinal ref).
  { unfold weekday in *. Z.div_mod_to_equations. lia. }
  destruct (sub_days_spec (Z.to_nat (weekday ref)) ref V)
    as (monday & Em & Vm & Om); [lia|].
  rewrite Z2Nat.id in Om by lia.
  destruct (add_days_spec 6 monday Vm) as (sunday & Es & Vs & Os);
    [simpl; lia|].
  exists monday, sunday. repeat split; auto; try lia.
  - unfold weekday in *. rewrite Om. Z.div_mod_to_equations. lia.
  - unfold get_week_entries.
    assert (Eref : match bound reference_date with
                   | Some s => fromisoformat s
                   | None => Some (today env)
                   end = Some ref).
    { destruct Href as [-> | [-> ->]]; [|reflexivity].
      rewrite bound_isoformat. apply fromisoformat_isoformat, V. }
    rewrite Eref. unfold sub_days, add_days. rewrite Em.
    change (Z.to_nat 6) with 6%nat. rewrite Es.
    f_equal. apply get_entries_range; assumption.
Qed.

(** C5 (as stated) fails: 9999-12-31 is a Friday, the Sunday of its
    week is beyond the calendar, and the query raises although the ledger
    holds an entry of that very day. *)
Lemma week_query_last_week_fails :
  valid (Make 9999 12 31) = true
  /\ weekday (Make 9999 12 31) = 4
  /\ sub_days (Make 9999 12 31) 4 = Some (Make 9999 12 27)
  /\ add_days (Make 9999 12 27) 6 = None
  /\ iso_dated Sample.last_day_entry
  /\ get_week_entries Sample.env (Some "9999-12-31")
       (Some [Sample.last_day_entry]) = None.
Proof.
  repeat split; try reflexivity.
  exists (Make 9999 12 31). split; reflexivity.
Qed.

Lemma week_query_spec_witness :
  exists monday sunday,
    valid monday = true /\ valid sunday = true
    /\ toordinal monday = toordinal (Make 2026 11 4) - weekday (Make 2026 11 4)
    /\ weekday monday = 0
    /\ toordinal sunday = toordinal monday + 6
    /\ toordinal monday <= toordinal (Make 2026 11 4) <= toordinal sunday
    /\ get_week_entries Sample.env (Some (isoformat (Make 2026 11 4)))
         (Some Sample.week)
       = Some (filter (in_range monday sunday) (_load (Some Sample.week))).
Proof.
  apply (week_query_spec Sample.env (Some (isoformat (Make 2026 11 4)))
           (Make 2026 11 4) (Some Sample.week)).
  - left. reflexivity.
  - reflexivity.
  - vm_compute. discriminate.
  - repeat constructor.
    + exists (Make 2026 11 2). split; reflexivity.
    + exists (Make 2026 11 3). split; reflexivity.
    + exists (Make 2026 11 4). split; reflexivity.
Defined.

Example week_query_sample :
  get_week_entries Sample.env (Some "2026-11-04") (Some Sample.week)
  = Some Sample.week.
Proof. reflexivity. Qed.

End CalendarFacts.

(* ------------------------------------------------------------------ *)
(** ** The scenarios of the specification, by evaluation *)

Module Scenarios.

Import Extractor.

(** Scenario A: five item lines that come to 109.80 and a total line
    that says so; the receipt is an expense. *)
Example scenario_a :
  let tx := _extract_with_regex Sample.env
              (Ocr._simulated_ocr "receipt_expense_01.png") "" in
  tx_total tx = (549 # 5)%Q /\ tx_type_of tx = Expense
  /\ List.length (tx_items tx) = 5%nat
  /\ items_sum (tx_items tx) = (549 # 5)%Q
  /\ tx_date tx = "2026-01-18".
Proof. repeat split; reflexivity. Qed.

(** Scenario B: "RECIBO DE VENDA", no total line, items that come to
    150.00: a sale of 150.00, by the sum of the items. *)
Example scenario_b :
  let tx := _extract_with_regex Sample.env Sample.sale_without_total "" in
  tx_total tx = 150%Q /\ tx_type_of tx = Sale
  /\ _extract_total Sample.sale_without_total = None
  /\ tx_description tx = "Venda de 2 item(s)"
  /\ tx_date tx = "2026-11-04".
Proof. repeat split; reflexivity. Qed.

(** The whole pipeline on a sample receipt: one entry, under
    ["sales"]. *)
Example pipeline_sample :
  exists e,
    WhatsappSim.process_receipt Sample.disk_env
      "sample_receipts/receipt_sale_02.png" "" None
    = (Some (WhatsappSim.Recorded e), Some [e])
    /\ e_category e = "sales" /\ e_total e = 205%Q
    /\ e_date e = "2026-01-22"
    /\ map name (e_items e)
       = [ "Bolo de cenoura"; "Torta de limão"; "Salgados (cento)" ].
Proof. eexists. repeat split; reflexivity. Qed.

(** A missing image: an error, and the ledger as it was. *)
Example pipeline_missing_image :
  WhatsappSim.process_receipt Sample.env "nowhere.png" "" (Some Sample.week)
  = (None, Some Sample.week).
Proof. reflexivity. Qed.

End Scenarios.

(* ================================================================== *)
(** * Further properties of the package *)

(* ------------------------------------------------------------------ *)
(** ** extractor.py: amounts written the Brazilian way *)

Module AmountFacts.

Import Re StrFacts NumFacts QuickEntryFacts Notions Extractor.

Lemma money_cases (c : ascii) :
  money c = true ->
  (Str.is_digit c = true /\ c <> "."%char /\ c <> ","%char)
  \/ c = "."%char \/ c = ","%char.
Proof.
  destruct c as [[] [] [] [] [] [] [] []]; vm_compute; intros H;
    try discriminate; auto; left; repeat split; discriminate.
Qed.

Lemma money_plain (c : ascii) :
  money c = true ->
  Str.is_space c = false /\ Ascii.eqb "R" c = false
  /\ Ascii.eqb " " c = false.
Proof.
  destruct c as [[] [] [] [] [] [] [] []]; vm_compute; intros H;
    try discriminate; auto.
Qed.

(** Replacing a one-character text, one character at a time. *)
Lemma replace1_cons (o : ascii) (new : string) (c : ascii) (t : string) :
  Str.replace (String o "") new (String c t)
  = if Ascii.eqb o c then (new ++ Str.replace (String o "") new t)%string
    else String c (Str.replace (String o "") new t).
Proof.
  unfold Str.replace. simpl. rewrite andb_true_r. reflexivity.
Qed.

Lemma replace1_nil (o : ascii) (new : string) :
  Str.replace (String o "") new "" = "".
Proof. reflexivity. Qed.

(** A monetary token has no currency sign, no space and no white space
    around it: the first line of [_parse_brazilian_number] leaves it as
    it is. *)
Lemma money_unsigned (t : string) :
  all money t = true -> Str.replace "R$" "" t = t.
Proof.
  unfold Str.replace. induction t as [|c t IH]; [reflexivity|].
  cbn [all]. intros H. apply andb_prop in H as [Hc Ht].
  cbn [Str.replace_aux Str.starts].
  destruct (money_plain _ Hc) as (_ & -> & _). cbn [andb].
  now rewrite IH.
Qed.

Lemma money_unspaced (t : string) :
  all money t = true -> Str.replace " " "" t = t.
Proof.
  induction t as [|c t IH]; [reflexivity|]. simpl.
  intros H. apply andb_prop in H as [Hc Ht].
  rewrite replace1_cons. destruct (money_plain _ Hc) as (_ & _ & ->).
  now rewrite IH.
Qed.

Lemma money_nospace (t : string) :
  all money t = true -> all (fun c => negb (Str.is_space c)) t = true.
Proof.
  induction t as [|c t IH]; simpl; [reflexivity|].
  intros H. apply andb_prop in H as [Hc Ht].
  destruct (money_plain _ Hc) as (-> & _). simpl. auto.
Qed.

Lemma money_stripped (t : string) :
  all money t = true -> Str.strip t = t.
Proof.
  intros H. unfold Str.strip. destruct t as [|c t]; [reflexivity|].
  assert (Hl : Str.lstrip (String c t) = String c t).
  { simpl in *. apply andb_prop in H as [Hc _].
    destruct (money_plain _ Hc) as (-> & _). reflexivity. }
  rewrite Hl. apply (rstrip_keep "" (String c t)); [discriminate|].
  now apply money_nospace.
Qed.

Lemma dotted_nil : dotted "" = "".
Proof. reflexivity. Qed.

Lemma dotted_digit (c : ascii) (t : string) :
  Str.is_digit c = true -> dotted (String c t) = String c (dotted t).
Proof.
  intros Hc. unfold dotted. rewrite replace1_cons.
  rewrite (digit_not "." c) by (auto; reflexivity).
  rewrite replace1_cons.
  rewrite (digit_not "," c) by (auto; reflexivity).
  reflexivity.
Qed.

Lemma dotted_dot (t : string) : dotted (String "." t) = dotted t.
Proof. unfold dotted. rewrite replace1_cons. reflexivity. Qed.

Lemma dotted_comma (t : string) :
  dotted (String "," t) = String "." (dotted t).
Proof. unfold dotted. rewrite !replace1_cons. reflexivity. Qed.

Lemma digits_of_all (t : string) : Num.all_digits (digits_of t) = true.
Proof.
  unfold digits_of. induction t as [|c t IH]; simpl; [reflexivity|].
  destruct (Str.is_digit c) eqn:E; simpl; [now rewrite E|assumption].
Qed.

(** Without a comma the text handed to [float] is the digits of the
    token; with one it is not made of digits. *)
Lemma dotted_digits (t : string) :
  all money t = true ->
  if (count "," t =? 0)%nat then dotted t = digits_of t
  else Num.all_digits (dotted t) = false.
Proof.
  unfold digits_of.
  induction t as [|c t IH]; [reflexivity|]. cbn [all count keep].
  intros H. apply andb_prop in H as [Hc Ht]. specialize (IH Ht).
  destruct (money_cases _ Hc) as [(Hd & Hn1 & Hn2) | [-> | ->]].
  - rewrite dotted_digit by assumption. rewrite Hd.
    destruct (Ascii.eqb c ",") eqn:E;
      [apply Ascii.eqb_eq in E; contradiction|].
    cbn [Nat.add]. destruct (count "," t =? 0)%nat.
    + now rewrite IH.
    + cbn [Num.all_digits]. now rewrite Hd.
  - rewrite dotted_dot. exact IH.
  - rewrite dotted_comma. reflexivity.
Qed.

(** Where [float] finds the decimal point. *)
Lemma split_dotted (t : string) :
  all money t = true ->
  exists ip,
    Num.all_digits ip = true
    /\ digits_of t = (ip ++ digits_of (after "," t))%string
    /\ Num.split_dot (dotted t)
       = (ip, if (count "," t =? 0)%nat then None
              else Some (dotted (after "," t))).
Proof.
  unfold digits_of.
  induction t as [|c t IH].
  - intros _. exists "". auto.
  - cbn [all count keep after]. intros H. apply andb_prop in H as [Hc Ht].
    destruct (IH Ht) as (ip & Hip & Hd & Hs).
    destruct (money_cases _ Hc) as [(Hdig & Hn1 & Hn2) | [-> | ->]].
    + exists (String c ip). rewrite dotted_digit by assumption.
      destruct (Ascii.eqb c ",") eqn:E;
        [apply Ascii.eqb_eq in E; contradiction|].
      cbn [Num.split_dot Num.all_digits Nat.add].
      destruct (Ascii.eqb c ".") eqn:E';
        [apply Ascii.eqb_eq in E'; contradiction|].
      rewrite Hs, Hdig, Hip, Hd. auto.
    + exists ip. rewrite dotted_dot. auto.
    + exists "". rewrite dotted_comma. auto.
Qed.

Lemma after_money (t : string) :
  all money t = true -> all money (after "," t) = true.
Proof.
  induction t as [|c t IH]; simpl; [reflexivity|].
  intros H. apply andb_prop in H as [Hc Ht].
  destruct (Ascii.eqb c ","); auto.
Qed.

Lemma count_after (t : string) :
  (count "," t =? 0)%nat = false ->
  count "," t = S (count "," (after "," t)).
Proof.
  induction t as [|c t IH]; simpl; [discriminate|].
  destruct (Ascii.eqb c ","); simpl; auto.
Qed.

Lemma after_absent (t : string) :
  (count "," t =? 0)%nat = true -> after "," t = "".
Proof.
  induction t as [|c t IH]; simpl; [reflexivity|].
  destruct (Ascii.eqb c ","); simpl; [discriminate | auto].
Qed.

Lemma eqb_empty_length (s : string) :
  (s =? "")%string = (String.length s =? 0)%nat.
Proof. destruct s; reflexivity. Qed.

(** [float] of the text made from a monetary token. *)
Lemma float_dotted_token (t : string) :
  all money t = true ->
  Num.float_of_string (dotted t) = brazilian_value t.
Proof.
  intros Hm. unfold Num.float_of_string, brazilian_value.
  destruct (split_dotted t Hm) as (ip & Hip & Hd & Hs). rewrite Hs.
  destruct (count "," t =? 0)%nat eqn:E0.
  - rewrite (after_absent _ E0) in *. simpl in Hd.
    rewrite append_nil_r in Hd. rewrite Hd, Hip.
    apply Nat.eqb_eq in E0. rewrite E0. simpl.
    rewrite eqb_empty_length. reflexivity.
  - rewrite (count_after _ E0).
    pose proof (dotted_digits _ (after_money _ Hm)) as Ha.
    destruct (count "," (after "," t) =? 0)%nat eqn:E1.
    + apply Nat.eqb_eq in E1. rewrite E1. simpl.
      rewrite Ha, Hip, digits_of_all, Hd. simpl.
      rewrite eqb_empty_length, length_append. reflexivity.
    + rewrite Ha, andb_false_r. simpl.
      destruct (count "," (after "," t)); [discriminate|]. reflexivity.
Qed.

(** X1. On a monetary token (digits, dots and commas, as the patterns of
    the package capture it) [_parse_brazilian_number] and the amount
    reader of quick entries agree, and both return the Brazilian reading
    of the token: with at most one comma and at least one digit, the
    number spelled by all the digits of the token, divided by ten to the
    number of digits after the comma; no number otherwise.  Dots never
    count, wherever they stand. *)
Theorem parse_brazilian_number_token (token : string) :
  all money token = true ->
  _parse_brazilian_number token = brazilian_value token
  /\ WhatsappSim.quick_amount token = brazilian_value token.
Proof.
  intros Hm. split.
  - unfold _parse_brazilian_number.
    rewrite (money_unsigned _ Hm), (money_unspaced _ Hm),
      (money_stripped _ Hm).
    apply (float_dotted_token _ Hm).
  - apply (float_dotted_token _ Hm).
Qed.

Lemma parse_brazilian_number_token_witness :
  _parse_brazilian_number "1.234,56" = Some (30864 # 25)%Q
  /\ WhatsappSim.quick_amount "1.234,56" = Some (30864 # 25)%Q.
Proof.
  exact (parse_brazilian_number_token "1.234,56" eq_refl).
Defined.

End AmountFacts.

(* ------------------------------------------------------------------ *)
(** ** extractor.py: signs of the amounts *)

Module SignFacts.

Import Re Extractor Notions.



Lemma decimal_nonneg (n : Z) (k : nat) :
  (0 <= n)%Z -> (0 <= Num.decimal n k)%Q.
Proof.
  intros H. unfold Num.decimal. rewrite Qred_correct.
  unfold Qle. simpl. lia.
Qed.
















End SignFacts.

(* ------------------------------------------------------------------ *)
(** ** Dates: from the receipt to the ledger and to the week query *)

Module DatedFacts.

Import Date CalendarFacts Ledger Spec Notions Extractor WhatsappSim.
Local Open Scope Z_scope.

Lemma new_valid (y m d : Z) (x : date) :
  new y m d = Some x -> valid x = true.
Proof.
  unfold new. destruct (valid (Make y m d)) eqn:V; [|discriminate].
  now intros [= <-].
Qed.

(** X3. With a clock that shows a date of the calendar, [_parse_date]
    always returns the ISO text of a date of the calendar, whatever the
    text it is given; [date.fromisoformat] reads that date back. *)
Theorem parse_date_iso (env : Env) (text : string) :
  valid (today env) = true ->
  exists d,
    valid d = true
    /\ _parse_date env text = isoformat d
    /\ fromisoformat (_parse_date env text) = Some d.
Proof.
  intros V. unfold _parse_date.
  destruct (Re.search date_re text) as [m|].
  - destruct (date_of_match m) as [d|] eqn:E.
    + apply new_valid in E. exists d.
      repeat split; auto. now apply fromisoformat_isoformat.
    + exists (today env). repeat split; auto.
      now apply fromisoformat_isoformat.
  - exists (today env). repeat split; auto.
    now apply fromisoformat_isoformat.
Qed.

Lemma parse_date_iso_witness :
  exists d,
    valid d = true
    /\ _parse_date Sample.env "Data: 20/01/2026" = isoformat d
    /\ fromisoformat (_parse_date Sample.env "Data: 20/01/2026") = Some d.
Proof.
  exact (parse_date_iso Sample.env "Data: 20/01/2026" eq_refl).
Defined.


(** What a quick entry always carries. *)
Lemma quick_entry_fields (env : Env) (text : string) (tx : Transaction) :
  _parse_quick_entry env text = Some tx ->
  tx_date tx = today_str env /\ tx_items tx = [] /\ tx_raw_text tx = text.
Proof.
  unfold _parse_quick_entry.
  destruct (Re.re_match quick_re (Str.strip text)) as [m|]; [|discriminate].
  destruct (quick_amount (Re.group 2 m)); [|discriminate].
  intros [= <-]. auto.
Qed.





End DatedFacts.

(* ------------------------------------------------------------------ *)
(** ** ledger.py: the week of a date *)

Module WeekFacts.

Import Date CalendarFacts Ledger Spec Notions WhatsappSim DatedFacts.
Local Open Scope Z_scope.

(** The Monday that [get_week_entries] computes. *)
Lemma monday_of (ref : date) :
  valid ref = true ->
  exists monday,
    sub_days ref (weekday ref) = Some monday
    /\ valid monday = true
    /\ toordinal monday = monday_ordinal ref.
Proof.
  intros V.
  pose proof (weekday_range ref) as Wr.
  pose proof (toordinal_range ref V) as Or.
  assert (Hwd : weekday ref < toordinal ref).
  { unfold weekday in *. Z.div_mod_to_equations. lia. }
  destruct (sub_days_spec (Z.to_nat (weekday ref)) ref V)
    as (monday & Em & Vm & Om); [lia|].
  rewrite Z2Nat.id in Om by lia.
  exists monday. auto.
Qed.

(** The days of one week have the same Monday. *)
Lemma monday_ordinal_week (ref d : date) :
  monday_ordinal ref <= toordinal d <= monday_ordinal ref + 6 ->
  monday_ordinal d = monday_ordinal ref.
Proof.
  unfold monday_ordinal, weekday. intros H.
  Z.div_mod_to_equations. lia.
Qed.

Lemma week_entries_at (env : Env) (ref : date) (f : store) :
  valid ref = true ->
  get_week_entries env (Some (isoformat ref)) f
  = match sub_days ref (weekday ref) with
    | None => None
    | Some monday =>
        match add_days monday 6 with
        | None => None
        | Some sunday =>
            Some (get_entries (Some (isoformat monday))
                              (Some (isoformat sunday)) f)
        end
    end.
Proof.
  intros V. unfold get_week_entries.
  rewrite bound_isoformat, fromisoformat_isoformat by assumption.
  reflexivity.
Qed.

(** X5. The week query depends on the week of the reference date only:
    any date between the Monday and the Sunday of the week of a date
    gives the same answer as that date, and the query without a
    reference date is the query for the date of the clock. *)
Theorem week_query_same_week (env : Env) (ref d : date) (f : store) :
  valid ref = true -> valid d = true ->
  monday_ordinal ref <= toordinal d <= monday_ordinal ref + 6 ->
  get_week_entries env (Some (isoformat d)) f
  = get_week_entries env (Some (isoformat ref)) f
  /\ (today env = ref ->
      get_week_entries env None f
      = get_week_entries env (Some (isoformat ref)) f).
Proof.
  intros Vr Vd H. split.
  - rewrite !week_entries_at by assumption.
    destruct (monday_of ref Vr) as (m1 & E1 & V1 & O1).
    destruct (monday_of d Vd) as (m2 & E2 & V2 & O2).
    rewrite (monday_ordinal_week ref d H) in O2.
    assert (m2 = m1) by (apply toordinal_inj; auto; lia).
    subst m2. now rewrite E1, E2.
  - intros <-. rewrite week_entries_at by assumption. reflexivity.
Qed.

Lemma week_query_same_week_witness :
  get_week_entries Sample.env (Some (isoformat (Make 2026 11 8)))
    (Some Sample.week)
  = get_week_entries Sample.env (Some (isoformat (Make 2026 11 4)))
      (Some Sample.week)
  /\ (today Sample.env = Make 2026 11 4 ->
      get_week_entries Sample.env None (Some Sample.week)
      = get_week_entries Sample.env (Some (isoformat (Make 2026 11 4)))
          (Some Sample.week)).
Proof.
  apply (week_query_same_week Sample.env (Make 2026 11 4) (Make 2026 11 8));
    [reflexivity | reflexivity | vm_compute; split; discriminate].
Defined.

Lemma get_entries_app (s e : option string) (l1 l2 : list Entry) :
  get_entries s e (Some (l1 ++ l2))
  = get_entries s e (Some l1) ++ get_entries s e (Some l2).
Proof.
  unfold get_entries. simpl.
  destruct (bound s), (bound e); rewrite ?filter_app; reflexivity.
Qed.

Lemma get_entries_load (s e : option string) (f : store) :
  get_entries s e f = get_entries s e (Some (_load f)).
Proof. reflexivity. Qed.

(** X6. A quick entry is part of the weekly summary at once: when
    [process_text_message] records an entry, the week query of the
    clock's week answers, on the new ledger, what it answered before
    followed by the new entry.  (The clock shows a date of the calendar
    whose week ends within the calendar.) *)
Theorem quick_entry_in_week (env : Env) (msg : string) (f f' : store)
    (e : Entry) :
  valid (today env) = true -> week_in_calendar (today env) ->
  process_text_message env msg f = (Some (Recorded e), f') ->
  exists before,
    get_week_entries env None f = Some before
    /\ get_week_entries env None f' = Some (before ++ [e]).
Proof.
  intros V Hcal. unfold process_text_message.
  repeat match goal with
         | |- context [if ?b then _ else _] => destruct b
         end;
    try (destruct (get_week_entries env None f); discriminate);
    try discriminate.
  destruct (_parse_quick_entry env msg) as [tx|] eqn:E; [|discriminate].
  destruct (Categorizer.categorize env tx) as [c|]; [|discriminate].
  apply quick_entry_fields in E as (Ed & _).
  unfold add_entry. intros [= <- <-].
  unfold get_week_entries. cbn [bound].
  destruct (monday_of _ V) as (monday & Em & Vm & Om). rewrite Em.
  destruct (add_days_spec 6 monday Vm) as (sunday & Es & Vs & Os).
  { unfold week_in_calendar in Hcal. simpl. lia. }
  unfold add_days. change (Z.to_nat 6) with 6%nat. rewrite Es.
  eexists. split; [reflexivity|].
  f_equal. unfold _save. rewrite get_entries_app.
  rewrite <- get_entries_load. f_equal.
  unfold get_entries. rewrite !bound_isoformat. cbn [_load filter e_date].
  rewrite Ed. unfold today_str.
  rewrite geb_isoformat by assumption.
  pose proof (weekday_range (today env)) as Wr.
  unfold monday_ordinal in Om.
  replace (toordinal monday <=? toordinal (today env)) with true
    by (symmetry; apply Z.leb_le; lia).
  cbn [filter e_date].
  rewrite leb_isoformat by assumption.
  replace (toordinal (today env) <=? toordinal sunday) with true
    by (symmetry; apply Z.leb_le; simpl in Os; lia).
  reflexivity.
Qed.

Lemma quick_entry_in_week_witness :
  exists before,
    get_week_entries Sample.env None (Some Sample.week) = Some before
    /\ get_week_entries Sample.env None
         (snd (process_text_message Sample.env "venda 150" (Some Sample.week)))
       = Some (before ++ [MkEntry "1a2b3c4d" "2026-11-04T09:30:00"
                                  "2026-11-04" 150 Sale "sales" "Venda" []]).
Proof.
  apply (quick_entry_in_week Sample.env "venda 150" (Some Sample.week));
    [reflexivity | vm_compute; discriminate | reflexivity].
Defined.

End WeekFacts.

(* ------------------------------------------------------------------ *)
(** ** Substrings and case *)

Module TextFacts.

Import StrFacts.

Lemma starts_iff (p s : string) :
  Str.starts p s = true <-> exists t, s = (p ++ t)%string.
Proof.
  revert s. induction p as [|a p IH]; intros s; simpl.
  - split; [intros _; now exists s | reflexivity].
  - destruct s as [|b s].
    + split; [discriminate | intros (t & E); discriminate].
    + rewrite andb_true_iff, IH, Ascii.eqb_eq. split.
      * intros (-> & t & ->). now exists t.
      * intros (t & [= -> ->]). split; [reflexivity | now exists t].
Qed.

(** [needle in hay]: the needle stands somewhere in the hay. *)
Lemma contains_iff (needle hay : string) :
  Str.contains needle hay = true
  <-> exists pre post, hay = (pre ++ needle ++ post)%string.
Proof.
  induction hay as [|c hay IH]; simpl.
  - rewrite orb_false_r, starts_iff. split.
    + intros (t & E). now exists "", t.
    + intros ([|? ?] & post & E); [now exists post | discriminate].
  - rewrite orb_true_iff, starts_iff, IH. split.
    + intros [(t & E) | (pre & post & E)].
      * now exists "", t.
      * exists (String c pre), post. simpl. now rewrite E.
    + intros ([|x pre] & post & E).
      * left. now exists post.
      * right. injection E as -> E. now exists pre, post.
Qed.

Lemma contains_context (needle pre hay post : string) :
  Str.contains needle hay = true ->
  Str.contains needle (pre ++ hay ++ post) = true.
Proof.
  rewrite !contains_iff. intros (a & b & ->).
  exists (pre ++ a)%string, (b ++ post)%string.
  now rewrite !append_assoc.
Qed.

Lemma contains_trans (a b c : string) :
  Str.contains a b = true -> Str.contains b c = true ->
  Str.contains a c = true.
Proof.
  intros Hab Hbc. apply contains_iff in Hbc as (pre & post & ->).
  now apply contains_context.
Qed.

Lemma lower_append (a b : string) :
  Str.lower (a ++ b) = (Str.lower a ++ Str.lower b)%string.
Proof. induction a; simpl; congruence. Qed.

Lemma lower_char_idem (c : ascii) :
  Str.lower_char (Str.lower_char c) = Str.lower_char c.
Proof. destruct c as [[] [] [] [] [] [] [] []]; reflexivity. Qed.

Lemma lower_idem (s : string) : Str.lower (Str.lower s) = Str.lower s.
Proof.
  induction s as [|c s IH]; simpl; [reflexivity|].
  now rewrite lower_char_idem, IH.
Qed.

Lemma lower_join (sep : string) (l : list string) :
  Str.lower (Str.join sep l) = Str.join (Str.lower sep) (map Str.lower l).
Proof.
  induction l as [|x l IH]; [reflexivity|].
  destruct l as [|y l]; [reflexivity|].
  change (Str.join sep (x :: y :: l))
    with (x ++ sep ++ Str.join sep (y :: l))%string.
  rewrite !lower_append, IH. reflexivity.
Qed.

End TextFacts.

(* ------------------------------------------------------------------ *)
(** ** extractor.py and categorizer.py: sale or expense, and the
    category *)

Module KindFacts.

Import TextFacts CategorizerFacts ItemsFacts Categorizer Extractor Notions.

Lemma detect_type_sale (text : string) :
  _detect_type text = Sale
  <-> exists kw, In kw sale_keywords
                 /\ Str.contains kw (Str.lower text) = true.
Proof.
  unfold _detect_type.
  destruct (existsb _ sale_keywords) eqn:E.
  - apply existsb_exists in E. tauto.
  - split; [discriminate|]. intros H. apply existsb_exists in H. congruence.
Qed.

(** X7. [_detect_type] answers "sale" exactly when the text, in lower
    case, has one of five keywords: "venda", "sold", "sale", "pagamento
    recebido", "pix recebido" (the keywords "vendas" and "recibo de
    venda" add nothing, each contains "venda").  A sale stays a sale
    whatever text is put before or after it. *)
Theorem detect_type_spec (text : string) :
  (_detect_type text = Sale
   <-> exists kw, In kw core_sale_keywords
                  /\ Str.contains kw (Str.lower text) = true)
  /\ (forall pre post,
        _detect_type text = Sale ->
        _detect_type (pre ++ text ++ post) = Sale).
Proof.
  split.
  - rewrite detect_type_sale. split; intros (kw & Hin & Hc).
    + simpl in Hin.
      destruct Hin as [<-|[<-|[<-|[<-|[<-|[<-|[<-|[]]]]]]]];
        try (eexists; split; [|exact Hc]; simpl; tauto);
        exists "venda"; (split; [simpl; tauto|]);
        (eapply contains_trans; [|exact Hc]); reflexivity.
    + exists kw. split; [|assumption].
      simpl in *. tauto.
  - intros pre post. rewrite !detect_type_sale.
    intros (kw & Hin & Hc). exists kw. split; [assumption|].
    rewrite !lower_append. now apply contains_context.
Qed.

(** X8. A sale keyword in the receipt text or in the caption makes the
    extracted transaction a sale, and then the category is "sales":
    neither the other text nor the rule table nor the language model
    has a say. *)
Theorem sale_keyword_decides (env env' : Env) (raw_text caption kw : string) :
  In kw sale_keywords ->
  Str.contains kw (Str.lower raw_text) = true
  \/ Str.contains kw (Str.lower caption) = true ->
  tx_type_of (_extract_with_regex env raw_text caption) = Sale
  /\ categorize env' (_extract_with_regex env raw_text caption) = Some "sales".
Proof.
  intros Hin Hc.
  assert (E : _detect_type (raw_text ++ String Re.newline caption) = Sale).
  { apply detect_type_sale. exists kw. split; [assumption|].
    destruct Hc as [Hc|Hc].
    - apply (contains_context kw "" (Str.lower raw_text)
               (Str.lower (String Re.newline caption))) in Hc.
      simpl in Hc. now rewrite lower_append.
    - apply (contains_context kw (Str.lower raw_text ++ String Re.newline "")
               (Str.lower caption) "") in Hc.
      rewrite StrFacts.append_nil_r, StrFacts.append_assoc in Hc.
      now rewrite lower_append. }
  assert (T : tx_type_of (_extract_with_regex env raw_text caption) = Sale).
  { unfold _extract_with_regex. cbn [tx_type_of]. exact E. }
  split; [exact T|]. unfold categorize. now rewrite T.
Qed.

Lemma sale_keyword_decides_witness :
  tx_type_of (_extract_with_regex Sample.env Sample.gas_receipt
                "para a venda de amanha") = Sale
  /\ categorize Sample.env
       (_extract_with_regex Sample.env Sample.gas_receipt
          "para a venda de amanha") = Some "sales".
Proof.
  apply (sale_keyword_decides Sample.env Sample.env Sample.gas_receipt
           "para a venda de amanha" "venda");
    [simpl; tauto | right; reflexivity].
Defined.

Lemma match_rules_in_range (rules : list (string * string)) (text c : string) :
  match_rules_in rules text = Some c -> In c (map snd rules).
Proof.
  induction rules as [|[kw c'] rules IH]; simpl; [discriminate|].
  destruct (Str.contains kw text); [intros [= <-]; auto | auto].
Qed.

Lemma match_rules_in_none (rules : list (string * string)) (text : string) :
  match_rules_in rules text = None
  <-> forall kw, In kw (map fst rules) -> Str.contains kw text = false.
Proof.
  induction rules as [|[kw c] rules IH]; simpl.
  - split; [intros _ ? [] | reflexivity].
  - destruct (Str.contains kw text) eqn:E.
    + split; [discriminate|]. intros H.
      rewrite (H kw) in E by auto. discriminate.
    + rewrite IH. split.
      * intros H k [<-|Hin]; auto.
      * intros H k Hin. auto.
Qed.

Lemma rule_categories_valid :
  forall c, In c (map snd Config.CATEGORY_RULES) ->
            In c valid_categories /\ c <> "other" /\ c <> "".
Proof.
  assert (H : forallb (fun c => mem c valid_categories
                                && negb (c =? "other")%string
                                && negb (c =? "")%string)
                      (map snd Config.CATEGORY_RULES) = true)
    by reflexivity.
  rewrite forallb_forall in H. intros c Hin. specialize (H c Hin).
  apply andb_prop in H as [H H3]. apply andb_prop in H as [H1 H2].
  apply (proj1 (mem_In _ _)) in H1.
  apply negb_true_iff, String.eqb_neq in H2.
  apply negb_true_iff, String.eqb_neq in H3. auto.
Qed.

(** X9. Whatever the transaction, the rule table and the reply of the
    language model, the category that [categorize] returns is one of the
    fourteen categories of the closed list. *)
Theorem categorize_in_closed_list (env : Env) (tx : Transaction) (c : string) :
  categorize env tx = Some c -> In c valid_categories.
Proof.
  unfold categorize. destruct (tx_type_of tx).
  - intros [= <-]. simpl. tauto.
  - destruct (_match_rules (searchable tx)) as [r|] eqn:E.
    + rewrite (match_rules_nonempty _ _ E). intros [= <-].
      apply rule_categories_valid, (match_rules_in_range _ _ _ E).
    + cbn [nonempty]. destruct (llm env) as [svc|].
      * unfold _categorize_with_llm.
        destruct (llm_category svc _) as [content|]; [|discriminate].
        destruct (mem (Str.lower (Str.strip content)) valid_categories)
          eqn:M; intros [= <-];
          [exact (proj1 (mem_In _ _) M) | simpl; tauto].
      * intros [= <-]. simpl. tauto.
Qed.

Lemma categorize_in_closed_list_witness :
  In "transport" valid_categories.
Proof.
  apply (categorize_in_closed_list Sample.env
           (MkTx "2026-11-04" 50 [] Expense "Gasto" "gasto 50") "transport").
  reflexivity.
Defined.

(** X10. Without a language model, an expense written in the ASCII
    range falls under "other" exactly when none of the keywords of the
    rule table occurs in its searchable text: "other" is never the answer
    of a rule. *)
Theorem categorize_other_iff (env : Env) (tx : Transaction) :
  ascii_tx tx ->
  tx_type_of tx = Expense -> llm env = None ->
  (categorize env tx = Some "other"
   <-> forall kw, In kw rule_keywords ->
                  Str.contains kw (searchable tx) = false).
Proof.
  intros _ Hty Hllm. unfold categorize, rule_keywords. rewrite Hty, Hllm.
  unfold _match_rules in *. rewrite <- match_rules_in_none.
  destruct (match_rules_in Config.CATEGORY_RULES (searchable tx)) as [c|] eqn:E.
  - rewrite (match_rules_nonempty _ _ E).
    apply match_rules_in_range, rule_categories_valid in E as (_ & Hne & _).
    split; [intros [= ->]; contradiction | discriminate].
  - simpl. tauto.
Qed.

Lemma categorize_other_iff_witness :
  categorize Sample.env (MkTx "2026-11-04" 50 [] Expense "Despesa" "despesa 50")
  = Some "other"
  <-> forall kw, In kw rule_keywords ->
                 Str.contains kw
                   (searchable (MkTx "2026-11-04" 50 [] Expense "Despesa"
                                     "despesa 50")) = false.
Proof.
  apply (categorize_other_iff Sample.env
           (MkTx "2026-11-04" 50 [] Expense "Despesa" "despesa 50"));
    [repeat split; constructor | reflexivity | reflexivity].
Defined.

Lemma searchable_lower (tx : Transaction) :
  searchable tx
  = Str.join " " [ Str.lower (tx_description tx); Str.lower (tx_raw_text tx);
                   Str.join " " (map (fun i => Str.lower (name i))
                                     (tx_items tx)) ].
Proof.
  unfold searchable. rewrite lower_join. cbn [map].
  rewrite lower_join, map_map. reflexivity.
Qed.

(** X11. The category does not depend on the case of the letters:
    transactions of the same type whose description, receipt text and
    item names agree once put in lower case get the same category, from
    the rules and from the language model alike. *)
Theorem categorize_ignores_case (env : Env) (a b : Transaction) :
  same_modulo_case a b -> categorize env a = categorize env b.
Proof.
  intros (Hty & Hd & Hr & Hi).
  assert (E : searchable a = searchable b)
    by (rewrite !searchable_lower, Hd, Hr, Hi; reflexivity).
  unfold categorize. now rewrite Hty, E.
Qed.

Lemma categorize_ignores_case_witness :
  categorize Sample.env
    (MkTx "2026-11-04" 80 [MkItem "Gasolina" 1 80] Expense "POSTO" "Posto BR")
  = categorize Sample.env
      (MkTx "2026-11-04" 80 [MkItem "GASOLINA" 1 80] Expense "posto" "POSTO br").
Proof.
  apply (categorize_ignores_case Sample.env).
  repeat split; reflexivity.
Defined.

End KindFacts.

(* ------------------------------------------------------------------ *)
(** ** summarizer.py: amounts in Brazilian Real *)

Module FormatFacts.

Import Re StrFacts NumFacts QuickEntryFacts AmountFacts SignFacts.
Import CalendarFacts Notions Summarizer Extractor.

Lemma replace1_app (o : ascii) (new a b : string) :
  Str.replace (String o "") new (a ++ b)
  = (Str.replace (String o "") new a ++ Str.replace (String o "") new b)%string.
Proof.
  induction a as [|c a IH]; [reflexivity|].
  cbn [append]. rewrite !replace1_cons, IH.
  destruct (Ascii.eqb o c); [now rewrite append_assoc | reflexivity].
Qed.

Lemma swapped_app (a b : string) :
  swapped (a ++ b) = (swapped a ++ swapped b)%string.
Proof. unfold swapped. now rewrite !replace1_app. Qed.

Lemma swapped_digit (c : ascii) :
  Str.is_digit c = true -> swapped (String c "") = String c "".
Proof.
  intros Hc. unfold swapped.
  rewrite replace1_cons, (digit_not "," c) by (auto; reflexivity).
  rewrite replace1_nil, replace1_cons, (digit_not "." c)
    by (auto; reflexivity).
  rewrite replace1_nil, replace1_cons, (digit_not "X" c)
    by (auto; reflexivity).
  reflexivity.
Qed.

Lemma swapped_cons (c : ascii) (t : string) :
  Str.is_digit c = true -> swapped (String c t) = String c (swapped t).
Proof.
  intros Hc. change (String c t) with (String c "" ++ t)%string.
  now rewrite swapped_app, swapped_digit.
Qed.

Lemma swapped_digits (ds : string) :
  Num.all_digits ds = true -> swapped ds = ds.
Proof.
  induction ds as [|c ds IH]; [reflexivity|]. cbn [Num.all_digits].
  intros H. apply andb_prop in H as [Hc Hd].
  now rewrite swapped_cons, IH.
Qed.

(** The separators of the groups of three become dots. *)
Lemma swapped_group3 (ds : string) :
  Num.all_digits ds = true -> swapped (group3 "," ds) = group3 "." ds.
Proof.
  induction ds as [|c ds IH]; [reflexivity|]. cbn [Num.all_digits group3].
  intros H. apply andb_prop in H as [Hc Hd].
  rewrite swapped_cons by assumption. f_equal.
  destruct (negb (String.length ds =? 0)%nat
            && (String.length ds mod 3 =? 0)%nat).
  - rewrite swapped_app, IH by assumption. reflexivity.
  - now apply IH.
Qed.

Lemma uint_digits (u : Decimal.uint) :
  Num.all_digits (NilEmpty.string_of_uint u) = true.
Proof. induction u; simpl; auto. Qed.

Lemma of_nat_digits (n : nat) : Num.all_digits (Str.of_nat n) = true.
Proof. apply uint_digits. Qed.

Lemma pad2_digits (n : Z) : Num.all_digits (Date.pad2 n) = true.
Proof.
  unfold Date.pad2. cbn [Num.all_digits].
  rewrite (proj1 (digit_char_digit _ (digit_range n 10))).
  rewrite (proj1 (digit_char_digit _ (digit_range0 n))).
  reflexivity.
Qed.

Lemma swapped_sign (value : Q) : swapped (sign_of value) = sign_of value.
Proof. unfold sign_of. destruct (value ?= 0)%Q; reflexivity. Qed.

(** The formatted number before and after the exchange of its commas
    and dots. *)
Lemma swapped_number (value : Q) :
  swapped (format_grouped value)
  = (sign_of value
     ++ group3 "." (Str.of_nat (Z.to_nat (cents value / 100)))
     ++ "," ++ Date.pad2 (cents value mod 100))%string.
Proof.
  unfold format_grouped. cbv zeta.
  rewrite !swapped_app, swapped_sign.
  rewrite swapped_group3 by apply of_nat_digits.
  rewrite (swapped_digits (Date.pad2 _)) by apply pad2_digits.
  reflexivity.
Qed.

(** X12. [_format_brl] writes an amount as "R$", a minus sign when the
    amount is negative, the integer part in groups of three digits
    separated by dots, a comma, and the two digits of the hundredths
    (rounded half to even): the exchange of commas and dots by way of the
    letter X never goes wrong, as the formatted number has no X. *)
Theorem format_brl_text (value : Q) : _format_brl value = brl_text value.
Proof.
  unfold _format_brl, brl_text, format_grouped. cbv zeta.
  fold (swapped ("R$" ++ sign_of value
                 ++ group3 "," (Str.of_nat (Z.to_nat (cents value / 100)))
                 ++ "." ++ Date.pad2 (cents value mod 100))).
  rewrite !swapped_app, swapped_sign.
  rewrite swapped_group3 by apply of_nat_digits.
  rewrite (swapped_digits (Date.pad2 _)) by apply pad2_digits.
  reflexivity.
Qed.

Lemma keep_app p (a b : string) :
  keep p (a ++ b) = (keep p a ++ keep p b)%string.
Proof.
  induction a as [|c a IH]; [reflexivity|]. simpl.
  destruct (p c); simpl; now rewrite IH.
Qed.

Lemma count_app c (a b : string) :
  count c (a ++ b) = (count c a + count c b)%nat.
Proof. induction a as [|x a IH]; simpl; [reflexivity|]. rewrite IH. lia. Qed.

Lemma digits_of_digits (ds : string) :
  Num.all_digits ds = true -> digits_of ds = ds.
Proof.
  unfold digits_of. induction ds as [|c ds IH]; simpl; [reflexivity|].
  intros H. apply andb_prop in H as [Hc Hd]. now rewrite Hc, IH.
Qed.

Lemma digit_plain (c : ascii) :
  Str.is_digit c = true ->
  money c = true /\ Ascii.eqb c "," = false.
Proof.
  destruct c as [[] [] [] [] [] [] [] []]; vm_compute; intros H;
    try discriminate; auto.
Qed.

Lemma digits_plain (ds : string) :
  Num.all_digits ds = true ->
  all money ds = true /\ count "," ds = 0%nat.
Proof.
  induction ds as [|c ds IH]; simpl; [auto|].
  intros H. apply andb_prop in H as [Hc Hd].
  destruct (digit_plain _ Hc) as [-> ->], (IH Hd) as [-> ->]. auto.
Qed.

(** The integer part as [_format_brl] writes it: a monetary token
    without a comma, whose digits are those of the number. *)
Lemma group3_token (ds : string) :
  Num.all_digits ds = true ->
  all money (group3 "." ds) = true
  /\ count "," (group3 "." ds) = 0%nat
  /\ digits_of (group3 "." ds) = ds.
Proof.
  unfold digits_of.
  induction ds as [|c ds IH]; [auto|]. cbn [Num.all_digits group3].
  intros H. apply andb_prop in H as [Hc Hd].
  destruct (IH Hd) as (Hm & Hn & Hk).
  destruct (digit_plain _ Hc) as [Hmc Hcc].
  cbn [all count keep]. rewrite Hmc, Hcc, Hc.
  destruct (negb (String.length ds =? 0)%nat
            && (String.length ds mod 3 =? 0)%nat).
  - cbn [append all count keep]. rewrite Hm, Hn, Hk. auto.
  - rewrite Hm, Hn, Hk. auto.
Qed.

Lemma after_app (a b : string) :
  count "," a = 0%nat -> after "," (a ++ "," ++ b) = b.
Proof.
  induction a as [|c a IH]; [reflexivity|]. simpl.
  destruct (Ascii.eqb c ","); [discriminate | exact IH].
Qed.

Lemma digits_acc_app (a b : string) : forall acc,
  Num.digits_acc acc (a ++ b) = Num.digits_acc (Num.digits_acc acc a) b.
Proof. induction a as [|c a IH]; intros acc; simpl; auto. Qed.

Lemma digits_acc_shift (s : string) : forall acc,
  Num.digits_acc acc s
  = (acc * Zpos (Num.pow10 (String.length s)) + Num.digits_value s)%Z.
Proof.
  unfold Num.digits_value.
  induction s as [|c s IH]; intros acc; cbn [Num.digits_acc String.length].
  - simpl. lia.
  - rewrite IH, (IH (10 * 0 + Num.digit_val c)%Z).
    change (Num.pow10 (S (String.length s)))
      with (10 * Num.pow10 (String.length s))%positive.
    lia.
Qed.

Lemma uint_value (u : Decimal.uint) : forall acc,
  Num.digits_acc (Z.of_nat acc) (NilEmpty.string_of_uint u)
  = Z.of_nat (Nat.of_uint_acc u acc).
Proof.
  induction u; intros acc; cbn [NilEmpty.string_of_uint Num.digits_acc
                                 Nat.of_uint_acc];
    [reflexivity
    | rewrite <- IHu; f_equal; rewrite Nat.tail_mul_spec;
      match goal with
      | |- context [Num.digit_val ?c] =>
          let v := eval vm_compute in (Num.digit_val c) in
          change (Num.digit_val c) with v
      end; lia ..].
Qed.

Lemma of_nat_value (n : nat) :
  Num.digits_value (Str.of_nat n) = Z.of_nat n.
Proof.
  unfold Num.digits_value, Str.of_nat.
  rewrite (uint_value _ 0). unfold Nat.of_uint in *.
  f_equal. apply DecimalNat.Unsigned.of_to.
Qed.

Lemma pad2_value (m : Z) :
  (0 <= m < 100)%Z -> Num.digits_value (Date.pad2 m) = m.
Proof.
  intros H. unfold Num.digits_value, Date.pad2. cbn [Num.digits_acc].
  rewrite (proj2 (digit_char_digit _ (digit_range m 10))).
  rewrite (proj2 (digit_char_digit _ (digit_range0 m))).
  Z.div_mod_to_equations. lia.
Qed.

Lemma round_half_even_nonneg (q : Q) :
  (0 <= q)%Q -> (0 <= round_half_even q)%Z.
Proof.
  intros H. unfold round_half_even.
  assert (0 <= Qfloor q)%Z.
  { change 0%Z with (Qfloor 0). now apply Qfloor_resp_le. }
  destruct (q - inject_Z (Qfloor q) ?= 1 # 2)%Q; try lia.
  destruct (Z.even (Qfloor q)); lia.
Qed.

Lemma cents_nonneg (value : Q) : (0 <= cents value)%Z.
Proof.
  apply round_half_even_nonneg.
  apply Qmult_le_0_compat; [apply Qabs_nonneg | discriminate].
Qed.

Lemma round_half_even_comp (p q : Q) :
  (p == q)%Q -> round_half_even p = round_half_even q.
Proof.
  intros E. unfold round_half_even.
  rewrite (Qfloor_comp _ _ E).
  assert (E' : (p - inject_Z (Qfloor q) == q - inject_Z (Qfloor q))%Q)
    by now rewrite E.
  now rewrite (Qcompare_comp _ _ E' _ _ (Qeq_refl _)).
Qed.

Lemma round_half_even_Z (n : Z) : round_half_even (inject_Z n) = n.
Proof.
  unfold round_half_even. rewrite Qfloor_Z.
  assert (E : (inject_Z n - inject_Z n == 0)%Q) by ring.
  now rewrite (Qcompare_comp _ _ E _ _ (Qeq_refl _)).
Qed.

(** The hundredths of an amount of whole cents. *)
Lemma cents_decimal (n : Z) :
  (0 <= n)%Z -> cents (Num.decimal n 2) = n.
Proof.
  intros H. unfold cents.
  rewrite <- (round_half_even_Z n) at 2. apply round_half_even_comp.
  rewrite Qabs_pos by now apply decimal_nonneg.
  unfold Num.decimal. rewrite Qred_correct.
  unfold Qeq, Qmult, inject_Z. simpl. lia.
Qed.

Lemma sign_nonneg (value : Q) : (0 <= value)%Q -> sign_of value = "".
Proof.
  unfold sign_of. intros H.
  destruct (value ?= 0)%Q eqn:E; try reflexivity.
  apply Qlt_alt in E. apply Qle_not_lt in H. contradiction.
Qed.

Lemma strip_currency (token : string) :
  all money token = true -> Str.replace "R$" "" ("R$" ++ token) = token.
Proof. intros H. exact (money_unsigned _ H). Qed.

Lemma parse_formatted (value : Q) :
  (0 <= value)%Q ->
  _parse_brazilian_number (_format_brl value)
  = Some (Num.decimal (cents value) 2).
Proof.
  intros Hv.
  change (_format_brl value)
    with (swapped ("R$" ++ format_grouped value)).
  rewrite swapped_app, swapped_number.
  change (swapped "R$") with "R$".
  rewrite (sign_nonneg _ Hv).
  set (c := cents value).
  set (ds := Str.of_nat (Z.to_nat (c / 100))).
  assert (Hc : (0 <= c)%Z) by apply cents_nonneg.
  assert (Hds : Num.all_digits ds = true) by apply of_nat_digits.
  destruct (group3_token ds Hds) as (Gm & Gc & Gd).
  destruct (digits_plain _ (pad2_digits (c mod 100))) as (Pm & Pc).
  set (token := (group3 "." ds ++ "," ++ Date.pad2 (c mod 100))%string).
  assert (Hm : all money token = true).
  { unfold token. rewrite all_app, Gm. cbn [append all]. now rewrite Pm. }
  change (_parse_brazilian_number ("R$" ++ token) = Some (Num.decimal c 2)).
  unfold _parse_brazilian_number.
  rewrite (strip_currency _ Hm), (money_unspaced _ Hm), (money_stripped _ Hm).
  change (Num.float_of_string (dotted token) = Some (Num.decimal c 2)).
  rewrite (float_dotted_token _ Hm). unfold brazilian_value.
  assert (Hcount : count "," token = 1%nat).
  { unfold token. rewrite count_app, Gc. cbn [append count].
    rewrite Pc. reflexivity. }
  assert (Hafter : after "," token = Date.pad2 (c mod 100))
    by (apply after_app, Gc).
  assert (Hdig : digits_of token = (ds ++ Date.pad2 (c mod 100))%string).
  { unfold token, digits_of in *. rewrite keep_app, Gd. cbn [append keep].
    change (keep Str.is_digit (Date.pad2 (c mod 100)))
      with (digits_of (Date.pad2 (c mod 100))).
    now rewrite (digits_of_digits _ (pad2_digits _)). }
  rewrite Hcount, Hafter, Hdig, (digits_of_digits _ (pad2_digits _)).
  assert (Hne : ((ds ++ Date.pad2 (c mod 100)) =? "")%string = false).
  { rewrite eqb_empty_length, length_append. apply Nat.eqb_neq.
    unfold Date.pad2. simpl. lia. }
  rewrite Hne. cbn [Nat.leb andb negb]. do 2 f_equal.
  unfold Num.digits_value. rewrite digits_acc_app.
  fold (Num.digits_value ds). unfold ds. rewrite of_nat_value.
  rewrite digits_acc_shift, pad2_value
    by (apply Z.mod_pos_bound; lia).
  rewrite Z2Nat.id by (apply Z.div_pos; lia).
  change (Z.pos (Num.pow10 (String.length (Date.pad2 (c mod 100)))))
    with 100%Z.
  pose proof (Z.div_mod c 100). lia.
Qed.

(** X13. What [_format_brl] writes, [_parse_brazilian_number] reads
    back: for an amount that is not negative the reading is the amount
    rounded to the hundredth, and an amount of whole cents comes back as
    it is. *)
Theorem format_parse_round_trip :
  (forall value,
     (0 <= value)%Q ->
     _parse_brazilian_number (_format_brl value)
     = Some (Num.decimal (cents value) 2))
  /\ (forall n,
        (0 <= n)%Z ->
        _parse_brazilian_number (_format_brl (Num.decimal n 2))
        = Some (Num.decimal n 2)).
Proof.
  split; [exact parse_formatted|].
  intros n Hn. rewrite parse_formatted by now apply decimal_nonneg.
  now rewrite cents_decimal.
Qed.

Lemma format_parse_round_trip_witness :
  _parse_brazilian_number (_format_brl (1 # 8))
  = Some (Num.decimal (cents (1 # 8)) 2)
  /\ _parse_brazilian_number (_format_brl (Num.decimal 123456 2))
     = Some (Num.decimal 123456 2).
Proof.
  split.
  - apply (proj1 format_parse_round_trip (1 # 8)%Q). discriminate.
  - apply (proj2 format_parse_round_trip 123456%Z). discriminate.
Defined.

End FormatFacts.

(* ------------------------------------------------------------------ *)
(** ** ledger.py: the figures of [summary_stats] *)

Module FigureFacts.

Import Ledger Spec Notions ItemsFacts StatsFacts.

Lemma count_of_total (entries : list Entry) :
  count_of Sale entries + count_of Expense entries = List.length entries.
Proof.
  unfold count_of. induction entries as [|e entries IH]; [reflexivity|].
  simpl. destruct (e_type e); simpl; lia.
Qed.

(** Adding up the entries of one type is adding up the list of these
    entries. *)
Lemma total_of_type (add : Q -> Q -> Q) (ty : tx_type)
    (entries : list Entry) : forall acc,
  fold_left (fun acc e =>
               if tx_type_eqb (e_type e) ty then add acc (e_total e)
               else acc)
            entries acc
  = fold_left (fun acc e => add acc (e_total e)) (of_type ty entries) acc.
Proof.
  unfold of_type.
  induction entries as [|e entries IH]; intros acc; simpl; [reflexivity|].
  destruct (tx_type_eqb (e_type e) ty); simpl; apply IH.
Qed.

(** X14. The figures of [summary_stats], whatever the sums of the floats
    round to: every entry is counted once, as a sale or as an expense;
    the sales are the totals of the sale entries added up in the order
    of the ledger, from [0.0], the expenses those of the other entries;
    the profit is the sales less the expenses. *)
Theorem summary_stats_add_up (add sub : Q -> Q -> Q) (times : Z -> Q -> Q)
    (entries : list Entry) :
  let stats := Tally.summary_stats add sub times entries in
  num_sales stats = List.length (of_type Sale entries)
  /\ num_expenses stats = List.length (of_type Expense entries)
  /\ num_sales stats + num_expenses stats = List.length entries
  /\ total_sales stats = total_of add (of_type Sale entries)
  /\ total_expenses stats = total_of add (of_type Expense entries)
  /\ profit stats = sub (total_sales stats) (total_expenses stats).
Proof.
  unfold Tally.summary_stats.
  cbn [num_sales num_expenses total_sales total_expenses profit].
  rewrite num_sales_fold, num_expenses_fold, total_sales_fold,
    total_expenses_fold, !total_of_type.
  cbn [Tally.start Tally.num_sales Tally.num_expenses Tally.total_sales
       Tally.total_expenses Nat.add].
  repeat split. apply count_of_total.
Qed.

(** *** The dictionary of the categories *)

Lemma category_total_snoc c entries e :
  category_total c (entries ++ [e])
  = if (e_category e =? c)%string
    then Num.add (category_total c entries) (e_total e)
    else category_total c entries.
Proof. unfold category_total. rewrite fold_left_app. reflexivity. Qed.

Lemma category_total_absent c entries :
  ~ In c (map e_category entries) -> category_total c entries = 0%Q.
Proof.
  induction entries as [|e entries IH] using rev_ind; [reflexivity|].
  rewrite map_app, in_app_iff, category_total_snoc. simpl. intros H.
  destruct (e_category e =? c)%string eqn:E.
  - apply String.eqb_eq in E. tauto.
  - apply IH. tauto.
Qed.

Lemma category_add_present entries e : forall keys,
  In (e_category e) keys -> NoDup keys ->
  dict_add (e_category e) (e_total e)
    (map (fun c => (c, category_total c entries)) keys)
  = map (fun c => (c, category_total c (entries ++ [e]))) keys.
Proof.
  induction keys as [|k keys IH]; intros Hin Hnd; [destruct Hin|].
  inversion Hnd as [|? ? Hk Hnd']; subst. simpl.
  rewrite category_total_snoc.
  destruct (k =? e_category e)%string eqn:E.
  - apply String.eqb_eq in E. subst k.
    rewrite String.eqb_refl. f_equal.
    apply map_ext_in. intros n Hn. rewrite category_total_snoc.
    destruct (e_category e =? n)%string eqn:E'; [|reflexivity].
    apply String.eqb_eq in E'. subst n. contradiction.
  - rewrite String.eqb_sym, E. f_equal.
    apply IH; [|assumption].
    destruct Hin as [->|Hin]; [|assumption].
    rewrite String.eqb_refl in E. discriminate.
Qed.

Lemma category_add_absent entries e : forall keys,
  ~ In (e_category e) keys ->
  dict_add (e_category e) (e_total e)
    (map (fun c => (c, category_total c entries)) keys)
  = map (fun c => (c, category_total c (entries ++ [e]))) keys
    ++ [(e_category e, Num.add 0 (e_total e))].
Proof.
  induction keys as [|k keys IH]; intros Hn; [reflexivity|].
  simpl in *. destruct (k =? e_category e)%string eqn:E.
  - apply String.eqb_eq in E. tauto.
  - rewrite category_total_snoc, String.eqb_sym, E.
    f_equal. apply IH. tauto.
Qed.

Lemma by_category_rows : forall entries,
  fold_left (fun d e => dict_add (e_category e) (e_total e) d) entries []
  = map (fun c => (c, category_total c entries))
        (firsts (map e_category entries)).
Proof.
  induction entries as [|e entries IH] using rev_ind; [reflexivity|].
  rewrite fold_left_app, IH, map_app. simpl. rewrite firsts_snoc.
  destruct (mem (e_category e) (firsts (map e_category entries))) eqn:E.
  - apply mem_In in E. apply category_add_present; [assumption|].
    apply firsts_NoDup.
  - apply mem_not_In in E. rewrite category_add_absent by assumption.
    rewrite map_app. simpl. f_equal.
    rewrite category_total_snoc, String.eqb_refl.
    rewrite category_total_absent; [reflexivity|].
    now rewrite <- firsts_In.
Qed.

(** X15. The breakdown by category of [summary_stats] has one row for
    each category of the entries, in the order in which the categories
    first appear, and the amount of a row is what the entries of that
    category come to. *)
Theorem by_category_spec (entries : list Entry) :
  map fst (by_category (summary_stats entries))
  = firsts (map e_category entries)
  /\ NoDup (map fst (by_category (summary_stats entries)))
  /\ (forall c, In c (map e_category entries)
                <-> In c (map fst (by_category (summary_stats entries))))
  /\ (forall c amount,
        In (c, amount) (by_category (summary_stats entries)) ->
        amount = category_total c entries).
Proof.
  unfold summary_stats. cbn [by_category]. rewrite by_category_rows.
  assert (E : map fst (map (fun c => (c, category_total c entries))
                           (firsts (map e_category entries)))
              = firsts (map e_category entries)).
  { rewrite map_map. simpl. apply map_id. }
  rewrite E. split; [reflexivity|].
  split; [apply firsts_NoDup|].
  split; [intros c; symmetry; apply firsts_In|].
  intros c amount Hin. apply in_map_iff in Hin as (k & [= <- <-] & _).
  reflexivity.
Qed.

End FigureFacts.

(* ------------------------------------------------------------------ *)
(** ** ledger.py: the bounds of [get_entries] *)

Module RangeFacts.

Import Ledger.

Lemma code_inj (a b : ascii) : Str.code a = Str.code b -> a = b.
Proof.
  unfold Str.code. intros H.
  rewrite <- (ascii_nat_embedding a), <- (ascii_nat_embedding b).
  now rewrite H.
Qed.

Lemma leb_nil (t : string) : Str.leb "" t = true.
Proof. destruct t; reflexivity. Qed.

Lemma leb_cons (x y : ascii) (a b : string) :
  Str.leb (String x a) (String y b)
  = match Nat.compare (Str.code x) (Str.code y) with
    | Eq => Str.leb a b
    | Lt => true
    | Gt => false
    end.
Proof.
  unfold Str.leb. simpl.
  destruct (Nat.compare (Str.code x) (Str.code y)); reflexivity.
Qed.

Lemma leb_refl (s : string) : Str.leb s s = true.
Proof.
  induction s as [|c s IH]; [reflexivity|].
  now rewrite leb_cons, Nat.compare_refl.
Qed.

Lemma leb_trans (a : string) : forall b c,
  Str.leb a b = true -> Str.leb b c = true -> Str.leb a c = true.
Proof.
  induction a as [|x a IH]; intros b c Hab Hbc; [apply leb_nil|].
  destruct b as [|y b]; [discriminate|].
  destruct c as [|z c]; [discriminate|].
  rewrite leb_cons in *.
  destruct (Nat.compare_spec (Str.code x) (Str.code y)) as [E1|L1|G1];
    try discriminate;
    destruct (Nat.compare_spec (Str.code y) (Str.code z)) as [E2|L2|G2];
    try discriminate;
    destruct (Nat.compare_spec (Str.code x) (Str.code z)) as [E3|L3|G3];
    try reflexivity; try lia.
  eauto.
Qed.

Lemma leb_antisym (a : string) : forall b,
  Str.leb a b = true -> Str.leb b a = true -> a = b.
Proof.
  induction a as [|x a IH]; intros [|y b] Hab Hba;
    try reflexivity; try discriminate.
  rewrite leb_cons in *.
  destruct (Nat.compare_spec (Str.code x) (Str.code y)) as [E1|L1|G1];
    try discriminate;
    destruct (Nat.compare_spec (Str.code y) (Str.code x)) as [E2|L2|G2];
    try discriminate; try lia.
  apply code_inj in E1. subst y. f_equal. auto.
Qed.

Lemma bound_given (s : string) : s <> "" -> bound (Some s) = Some s.
Proof.
  intros H. simpl. destruct (s =? "")%string eqn:E; [|reflexivity].
  apply String.eqb_eq in E. contradiction.
Qed.

(** X16. Asking [get_entries] for one day, the same date as start and
    as end, answers the entries of the ledger that carry exactly that
    date, in the order of the ledger; but with the empty string as a
    date the bounds are dropped and the whole ledger is answered. *)
Theorem get_entries_one_day (d : string) (f : store) :
  (d <> "" ->
   get_entries (Some d) (Some d) f
   = filter (fun e => (e_date e =? d)%string) (_load f))
  /\ get_entries (Some "") (Some "") f = _load f.
Proof.
  split; [|reflexivity].
  intros Hd. unfold get_entries. rewrite !(bound_given _ Hd).
  rewrite CalendarFacts.filter_filter. apply filter_ext. intros e.
  unfold Str.geb.
  destruct (e_date e =? d)%string eqn:E.
  - apply String.eqb_eq in E. rewrite E, leb_refl. reflexivity.
  - destruct (Str.leb d (e_date e)) eqn:L1; [|reflexivity].
    destruct (Str.leb (e_date e) d) eqn:L2; [|reflexivity].
    apply String.eqb_neq in E. exfalso. apply E.
    now apply leb_antisym.
Qed.

Lemma get_entries_one_day_witness :
  get_entries (Some "2026-11-03") (Some "2026-11-03") (Some Sample.week)
  = filter (fun e => (e_date e =? "2026-11-03")%string)
           (_load (Some Sample.week)).
Proof.
  apply (proj1 (get_entries_one_day "2026-11-03" (Some Sample.week))).
  discriminate.
Defined.

Lemma get_entries_In (s e : string) (f : store) (x : Entry) :
  s <> "" -> e <> "" ->
  (In x (get_entries (Some s) (Some e) f)
   <-> In x (_load f) /\ Str.leb s (e_date x) = true
       /\ Str.leb (e_date x) e = true).
Proof.
  intros Hs He. unfold get_entries.
  rewrite (bound_given _ Hs), (bound_given _ He).
  rewrite !filter_In. unfold Str.geb. tauto.
Qed.

(** X17. The bounds of [get_entries] are compared as texts: with a
    start that comes after the end the answer is empty, and a range that
    lies within another answers no entry that the other does not. *)
Theorem get_entries_ranges (s e : string) (f : store) :
  s <> "" -> e <> "" ->
  (Str.leb s e = false -> get_entries (Some s) (Some e) f = [])
  /\ (forall s' e',
        s' <> "" -> e' <> "" ->
        Str.leb s' s = true -> Str.leb e e' = true ->
        incl (get_entries (Some s) (Some e) f)
             (get_entries (Some s') (Some e') f)).
Proof.
  intros Hs He. split.
  - intros Hse.
    destruct (get_entries (Some s) (Some e) f) as [|x l] eqn:E;
      [reflexivity|].
    assert (Hin : In x (get_entries (Some s) (Some e) f))
      by (rewrite E; left; reflexivity).
    apply get_entries_In in Hin as (_ & L1 & L2); try assumption.
    rewrite (leb_trans _ _ _ L1 L2) in Hse. discriminate.
  - intros s' e' Hs' He' L1 L2 x Hin.
    apply get_entries_In in Hin as (Hx & M1 & M2); try assumption.
    apply get_entries_In; try assumption.
    eauto using leb_trans.
Qed.

Lemma get_entries_ranges_witness :
  (Str.leb "2026-11-04" "2026-11-02" = false ->
   get_entries (Some "2026-11-04") (Some "2026-11-02") (Some Sample.week)
   = [])
  /\ (forall s' e',
        s' <> "" -> e' <> "" ->
        Str.leb s' "2026-11-04" = true -> Str.leb "2026-11-02" e' = true ->
        incl (get_entries (Some "2026-11-04") (Some "2026-11-02")
                (Some Sample.week))
             (get_entries (Some s') (Some e') (Some Sample.week))).
Proof.
  apply (get_entries_ranges "2026-11-04" "2026-11-02" (Some Sample.week));
    discriminate.
Defined.

End RangeFacts.

(* ------------------------------------------------------------------ *)
(** ** summarizer.py: the recommendation *)

Module AdviceFacts.

Import Ledger Spec Notions Summarizer ItemsFacts StatsFacts FigureFacts.

Lemma Qlt_bool_iff (a b : Q) : Qlt_bool a b = true <-> (a < b)%Q.
Proof.
  unfold Qlt_bool. rewrite negb_true_iff. split.
  - intros H. apply Qnot_le_lt. intros L.
    apply Qle_bool_iff in L. congruence.
  - intros H. destruct (Qle_bool b a) eqn:E; [|reflexivity].
    apply Qle_bool_iff in E. apply Qlt_not_le in H. contradiction.
Qed.

Lemma Qle_bool_false (a b : Q) : Qle_bool a b = false -> (b < a)%Q.
Proof.
  intros H. apply Qnot_le_lt. intros L. apply Qle_bool_iff in L. congruence.
Qed.

(** [max] finds the first of the greatest: what comes before it is
    smaller, what comes after it is not greater. *)
Lemma max_from_spec (l : list (string * Q)) : forall best,
  exists l1 l2,
    best :: l = l1 ++ max_from best l :: l2
    /\ (forall x, In x l1 -> (snd x < snd (max_from best l))%Q)
    /\ (forall x, In x l2 -> (snd x <= snd (max_from best l))%Q)
    /\ (snd best <= snd (max_from best l))%Q.
Proof.
  induction l as [|x l IH]; intros best.
  - exists [], []. simpl. repeat split; try (intros ? []). apply Qle_refl.
  - cbn [max_from]. destruct (Qle_bool (snd x) (snd best)) eqn:E.
    + apply Qle_bool_iff in E.
      destruct (IH best) as (l1 & l2 & Hd & H1 & H2 & Hb).
      destruct l1 as [|y l1].
      * simpl in Hd. injection Hd as Hm Hl. exists [], (x :: l2).
        rewrite <- Hm in *. subst l.
        split; [reflexivity|]. split; [intros ? []|].
        split; [|apply Qle_refl].
        intros z [<-|Hz]; auto.
      * simpl in Hd. injection Hd as Hy Hl. subst y.
        exists (best :: x :: l1), l2.
        split; [simpl; do 2 f_equal; exact Hl|].
        split; [|split; assumption].
        intros z [<-|[<-|Hz]].
        -- apply H1, in_eq.
        -- eapply Qle_lt_trans; [exact E | apply H1, in_eq].
        -- apply H1, in_cons, Hz.
    + apply Qle_bool_false in E.
      destruct (IH x) as (l1 & l2 & Hd & H1 & H2 & Hb).
      exists (best :: l1), l2. rewrite Hd. simpl.
      repeat split; auto.
      * intros z [<-|Hz]; auto.
        eapply Qlt_le_trans; eassumption.
      * apply Qlt_le_weak. eapply Qlt_le_trans; eassumption.
Qed.

Lemma top_expense_spec (d : list (string * Q)) :
  expense_cats d <> [] ->
  exists row l1 l2,
    top_expense d = Some row
    /\ expense_cats d = l1 ++ row :: l2
    /\ (forall x, In x l1 -> (snd x < snd row)%Q)
    /\ (forall x, In x l2 -> (snd x <= snd row)%Q).
Proof.
  unfold top_expense. destruct (expense_cats d) as [|x t]; [congruence|].
  intros _. destruct (max_from_spec t x) as (l1 & l2 & Hd & H1 & H2 & _).
  exists (max_from x t), l1, l2. auto.
Qed.

Lemma expense_cats_In (d : list (string * Q)) (c : string) (a : Q) :
  In (c, a) (expense_cats d) <-> In (c, a) d /\ c <> "sales".
Proof.
  unfold expense_cats. rewrite filter_In. simpl.
  rewrite orb_false_r, negb_true_iff, String.eqb_neq. reflexivity.
Qed.

(** X18. When the sales cover the expenses, the profit is above zero
    and the breakdown by category has a row outside the revenue
    category, the recommendation names the greatest expense: a row of
    the breakdown that is not "sales", whose amount no other such row
    exceeds, and the first such row in the order of the breakdown when
    several share that amount.  The statistics are any: only their
    figures are compared, and no sum is made. *)
Theorem advice_names_top_expense (stats : Stats) :
  (total_expenses stats <= total_sales stats)%Q ->
  (0 < profit stats)%Q ->
  (exists category amount,
     In (category, amount) (by_category stats) /\ category <> "sales") ->
  exists category amount l1 l2,
    _generate_action stats = advice_expense category amount
    /\ In (category, amount) (by_category stats)
    /\ category <> "sales"
    /\ expense_cats (by_category stats) = l1 ++ (category, amount) :: l2
    /\ (forall x, In x l1 -> (snd x < amount)%Q)
    /\ (forall x, In x l2 -> (snd x <= amount)%Q).
Proof.
  intros Hle Hp (c0 & a0 & Hin0 & Hc0).
  assert (Hne : expense_cats (by_category stats) <> []).
  { assert (Hin : In (c0, a0) (expense_cats (by_category stats)))
      by (apply expense_cats_In; auto).
    intros E. rewrite E in Hin. destruct Hin. }
  destruct (top_expense_spec _ Hne) as ([c a] & l1 & l2 & Ht & Hd & H1 & H2).
  exists c, a, l1, l2.
  assert (Hrow : In (c, a) (expense_cats (by_category stats)))
    by (rewrite Hd; apply in_elt).
  apply expense_cats_In in Hrow as [Hrow Hcs].
  repeat split; auto.
  unfold _generate_action.
  assert (Hfirst : Qlt_bool (total_sales stats) (total_expenses stats)
                   = false).
  { destruct (Qlt_bool (total_sales stats) (total_expenses stats)) eqn:E;
      [|reflexivity].
    apply Qlt_bool_iff in E. exfalso.
    apply (Qlt_irrefl (total_sales stats)).
    eapply Qlt_le_trans; eassumption. }
  rewrite Hfirst. cbn [andb]. unfold action_otherwise.
  rewrite (proj2 (Qlt_bool_iff _ _) Hp), Ht. reflexivity.
Qed.

Lemma advice_names_top_expense_witness :
  exists category amount l1 l2,
    _generate_action
      (MkStats 100 50 50 1 2 [("sales", 100%Q); ("food", 20%Q); ("rent", 30%Q)]
               [])
    = advice_expense category amount
    /\ In (category, amount)
          [("sales", 100%Q); ("food", 20%Q); ("rent", 30%Q)]
    /\ category <> "sales"
    /\ expense_cats [("sales", 100%Q); ("food", 20%Q); ("rent", 30%Q)]
       = l1 ++ (category, amount) :: l2
    /\ (forall x, In x l1 -> (snd x < amount)%Q)
    /\ (forall x, In x l2 -> (snd x <= amount)%Q).
Proof.
  apply (advice_names_top_expense
           (MkStats 100 50 50 1 2
                    [("sales", 100%Q); ("food", 20%Q); ("rent", 30%Q)] [])).
  - discriminate.
  - reflexivity.
  - exists "food", 20%Q. split; [right; left; reflexivity | discriminate].
Defined.

End AdviceFacts.

(* ------------------------------------------------------------------ *)
(** ** whatsapp_sim.py: what a text message does to the ledger *)

Module MessageFacts.

Import Date CalendarFacts Ledger Spec Notions WhatsappSim DatedFacts.
Import WeekFacts ItemsFacts Replies.


Lemma clear_word (x : string) :
  mem x [ "limpar"; "reset"; "clear" ] = true ->
  mem x [ "resumo"; "resumo semanal"; "summary"; "weekly" ] = false.
Proof.
  intros H. apply mem_In in H.
  destruct H as [<-|[<-|[<-|[]]]]; reflexivity.
Qed.

(** X20. After a command to clear, the ledger answers nothing: every
    query by dates is empty, and a command for the summary (with a clock
    whose week ends within the calendar) gets the text that says that no
    transaction is recorded, whether a language model is configured or
    not. *)
Theorem clear_then_summary (env env' : Env) (clear summary : string)
    (f : store) :
  mem (Str.lower (Str.strip clear)) [ "limpar"; "reset"; "clear" ] = true ->
  mem (Str.lower (Str.strip summary))
      [ "resumo"; "resumo semanal"; "summary"; "weekly" ] = true ->
  valid (today env') = true -> week_in_calendar (today env') ->
  exists f',
    process_text_message env clear f = (Some Cleared, f')
    /\ (forall s e, get_entries s e f' = [])
    /\ process_text_message env' summary f' = (Some (Summary []), f')
    /\ (forall writer,
          render writer (Summary [])
          = Some (Summarizer.no_entries_message "Semanal")).
Proof.
  intros Hc Hs V Hcal. exists (Some []).
  split; [|split; [|split]].
  - unfold process_text_message. rewrite (clear_word _ Hc), Hc. reflexivity.
  - intros s e. unfold get_entries. cbn [_load].
    destruct (bound s), (bound e); reflexivity.
  - unfold process_text_message. rewrite Hs.
    unfold get_week_entries. cbn [bound].
    destruct (monday_of _ V) as (monday & Em & Vm & Om). rewrite Em.
    destruct (add_days_spec 6 monday Vm) as (sunday & Es & Vs & Os).
    { unfold week_in_calendar in Hcal. simpl. lia. }
    unfold add_days. change (Z.to_nat 6) with 6%nat. rewrite Es.
    reflexivity.
  - reflexivity.
Qed.

Lemma clear_then_summary_witness :
  exists f',
    process_text_message Sample.env " Limpar " (Some Sample.week)
    = (Some Cleared, f')
    /\ (forall s e, get_entries s e f' = [])
    /\ process_text_message Sample.env "RESUMO" f' = (Some (Summary []), f')
    /\ (forall writer,
          render writer (Summary [])
          = Some (Summarizer.no_entries_message "Semanal")).
Proof.
  apply (clear_then_summary Sample.env Sample.env " Limpar " "RESUMO"
           (Some Sample.week));
    [reflexivity | reflexivity | reflexivity | vm_compute; discriminate].
Defined.

End MessageFacts.

(* ------------------------------------------------------------------ *)
(** ** ocr.py: the simulated OCR *)

Module OcrFacts.

Import StrFacts TextFacts Ocr Notions.

Lemma basename_aux_plain (s : string) : forall cur,
  count "/" s = 0 -> basename_aux cur s = (cur ++ s)%string.
Proof.
  induction s as [|c s IH]; intros cur H; simpl.
  - now rewrite append_nil_r.
  - simpl in H. destruct (Ascii.eqb c "/"); [discriminate|].
    rewrite IH by exact H. now rewrite append_assoc.
Qed.

Lemma basename_aux_slash (a b : string) : forall cur,
  basename_aux cur (a ++ "/" ++ b) = basename_aux "" b.
Proof.
  induction a as [|c a IH]; intros cur; simpl.
  - reflexivity.
  - destruct (Ascii.eqb c "/"); apply IH.
Qed.

Lemma lower_slash (c : ascii) :
  Ascii.eqb (Str.lower_char c) "/" = Ascii.eqb c "/".
Proof. destruct c as [[] [] [] [] [] [] [] []]; reflexivity. Qed.

Lemma count_lower (s : string) : count "/" (Str.lower s) = count "/" s.
Proof.
  induction s as [|c s IH]; simpl; [reflexivity|].
  now rewrite lower_slash, IH.
Qed.

Lemma sample_keys :
  forall key text, In (key, text) samples ->
                   count "/" key = 0 /\ dict_get key samples = Some text.
Proof.
  intros key text H. unfold samples in H.
  repeat (destruct H as [[= <- <-]|H]; [split; reflexivity|]).
  destruct H.
Qed.

(** X21. The simulated OCR looks at the file name only, and not at the
    case of its letters: a file whose name, in lower case, is that of a
    sample gets the text of that sample, in whatever directory it lies.
    With no OCR engine installed, this is what [extract_text_from_image]
    returns for it when the file exists. *)
Theorem simulated_ocr_sample (env : Env) (dir file key text : string) :
  In (key, text) samples -> Str.lower file = key ->
  _simulated_ocr file = text
  /\ _simulated_ocr (dir ++ "/" ++ file) = text
  /\ (tesseract env = None -> isfile env (dir ++ "/" ++ file) = true ->
      extract_text_from_image env (dir ++ "/" ++ file) = Some text).
Proof.
  intros Hin Hlow. destruct (sample_keys _ _ Hin) as [Hk Hget].
  assert (Hfile : count "/" file = 0)
    by (rewrite <- count_lower, Hlow; exact Hk).
  assert (B1 : basename file = file)
    by (unfold basename; now rewrite basename_aux_plain).
  assert (B2 : basename (dir ++ "/" ++ file) = file)
    by (unfold basename; now rewrite basename_aux_slash, basename_aux_plain).
  assert (S1 : _simulated_ocr file = text)
    by (unfold _simulated_ocr; now rewrite B1, Hlow, Hget).
  assert (S2 : _simulated_ocr (dir ++ "/" ++ file) = text)
    by (unfold _simulated_ocr; now rewrite B2, Hlow, Hget).
  repeat split; auto.
  intros Ht Hf. unfold extract_text_from_image. now rewrite Hf, Ht, S2.
Qed.

Lemma simulated_ocr_sample_witness :
  _simulated_ocr "Receipt_Expense_03.PNG"
  = ("RECIBO" ++ nl ++ "Aluguel cozinha compartilhada" ++ nl
     ++ "Mês: Janeiro/2026" ++ nl ++ "Valor: R$800,00" ++ nl
     ++ "Data: 05/01/2026")%string
  /\ _simulated_ocr ("sample_receipts" ++ "/" ++ "Receipt_Expense_03.PNG")
     = ("RECIBO" ++ nl ++ "Aluguel cozinha compartilhada" ++ nl
        ++ "Mês: Janeiro/2026" ++ nl ++ "Valor: R$800,00" ++ nl
        ++ "Data: 05/01/2026")%string
  /\ (tesseract Sample.disk_env = None ->
      isfile Sample.disk_env
        ("sample_receipts" ++ "/" ++ "Receipt_Expense_03.PNG") = true ->
      extract_text_from_image Sample.disk_env
        ("sample_receipts" ++ "/" ++ "Receipt_Expense_03.PNG")
      = Some ("RECIBO" ++ nl ++ "Aluguel cozinha compartilhada" ++ nl
              ++ "Mês: Janeiro/2026" ++ nl ++ "Valor: R$800,00" ++ nl
              ++ "Data: 05/01/2026")%string).
Proof.
  apply (simulated_ocr_sample Sample.disk_env "sample_receipts"
           "Receipt_Expense_03.PNG" "receipt_expense_03.png").
  - do 4 right. left. reflexivity.
  - reflexivity.
Defined.

End OcrFacts.

(* ------------------------------------------------------------------ *)
(** ** whatsapp_sim.py: the quick entries that are understood *)

Module QuickFacts.

Import Re ReFacts StrFacts TextFacts NumFacts QuickEntryFacts AmountFacts.
Import ItemsFacts Spec Notions WhatsappSim.

(** *** Evaluation of the matcher, one component at a time *)

Lemma rep_needs {R} g p (k : cursor -> option R) lo hi pv s :
  stops p s -> rep g p k (S lo) hi pv s = None.
Proof.
  destruct s as [|a t]; simpl; [reflexivity|]. intros ->. reflexivity.
Qed.

Lemma rep_reads {R} lo p (K : cursor -> caps -> option R) pv w s cs x :
  all p w = true -> stops p s -> lo <= String.length w ->
  K (Cursor (last_char pv w) s) cs = Some x ->
  rmatch (Rep true lo None p) K (Cursor pv (w ++ s)) cs = Some x.
Proof.
  intros Hw Hs Hlo HK. cbn [rmatch prev rest].
  now apply rep_greedy_all.
Qed.

Lemma grp_reads {R} n lo p (K : cursor -> caps -> option R) pv w s cs x :
  all p w = true -> stops p s -> lo <= String.length w ->
  K (Cursor (last_char pv w) s) ((n, w) :: cs) = Some x ->
  rmatch (Grp n (Rep true lo None p)) K (Cursor pv (w ++ s)) cs = Some x.
Proof.
  intros Hw Hs Hlo HK. cbn [rmatch prev rest].
  apply rep_greedy_all; try assumption.
  rewrite (consumed_reads _ _ w) by reflexivity. exact HK.
Qed.

Lemma opt_takes {R} p (K : cursor -> caps -> option R) pv a t cs x :
  p a = true -> K (Cursor (Some a) t) cs = Some x ->
  rmatch (opt p) K (Cursor pv (String a t)) cs = Some x.
Proof.
  intros Ha HK. unfold opt. cbn [rmatch prev rest rep]. rewrite Ha.
  cbn [can_more andb option_map pred].
  destruct t as [|b t]; cbn [rep]; [now rewrite HK|].
  rewrite andb_false_r. now rewrite HK.
Qed.

Lemma opt_skips {R} p (K : cursor -> caps -> option R) pv s cs :
  stops p s -> rmatch (opt p) K (Cursor pv s) cs = K (Cursor pv s) cs.
Proof.
  intros Hs. unfold opt. cbn [rmatch prev rest]. now rewrite rep_stop.
Qed.

(** A literal that cannot be followed by what comes next does not
    match. *)
Lemma rmatch_ilit_fails {R} (k : cursor -> caps -> option R) :
  forall v s pv cs,
  (forall w s', s = (w ++ s')%string ->
                String.length w = String.length v ->
                Str.lower w = Str.lower v ->
                k (Cursor (last_char pv w) s') cs = None) ->
  rmatch (ilit v) k (Cursor pv s) cs = None.
Proof.
  induction v as [|a v IH]; intros s pv cs H.
  - apply (H "" s); reflexivity.
  - assert (Hstep : forall b t,
              s = String b t -> is_nocase a b = true ->
              rmatch (ilit v) k (Cursor (Some b) t) cs = None).
    { intros b t -> Hab. apply IH. intros w s' -> Hlen Hlow.
      apply (H (String b w) s'); simpl; try congruence.
      unfold is_nocase in Hab. apply Ascii.eqb_eq in Hab.
      now rewrite Hab, Hlow. }
    destruct v as [|a' v].
    + cbn [ilit rmatch rest]. destruct s as [|b t]; [reflexivity|].
      destruct (is_nocase a b) eqn:Hab; [|reflexivity].
      exact (Hstep b t eq_refl Hab).
    + change (ilit (String a (String a' v)))
        with (Seq (Chr (is_nocase a)) (ilit (String a' v))).
      cbn [rmatch rest]. destruct s as [|b t]; [reflexivity|].
      destruct (is_nocase a b) eqn:Hab; [|reflexivity].
      exact (Hstep b t eq_refl Hab).
Qed.

(** *** Words without white space *)

Lemma append_split (a : string) : forall b c d,
  (a ++ b)%string = (c ++ d)%string ->
  (exists e, a = (c ++ e)%string /\ d = (e ++ b)%string)
  \/ (exists e, c = (a ++ e)%string /\ b = (e ++ d)%string).
Proof.
  induction a as [|x a IH]; intros b c d H.
  - right. exists c. simpl in *. auto.
  - destruct c as [|y c].
    + left. exists (String x a). simpl in *. auto.
    + simpl in H. injection H as -> H.
      destruct (IH _ _ _ H) as [(e & -> & ->)|(e & -> & ->)];
        [left | right]; exists e; auto.
Qed.

Lemma space_lower (c : ascii) :
  Str.is_space (Str.lower_char c) = Str.is_space c.
Proof. destruct c as [[] [] [] [] [] [] [] []]; reflexivity. Qed.

Lemma solid_lower (w : string) : solid (Str.lower w) <-> solid w.
Proof.
  unfold solid. induction w as [|c w IH]; simpl; [tauto|].
  rewrite space_lower, !andb_true_iff, IH. tauto.
Qed.

Lemma solid_app (a b : string) : solid (a ++ b) <-> solid a /\ solid b.
Proof. unfold solid. rewrite all_app, andb_true_iff. tauto. Qed.

Lemma solid_stops (w s : string) :
  solid w -> w <> "" -> stops Str.is_space (w ++ s).
Proof.
  destruct w as [|c w]; [congruence|]. unfold solid. simpl.
  intros H _. apply andb_prop in H as [H _]. now apply negb_true_iff.
Qed.

Lemma length_lower (w : string) :
  String.length (Str.lower w) = String.length w.
Proof. induction w; simpl; congruence. Qed.

(** The verbs are written in lower case and without white space. *)
Lemma verbs_plain :
  Forall (fun v => Str.lower v = v /\ solid v) quick_verbs.
Proof. repeat constructor. Qed.

(** An alternative other than the verb of the message fails, as a verb
    must be followed by white space. *)
Lemma other_verb_fails {R} (k : cursor -> caps -> option R)
    (v word rest : string) pv cs :
  Str.lower v = v -> solid v -> solid word -> Str.lower word <> v ->
  rest <> "" -> ~ stops Str.is_space rest ->
  (forall c cs', stops Str.is_space (Re.rest c) -> k c cs' = None) ->
  rmatch (ilit v) k (Cursor pv (word ++ rest)) cs = None.
Proof.
  intros Hv Sv Sw Hne Hrest Hsp Hk.
  apply rmatch_ilit_fails. intros w s' E Hlen Hlow.
  apply Hk. cbn [Re.rest].
  apply append_split in E as [(e & -> & ->)|(e & -> & ->)].
  - destruct e as [|x e].
    + rewrite append_nil_r in Hne. rewrite Hv in Hlow. contradiction.
    + apply solid_app in Sw as [_ Se].
      apply (solid_stops (String x e) rest Se). discriminate.
  - exfalso. destruct e as [|x e].
    + rewrite append_nil_r in Hlow. rewrite Hv in Hlow. contradiction.
    + apply Hsp. simpl.
      rewrite <- Hv, <- Hlow in Sv.
      apply solid_lower, solid_app in Sv as [_ Se].
      unfold solid in Se. simpl in Se. apply andb_prop in Se as [Se _].
      now apply negb_true_iff in Se.
Qed.

(** The alternation of the verbs reads the verb of the message. *)
Lemma verbs_read {R} (k : cursor -> caps -> option R)
    (word rest : string) pv cs x :
  rest <> "" -> ~ stops Str.is_space rest ->
  (forall c cs', stops Str.is_space (Re.rest c) -> k c cs' = None) ->
  k (Cursor (last_char pv word) rest) cs = Some x ->
  forall l,
  Forall (fun v => Str.lower v = v /\ solid v) l ->
  In (Str.lower word) l ->
  rmatch (alts (map ilit l)) k (Cursor pv (word ++ rest)) cs = Some x.
Proof.
  intros Hrest Hsp Hk Hx. induction 1 as [|v l Hvs Hl IH]; intros Hin;
    [destruct Hin|].
  destruct Hvs as [Hv Sv].
  assert (Sw : solid word).
  { apply solid_lower. rewrite Forall_forall in Hl.
    destruct Hin as [<-|Hin]; [assumption | apply (Hl _ Hin)]. }
  destruct (string_dec (Str.lower word) v) as [E|E].
  - assert (Hm : rmatch (ilit v) k (Cursor pv (word ++ rest)) cs = Some x).
    { rewrite rmatch_ilit; [assumption | | now rewrite Hv].
      rewrite <- E. symmetry. apply length_lower. }
    cbn [map alts]. destruct (map ilit l); [assumption|].
    cbn [rmatch]. now rewrite Hm.
  - destruct Hin as [Hin|Hin]; [congruence|].
    destruct l as [|v' l]; [destruct Hin|].
    change (alts (map ilit (v :: v' :: l)))
      with (Alt (ilit v) (alts (map ilit (v' :: l)))).
    cbn [rmatch]. rewrite other_verb_fails by assumption.
    apply IH, Hin.
Qed.

(** *** The rest of the pattern *)

Lemma money_class (c : ascii) :
  money c = true ->
  Str.is_space c = false /\ is_nocase "R" c = false /\ chr "$" c = false.
Proof.
  destruct c as [[] [] [] [] [] [] [] []]; vm_compute; intros H;
    try discriminate; auto.
Qed.

Lemma space_class (c : ascii) :
  Str.is_space c = true ->
  is_nocase "R" c = false /\ chr "$" c = false /\ money c = false.
Proof.
  destruct c as [[] [] [] [] [] [] [] []]; vm_compute; intros H;
    try discriminate; auto.
Qed.

(** What may follow the currency sign: white space and then a monetary
    token. *)
Lemma after_sign (ws' token tail : string) :
  blank ws' -> amount_token token ->
  stops (is_nocase "R") (ws' ++ token ++ tail)
  /\ stops (chr "$") (ws' ++ token ++ tail).
Proof.
  intros Hb [Hne Hm]. destruct ws' as [|a ws'].
  - destruct token as [|t0 token]; [contradiction|]. simpl in *.
    apply andb_prop in Hm as [Hm _].
    destruct (money_class _ Hm) as (_ & ? & ?). auto.
  - unfold blank in Hb. simpl in *. apply andb_prop in Hb as [Hb _].
    destruct (space_class _ Hb) as (? & ? & _). auto.
Qed.

Lemma token_stops (token tail : string) :
  amount_token token -> stops Str.is_space (token ++ tail).
Proof.
  intros [Hne Hm]. destruct token as [|t0 token]; [contradiction|].
  simpl in *. apply andb_prop in Hm as [Hm _].
  now destruct (money_class _ Hm) as (? & _).
Qed.

Lemma lstrip_split (s : string) :
  exists sp, s = (sp ++ Str.lstrip s)%string
             /\ all Str.is_space sp = true
             /\ stops Str.is_space (Str.lstrip s).
Proof.
  induction s as [|c s IH]; simpl.
  - now exists "".
  - destruct IH as (sp & E & Hsp & Hst).
    destruct (Str.is_space c) eqn:Hc.
    + exists (String c sp). simpl. rewrite Hc, Hsp, <- E. auto.
    + exists "". simpl. auto.
Qed.

Lemma first_line_split (s : string) :
  exists rest', s = (first_line s ++ rest')%string
                /\ all any (first_line s) = true /\ stops any rest'.
Proof.
  induction s as [|c s IH]; simpl.
  - now exists "".
  - destruct IH as (r & E & Hl & Hst).
    destruct (Ascii.eqb c newline) eqn:Hc.
    + exists (String c s). simpl. unfold any. rewrite Hc. auto.
    + exists r. simpl. unfold any at 1. rewrite Hc, Hl, <- E. auto.
Qed.

(** From the monetary token on: the token is the second group, what is
    left of its line the third. *)
Lemma amount_reads {R} (K : cursor -> caps -> option R)
    (token tail : string) pv cs :
  amount_token token -> stops money tail ->
  exists c',
    forall x,
      K c' ((3, first_line (Str.lstrip tail)) :: (2, token) :: cs) = Some x ->
      rmatch (seqs [ Grp 2 (plus money); star Str.is_space;
                     Grp 3 (star any) ])
             K (Cursor pv (token ++ tail)) cs = Some x.
Proof.
  intros [Hne Hm] Hst.
  destruct (lstrip_split tail) as (sp & Et & Hsp & Hls).
  destruct (first_line_split (Str.lstrip tail)) as (r & El & Hl & Hr).
  exists (Cursor (last_char (last_char (last_char pv token) sp)
                            (first_line (Str.lstrip tail))) r).
  intros x HK.
  cbn [seqs]. change (rmatch (Seq ?a ?b) K) with (rmatch a (rmatch b K)).
  apply grp_reads; try assumption.
  { destruct token; [contradiction | simpl; lia]. }
  change (rmatch (Seq ?a ?b) K) with (rmatch a (rmatch b K)).
  rewrite Et at 1. apply rep_reads; try assumption; [lia|].
  rewrite El at 1. apply grp_reads; try assumption. lia.
Qed.

(** The currency sign. *)
Lemma sign_reads {R} (K : cursor -> caps -> option R) r
    (sign next : string) pv cs cs' :
  currency_sign sign ->
  stops (is_nocase "R") next -> stops (chr "$") next ->
  (forall pv', exists c', forall x,
      K c' cs' = Some x -> rmatch r K (Cursor pv' next) cs = Some x) ->
  exists c', forall x,
    K c' cs' = Some x ->
    rmatch (Seq (opt (is_nocase "R")) (Seq (opt (chr "$")) r)) K
           (Cursor pv (sign ++ next)) cs = Some x.
Proof.
  intros (a & d & -> & Ha & Hd) HR HD HK.
  destruct Ha as [-> | [-> | ->]], Hd as [-> | ->]; cbn [append].
  - destruct (HK pv) as (c' & Hc'). exists c'. intros x Hx.
    change (rmatch (Seq ?a ?b) K) with (rmatch a (rmatch b K)).
    rewrite opt_skips by assumption.
    change (rmatch (Seq ?a ?b) K) with (rmatch a (rmatch b K)).
    rewrite opt_skips by assumption. now apply Hc'.
  - destruct (HK (Some "$"%char)) as (c' & Hc'). exists c'. intros x Hx.
    change (rmatch (Seq ?a ?b) K) with (rmatch a (rmatch b K)).
    rewrite opt_skips by reflexivity.
    change (rmatch (Seq ?a ?b) K) with (rmatch a (rmatch b K)).
    apply opt_takes; [reflexivity | now apply Hc'].
  - destruct (HK (Some "R"%char)) as (c' & Hc'). exists c'. intros x Hx.
    change (rmatch (Seq ?a ?b) K) with (rmatch a (rmatch b K)).
    apply opt_takes; [reflexivity|].
    change (rmatch (Seq ?a ?b) K) with (rmatch a (rmatch b K)).
    rewrite opt_skips by assumption. now apply Hc'.
  - destruct (HK (Some "$"%char)) as (c' & Hc'). exists c'. intros x Hx.
    change (rmatch (Seq ?a ?b) K) with (rmatch a (rmatch b K)).
    apply opt_takes; [reflexivity|].
    change (rmatch (Seq ?a ?b) K) with (rmatch a (rmatch b K)).
    apply opt_takes; [reflexivity | now apply Hc'].
  - destruct (HK (Some "r"%char)) as (c' & Hc'). exists c'. intros x Hx.
    change (rmatch (Seq ?a ?b) K) with (rmatch a (rmatch b K)).
    apply opt_takes; [reflexivity|].
    change (rmatch (Seq ?a ?b) K) with (rmatch a (rmatch b K)).
    rewrite opt_skips by assumption. now apply Hc'.
  - destruct (HK (Some "$"%char)) as (c' & Hc'). exists c'. intros x Hx.
    change (rmatch (Seq ?a ?b) K) with (rmatch a (rmatch b K)).
    apply opt_takes; [reflexivity|].
    change (rmatch (Seq ?a ?b) K) with (rmatch a (rmatch b K)).
    apply opt_takes; [reflexivity | now apply Hc'].
Qed.

Lemma sign_stops (sign next : string) :
  currency_sign sign -> sign <> "" -> stops Str.is_space (sign ++ next).
Proof.
  intros (a & d & -> & Ha & Hd) Hne.
  destruct Ha as [-> | [-> | ->]], Hd as [-> | ->];
    try reflexivity. contradiction.
Qed.

(** What follows the verb, when the white space before the currency
    sign is the whole of a run of white space. *)
Lemma quick_tail_reads {R} (K : cursor -> caps -> option R)
    (ws sign ws' token tail : string) pv cs :
  ws <> "" -> blank ws -> currency_sign sign -> blank ws' ->
  amount_token token -> stops money tail ->
  (sign = "" -> ws' = "") ->
  exists c', forall x,
    K c' ((3, first_line (Str.lstrip tail)) :: (2, token) :: cs) = Some x ->
    rmatch quick_tail K (Cursor pv (ws ++ sign ++ ws' ++ token ++ tail)) cs
    = Some x.
Proof.
  intros Hne Hws Hsign Hws' Htok Hst Hnorm.
  destruct (after_sign ws' token tail Hws' Htok) as [HR HD].
  assert (Hrest : forall pv', exists c', forall x,
            K c' ((3, first_line (Str.lstrip tail)) :: (2, token) :: cs)
            = Some x ->
            rmatch (seqs [ star Str.is_space; Grp 2 (plus money);
                           star Str.is_space; Grp 3 (star any) ])
                   K (Cursor pv' (ws' ++ token ++ tail)) cs = Some x).
  { intros pv'.
    destruct (amount_reads K token tail (last_char pv' ws') cs Htok Hst)
      as (c' & Hc').
    exists c'. intros x Hx.
    change (seqs [ star Str.is_space; Grp 2 (plus money);
                   star Str.is_space; Grp 3 (star any) ])
      with (Seq (star Str.is_space)
                (seqs [ Grp 2 (plus money); star Str.is_space;
                        Grp 3 (star any) ])).
    change (rmatch (Seq ?a ?b) K) with (rmatch a (rmatch b K)).
    apply rep_reads; [exact Hws' | now apply token_stops | lia |].
    now apply Hc'. }
  destruct (sign_reads K _ sign (ws' ++ token ++ tail)
              (last_char pv ws) cs _ Hsign HR HD Hrest) as (c' & Hc').
  exists c'. intros x Hx.
  change quick_tail
    with (Seq (plus Str.is_space)
              (Seq (opt (is_nocase "R"))
                   (Seq (opt (chr "$"))
                        (seqs [ star Str.is_space; Grp 2 (plus money);
                                star Str.is_space; Grp 3 (star any) ])))).
  change (rmatch (Seq ?a ?b) K) with (rmatch a (rmatch b K)).
  apply rep_reads; [exact Hws | | destruct ws; [contradiction | simpl; lia]
                   | now apply Hc'].
  destruct (string_dec sign "") as [E|E].
  - rewrite E, (Hnorm E). cbn [append]. now apply token_stops.
  - now apply sign_stops.
Qed.

Lemma blank_app (a b : string) : blank a -> blank b -> blank (a ++ b).
Proof. unfold blank. intros Ha Hb. now rewrite all_app, Ha, Hb. Qed.

Lemma blank_not_stops (ws s : string) :
  ws <> "" -> blank ws ->
  (ws ++ s)%string <> "" /\ ~ stops Str.is_space (ws ++ s).
Proof.
  destruct ws as [|a ws]; [congruence|]. unfold blank. simpl.
  intros _ H. apply andb_prop in H as [H _].
  split; [discriminate | congruence].
Qed.

(** The whole pattern on a message of the shape of a quick entry. *)
Lemma quick_re_reads (word ws sign ws' token tail : string) :
  In (Str.lower word) quick_verbs ->
  ws <> "" -> blank ws -> currency_sign sign -> blank ws' ->
  amount_token token -> stops money tail ->
  exists m,
    re_match quick_re (word ++ ws ++ sign ++ ws' ++ token ++ tail) = Some m
    /\ group 1 m = word /\ group 2 m = token
    /\ group 3 m = first_line (Str.lstrip tail).
Proof.
  intros Hverb Hne Hws Hsign Hws' Htok Hst.
  assert (exists ws1 ws2,
            (ws ++ sign ++ ws' ++ token ++ tail
             = ws1 ++ sign ++ ws2 ++ token ++ tail)%string
            /\ ws1 <> "" /\ blank ws1 /\ blank ws2
            /\ (sign = "" -> ws2 = ""))
    as (ws1 & ws2 & E & Hne1 & Hb1 & Hb2 & Hnorm).
  { destruct (string_dec sign "") as [->|Hs].
    - exists (ws ++ ws')%string, "". cbn [append].
      rewrite append_assoc. repeat split; auto.
      + destruct ws; [contradiction | discriminate].
      + now apply blank_app.
    - exists ws, ws'. repeat split; auto. contradiction. }
  rewrite E.
  set (c0 := Cursor None (word ++ ws1 ++ sign ++ ws2 ++ token ++ tail)).
  set (K0 := fun (c' : cursor) (cs : caps) => Some (MObj c0 c' cs)).
  destruct (quick_tail_reads K0 ws1 sign ws2 token tail
              (last_char None word) [(1, word)]
              Hne1 Hb1 Hsign Hb2 Htok Hst Hnorm) as (c' & Hc').
  exists (MObj c0 c' [ (3, first_line (Str.lstrip tail)); (2, token);
                       (1, word) ]).
  split; [|repeat split].
  unfold re_match, match_at. fold c0. fold K0. rewrite quick_re_split.
  cbn [rmatch].
  destruct (blank_not_stops ws1 (sign ++ ws2 ++ token ++ tail) Hne1 Hb1)
    as [Hrest Hsp].
  apply (verbs_read _ word _ None []); try assumption.
  - intros c cs' Hstop. unfold quick_tail. cbn [seqs rmatch plus].
    now apply rep_needs.
  - rewrite (consumed_reads c0 _ word) by reflexivity.
    now apply Hc'.
  - apply verbs_plain.
Qed.

(** X22. Every message of the ASCII range that has the shape of a quick
    entry is understood: a
    verb of the vocabulary in any case, white space, an optional
    currency sign, a monetary token (taken whole) that stands for a
    number, and anything after it.  The transaction carries that number
    as its total, the type of the verb, the date of the clock, no item,
    and as description the rest of the line of the amount, stripped, or
    the verb with a capital when nothing is left. *)
Theorem quick_entry_understood (env : Env)
    (text word ws sign ws' token tail : string) (amount : Q) :
  ascii_text text ->
  Str.strip text = (word ++ ws ++ sign ++ ws' ++ token ++ tail)%string ->
  In (Str.lower word) quick_verbs ->
  ws <> "" -> blank ws -> currency_sign sign -> blank ws' ->
  amount_token token -> stops money tail ->
  brazilian_value token = Some amount ->
  _parse_quick_entry env text
  = Some (MkTx (today_str env) amount []
               (if mem (Str.lower word) sale_verbs then Sale else Expense)
               (quick_description (Str.lower word) tail)
               text).
Proof.
  intros _ Etext Hverb Hne Hws Hsign Hws' Htok Hst Hval.
  destruct (quick_re_reads word ws sign ws' token tail
              Hverb Hne Hws Hsign Hws' Htok Hst)
    as (m & Hm & G1 & G2 & G3).
  unfold _parse_quick_entry. rewrite Etext, Hm, G1, G2, G3.
  assert (Hq : quick_amount token = Some amount).
  { rewrite <- Hval. apply (float_dotted_token token), Htok. }
  rewrite Hq. reflexivity.
Qed.

Lemma quick_entry_understood_witness :
  _parse_quick_entry Sample.env "  Despesa  R$ 1.250,50 conta de luz "
  = Some (MkTx (today_str Sample.env) (2501 # 2) []
               (if mem (Str.lower "Despesa") sale_verbs
                then Sale else Expense)
               (quick_description (Str.lower "Despesa") " conta de luz")
               "  Despesa  R$ 1.250,50 conta de luz ").
Proof.
  apply (quick_entry_understood Sample.env
           "  Despesa  R$ 1.250,50 conta de luz "
           "Despesa" "  " "R$" " " "1.250,50" " conta de luz" (2501 # 2)%Q).
  - reflexivity.
  - reflexivity.
  - simpl. tauto.
  - discriminate.
  - reflexivity.
  - exists "R", "$". auto.
  - reflexivity.
  - split; [discriminate | reflexivity].
  - reflexivity.
  - reflexivity.
Defined.

End QuickFacts.

(* ------------------------------------------------------------------ *)
(** ** summarizer.py: the summary by template *)

Module SummaryFacts.

Import Ledger Spec Notions Summarizer StatsFacts FigureFacts.



End SummaryFacts.

(* ------------------------------------------------------------------ *)
(** ** demo.py: the run of the demonstration *)

Module DemoFacts.

Import Date CalendarFacts StrFacts Ledger Spec Notions WhatsappSim.
Import Extractor Categorizer WeekFacts OcrFacts Demo.

Lemma ends_slash_split (s : string) :
  ends_slash s = true -> exists a, s = (a ++ "/")%string.
Proof.
  induction s as [|c s IH]; [discriminate|].
  destruct s as [|c' s].
  - simpl. intros H. apply Ascii.eqb_eq in H. subst c. now exists "".
  - intros H. destruct (IH H) as (a & E). exists (String c a).
    simpl. now rewrite <- E.
Qed.

(** [os.path.basename] of a joined path is the file name. *)
Lemma basename_join (a file : string) :
  count "/" file = 0 -> Ocr.basename (path_join a file) = file.
Proof.
  intros H. unfold path_join, Ocr.basename.
  destruct (a =? "")%string; [now rewrite basename_aux_plain|].
  destruct (ends_slash a) eqn:E.
  - apply ends_slash_split in E as (a' & ->).
    rewrite append_assoc, basename_aux_slash. now apply basename_aux_plain.
  - rewrite basename_aux_slash. now apply basename_aux_plain.
Qed.

(** The images of the demonstration are read as the samples. *)
Lemma sample_read (env : Env) (dir file text : string) :
  In (file, text) Ocr.samples ->
  tesseract env = None -> isfile env (path_join dir file) = true ->
  Ocr.extract_text_from_image env (path_join dir file) = Some text.
Proof.
  intros Hin Ht Hf.
  assert (H : Str.lower file = file /\ count "/" file = 0
              /\ Ocr.dict_get file Ocr.samples = Some text).
  { unfold Ocr.samples in Hin.
    repeat (destruct Hin as [[= <- <-]|Hin]; [repeat split; reflexivity|]).
    destruct Hin. }
  destruct H as (Hlow & Hslash & Hget).
  unfold Ocr.extract_text_from_image, Ocr._simulated_ocr.
  now rewrite Hf, Ht, (basename_join _ _ Hslash), Hlow, Hget.
Qed.

Lemma categorize_by_rules (env : Env) (tx : Transaction) :
  llm env = None -> categorize env tx = Some (rule_category tx).
Proof.
  intros H. unfold categorize, rule_category. rewrite H.
  destruct (tx_type_of tx); [reflexivity|].
  destruct (_match_rules (searchable tx)) as [c|]; [|reflexivity].
  simpl. destruct (c =? "")%string; reflexivity.
Qed.

Lemma receipt_recorded (env : Env) (path caption raw : string) (f : store) :
  Ocr.extract_text_from_image env path = Some raw -> llm env = None ->
  process_receipt env path caption f
  = (Some (Recorded (entry_of env (_extract_with_regex env raw caption))),
     Some (_load f ++ [entry_of env (_extract_with_regex env raw caption)])).
Proof.
  intros Hraw Hllm. unfold process_receipt, extract_fields.
  rewrite Hraw, Hllm, (categorize_by_rules _ _ Hllm). reflexivity.
Qed.

Lemma quick_recorded (env : Env) (msg : string) (tx : Transaction)
    (f : store) :
  mem (Str.lower (Str.strip msg))
      [ "resumo"; "resumo semanal"; "summary"; "weekly" ] = false ->
  mem (Str.lower (Str.strip msg)) [ "limpar"; "reset"; "clear" ] = false ->
  mem (Str.lower (Str.strip msg)) [ "ajuda"; "help"; "?" ] = false ->
  _parse_quick_entry env msg = Some tx -> llm env = None ->
  process_text_message env msg f
  = (Some (Recorded (entry_of env tx)), Some (_load f ++ [entry_of env tx])).
Proof.
  intros H1 H2 H3 Hq Hllm. unfold process_text_message.
  rewrite H1, H2, H3, Hq, (categorize_by_rules _ _ Hllm). reflexivity.
Qed.

Lemma summary_answered (env : Env) (f : store) :
  valid (today env) = true -> week_in_calendar (today env) ->
  exists l, process_text_message env "resumo" f = (Some (Summary l), f).
Proof.
  intros V Hcal.
  change (process_text_message env "resumo" f)
    with (option_map Summary (get_week_entries env None f), f).
  unfold get_week_entries. cbn [bound].
  destruct (monday_of _ V) as (monday & Em & Vm & Om). rewrite Em.
  destruct (add_days_spec 6 monday Vm) as (sunday & Es & Vs & Os).
  { unfold week_in_calendar in Hcal. simpl. lia. }
  unfold add_days. change (Z.to_nat 6) with 6%nat. rewrite Es.
  eexists. reflexivity.
Qed.

Lemma in_samples (n : nat) (file text : string) :
  nth_error Ocr.samples n = Some (file, text) ->
  In (file, text) Ocr.samples /\ In file (map fst Ocr.samples).
Proof.
  intros H. apply nth_error_In in H. split; [assumption|].
  now apply (in_map fst) in H.
Qed.

(** X24. The demonstration does what its closing message says.  With
    the sample images on disk, no OCR engine and no language model, and
    a clock whose week ends within the calendar when the summary is
    asked, [run_demo] runs to its end, prints nine replies, and leaves a
    ledger of exactly seven entries, whatever the ledger held before:
    the five receipts, dated as printed on them, and the two quick
    entries, dated by the clock; the gas receipt falls under "other",
    not under "transport". *)
Theorem demo_leaves_seven (envs : nat -> Env) (here : string) (f : store) :
  demo_ready envs here ->
  valid (today (envs 8)) = true -> week_in_calendar (today (envs 8)) ->
  exists replies ledger,
    run_demo envs here f = (Some replies, Some ledger)
    /\ List.length replies = 9
    /\ map gist ledger
       = [ (Expense, "rent", 800%Q); (Expense, "other", (549 # 5)%Q);
           (Expense, "other", 120%Q); (Sale, "sales", 150%Q);
           (Sale, "sales", 205%Q); (Sale, "sales", 85%Q);
           (Expense, "transport", 35%Q) ]
    /\ map e_date ledger
       = [ "2026-01-05"; "2026-01-18"; "2026-01-19"; "2026-01-20";
           "2026-01-22"; today_str (envs 6); today_str (envs 7) ].
Proof.
  intros Hready V Hcal.
  assert (Hllm : forall n, llm (envs n) = None) by (intros n; apply Hready).
  assert (Hread : forall n k file text,
            nth_error Ocr.samples k = Some (file, text) ->
            Ocr.extract_text_from_image (envs n)
              (path_join (SAMPLE_DIR here) file) = Some text).
  { intros n k file text Hk. destruct (in_samples _ _ _ Hk) as [H1 H2].
    destruct (Hready n) as (Ht & _ & Hf). apply sample_read; auto. }
  unfold run_demo. cbv zeta.
  rewrite (receipt_recorded _ _ _ _ _ (Hread 1 4 _ _ eq_refl) (Hllm 1)).
  cbn [and_then].
  rewrite (receipt_recorded _ _ _ _ _ (Hread 2 1 _ _ eq_refl) (Hllm 2)).
  cbn [and_then].
  rewrite (receipt_recorded _ _ _ _ _ (Hread 3 3 _ _ eq_refl) (Hllm 3)).
  cbn [and_then].
  rewrite (receipt_recorded _ _ _ _ _ (Hread 4 0 _ _ eq_refl) (Hllm 4)).
  cbn [and_then].
  rewrite (receipt_recorded _ _ _ _ _ (Hread 5 2 _ _ eq_refl) (Hllm 5)).
  cbn [and_then].
  rewrite (quick_recorded (envs 6) "venda 85 encomenda de brigadeiro"
             (MkTx (today_str (envs 6)) 85 [] Sale "encomenda de brigadeiro"
                   "venda 85 encomenda de brigadeiro"))
    by (try reflexivity; apply Hllm).
  cbn [and_then].
  rewrite (quick_recorded (envs 7) "gasto 35 uber entrega"
             (MkTx (today_str (envs 7)) 35 [] Expense "uber entrega"
                   "gasto 35 uber entrega"))
    by (try reflexivity; apply Hllm).
  cbn [and_then].
  match goal with
  | |- context [process_text_message (envs 8) "resumo" ?g] =>
      destruct (summary_answered (envs 8) g V Hcal) as (l & Hl); rewrite Hl
  end.
  cbn [and_then].
  change (process_text_message (envs 9) "ajuda" ?g) with (Some Help, g).
  cbn [and_then]. cbn [_load clear_ledger _save app].
  eexists. eexists. split; [reflexivity|].
  split; [reflexivity|]. split; vm_compute; reflexivity.
Qed.

Lemma demo_leaves_seven_witness :
  exists replies ledger,
    run_demo (fun _ => Sample.disk_env) "pkg" None = (Some replies, Some ledger)
    /\ List.length replies = 9
    /\ map gist ledger
       = [ (Expense, "rent", 800%Q); (Expense, "other", (549 # 5)%Q);
           (Expense, "other", 120%Q); (Sale, "sales", 150%Q);
           (Sale, "sales", 205%Q); (Sale, "sales", 85%Q);
           (Expense, "transport", 35%Q) ]
    /\ map e_date ledger
       = [ "2026-01-05"; "2026-01-18"; "2026-01-19"; "2026-01-20";
           "2026-01-22"; today_str Sample.disk_env;
           today_str Sample.disk_env ].
Proof.
  apply (demo_leaves_seven (fun _ => Sample.disk_env) "pkg" None).
  - intros n. repeat split.
  - reflexivity.
  - vm_compute. discriminate.
Defined.

End DemoFacts.

(* ------------------------------------------------------------------ *)
(** ** summarizer.py: the recommendation of a period of sales *)

Module BestSellerFacts.

Import Ledger Spec Notions Summarizer ItemsFacts StatsFacts FigureFacts.
Import AdviceFacts.

Lemma no_expenses (add : Q -> Q -> Q) (entries : list Entry) :
  (forall e, In e entries -> e_type e = Sale) ->
  total_of add (of_type Expense entries) = 0%Q.
Proof.
  intros H. replace (of_type Expense entries) with (@nil Entry);
    [reflexivity|].
  unfold of_type. induction entries as [|e entries IH]; [reflexivity|].
  simpl. rewrite (H e) by (left; reflexivity). simpl.
  apply IH. intros x Hx. apply H. now right.
Qed.

(** The keys of a dictionary filled by [dict_add] are keys that were
    added. *)
Lemma dict_add_keys (add : Q -> Q -> Q) (k : string) (v : Q) :
  forall d kv,
    In kv (Tally.dict_add add k v d) -> fst kv = k \/ In (fst kv) (map fst d).
Proof.
  induction d as [|[k' v'] d IH]; simpl; intros kv.
  - intros [<-|[]]. now left.
  - destruct (k' =? k)%string eqn:E; simpl.
    + apply String.eqb_eq in E. subst k'.
      intros [<-|H]; [now left|].
      right. right. now apply in_map.
    + intros [<-|H]; [right; now left|].
      destruct (IH _ H); auto.
Qed.

Lemma by_category_keys (add : Q -> Q -> Q) (entries : list Entry) :
  forall kv,
    In kv (fold_left (fun d e =>
                        Tally.dict_add add (e_category e) (e_total e) d)
                     entries [])
    -> In (fst kv) (map e_category entries).
Proof.
  induction entries as [|e entries IH] using rev_ind; [intros ? []|].
  intros kv. rewrite fold_left_app, map_app, in_app_iff. simpl.
  intros H. apply dict_add_keys in H as [H|H]; [auto|].
  left. apply in_map_iff in H as (kv' & E & H). rewrite <- E. now apply IH.
Qed.

Lemma only_revenue (d : list (string * Q)) :
  (forall kv, In kv d -> fst kv = "sales") -> expense_cats d = [].
Proof.
  induction d as [|kv d IH]; intros H; [reflexivity|].
  unfold expense_cats in *. simpl.
  rewrite (H kv) by (left; reflexivity). simpl.
  apply IH. intros x Hx. apply H. now right.
Qed.

Lemma sorted_desc_head (l : list (string * Q)) :
  l <> [] ->
  exists x t, sorted_desc l = x :: t /\ In x l
              /\ forall y, In y l -> (snd y <= snd x)%Q.
Proof.
  intros Hne. pose proof (sorted_desc_length l) as Hlen.
  pose proof (sorted_desc_sorted l) as Hs.
  destruct (sorted_desc l) as [|x t] eqn:E.
  - destruct l; [congruence | discriminate].
  - exists x, t. split; [reflexivity|].
    assert (Hin : forall z, In z l <-> In z (x :: t))
      by (intros z; rewrite <- E; symmetry; apply sorted_desc_In).
    split; [apply Hin; left; reflexivity|].
    intros y Hy. apply Hin in Hy as [<-|Hy]; [apply Qle_refl|].
    inversion Hs as [|? ? _ Hall]; subst.
    rewrite Forall_forall in Hall.
    eapply sorts_before_le, Hall, Hy.
Qed.

(** X25. For a period made of sales only (entries of type sale in the
    category "sales") in which something was sold by item, the
    recommendation of the summary is the one on prices, and the item it
    names is the best seller: an item of the period whose total, the
    quantity times the unit price of each of its lines added up over
    all the entries, no other item exceeds; this whatever the sums and
    products of the floats round to. *)
Theorem advice_names_best_seller (add sub : Q -> Q -> Q)
    (times : Z -> Q -> Q) (entries : list Entry) :
  (forall e, In e entries -> e_type e = Sale /\ e_category e = "sales") ->
  (exists e i, In e entries /\ In i (e_items e)) ->
  exists item total,
    _generate_action (Tally.summary_stats add sub times entries)
    = advice_item item total
    /\ In item (map name (all_items entries))
    /\ total = name_total add times item (all_items entries)
    /\ forall other,
         In other (map name (all_items entries)) ->
         (name_total add times other (all_items entries) <= total)%Q.
Proof.
  intros Hall (e & i & He & Hi).
  set (items := all_items entries).
  set (t := fold_left (Tally.visit add times) entries Tally.start).
  assert (Hrows : Tally.item_totals t
                  = map (row add times items) (firsts (map name items)))
    by apply item_totals_rows.
  assert (Hitem : In (name i) (map name items)).
  { apply in_map. unfold items, all_items. apply in_flat_map. eauto. }
  assert (Hne : Tally.item_totals t <> []).
  { rewrite Hrows. intros E.
    assert (Hin : In (row add times items (name i))
                     (map (row add times items) (firsts (map name items))))
      by (apply in_map, (proj2 (firsts_In _ _)), Hitem).
    rewrite E in Hin. destruct Hin. }
  destruct (sorted_desc_head _ Hne) as ([item total] & rest & Es & Hin & Hmax).
  exists item, total.
  rewrite Hrows in Hin. apply in_map_iff in Hin as (n & [= <- <-] & Hn).
  rewrite firsts_In in Hn.
  split; [|split; [exact Hn | split; [reflexivity|]]].
  - unfold _generate_action, Tally.summary_stats. fold t.
    cbn [total_sales total_expenses].
    assert (Hexp : Tally.total_expenses t = 0%Q).
    { unfold t. rewrite total_expenses_fold, total_of_type.
      apply no_expenses. intros x Hx. apply Hall, Hx. }
    rewrite Hexp.
    assert (Hfirst : Qlt_bool (Tally.total_sales t) 0
                     && Qlt_bool 0 (Tally.total_sales t) = false).
    { destruct (Qlt_bool (Tally.total_sales t) 0) eqn:E1; [|reflexivity].
      destruct (Qlt_bool 0 (Tally.total_sales t)) eqn:E2; [|reflexivity].
      apply Qlt_bool_iff in E1, E2. exfalso.
      apply (Qlt_irrefl 0). eapply Qlt_trans; eassumption. }
    rewrite Hfirst. unfold action_otherwise. cbn [profit by_category top_items].
    assert (Hcats : top_expense (Tally.by_category t) = None).
    { unfold top_expense. rewrite only_revenue; [reflexivity|].
      unfold t. rewrite by_category_fold. intros kv Hkv.
      apply by_category_keys in Hkv.
      apply in_map_iff in Hkv as (x & <- & Hx). apply Hall, Hx. }
    rewrite Hcats, Es.
    match goal with
    | |- context [if ?b then _ else _] => destruct b
    end; reflexivity.
  - intros other Ho.
    apply (Hmax (row add times items other)).
    rewrite Hrows. apply in_map, (proj2 (firsts_In _ _)), Ho.
Qed.

Lemma advice_names_best_seller_witness :
  exists item total,
    _generate_action
      (Tally.summary_stats Sample.add_tenths Tally.exact_sub
         Tally.exact_times Sample.tenths)
    = advice_item item total
    /\ In item (map name (all_items Sample.tenths))
    /\ total = name_total Sample.add_tenths Tally.exact_times item
                          (all_items Sample.tenths)
    /\ forall other,
         In other (map name (all_items Sample.tenths)) ->
         (name_total Sample.add_tenths Tally.exact_times other
                     (all_items Sample.tenths) <= total)%Q.
Proof.
  apply (advice_names_best_seller Sample.add_tenths Tally.exact_sub
           Tally.exact_times Sample.tenths).
  - intros e [<-|[<-|[]]]; split; reflexivity.
  - eexists. eexists. split; [left; reflexivity | left; reflexivity].
Defined.

End BestSellerFacts.
